(** * Video analysis with Gemini: retry loop, response repair, schema validation

    A shallow embedding of [GeminiService.analyze_video]
    (src/app/services/gemini_service.py) and of the pydantic models of
    src/app/models/video_analysis_model.py.

    - Python [str] values are [string]s; a character stands for one code
      point of the Latin-1 range.
    - A decoded JSON document is a [json] tree; a Python [dict] with string
      keys is a [gmap string json].
    - [int] values are [Z].
    - The remote model is an oracle from the attempt index to its reply.
    - [logger] calls are not modelled, except for the part of the raw
      response that the two extraction failure sites write to the log;
      building the request and logging are taken not to raise.
    - [analyze_video] starts at line 136 with the encoded payload; what
      precedes the loop (the file check and the optional transcoding) is
      modelled apart, in [GeminiService.prepare_video].

    The second part of the file covers the code around the analysis: the
    controller (src/app/controllers/content_controller.py), the download,
    frame extraction, spreadsheet and second analysis services
    (src/app/services/) and the error diagnostics
    (src/config/logging_config.py). There the file system, the
    subprocesses ([yt-dlp], [ffmpeg]), OpenCV and the remote models are
    oracles, paths are POSIX paths, and starting a subprocess is taken not
    to raise ([os.makedirs] may). *)

From Stdlib Require Import ZArith QArith Ascii String List Lia.
From Stdlib Require Import DecimalString DecimalZ DecimalNat DecimalPos.
From stdpp Require Import gmap strings list option fin_maps.

Set Warnings "-register-all".
Local Open Scope Z_scope.

(** ** Python string operations used by the service *)

Module PyStr.

(** [s.lower()], on Latin-1 code points. *)
Definition lower_char (c : ascii) : ascii :=
  let n := nat_of_ascii c in
  if ((65 <=? n) && (n <=? 90))%nat
     || ((192 <=? n) && (n <=? 222) && negb (n =? 215))%nat
  then ascii_of_nat (n + 32) else c.

Fixpoint lower (s : string) : string :=
  match s with
  | EmptyString => EmptyString
  | String c s' => String (lower_char c) (lower s')
  end.

(** [sub in s] *)
Fixpoint contains (sub s : string) : bool :=
  String.prefix sub s ||
  match s with
  | EmptyString => false
  | String _ s' => contains sub s'
  end.

(** [s.find(sub)]: lowest index of an occurrence, [-1] when there is none. *)
Fixpoint find (sub s : string) : Z :=
  if String.prefix sub s then 0
  else match s with
       | EmptyString => -1
       | String _ s' => let r := find sub s' in if r <? 0 then -1 else r + 1
       end.

(** [s.rfind(sub)]: highest index of an occurrence, [-1] when there is
    none. *)
Fixpoint rfind (sub s : string) : Z :=
  match s with
  | EmptyString => if String.prefix sub s then 0 else -1
  | String _ s' =>
      let r := rfind sub s' in
      if 0 <=? r then r + 1
      else if String.prefix sub s then 0 else -1
  end.

(** [s[i:j]] for [0 <= i]; the service only slices with such bounds. *)
Definition slice (s : string) (i j : Z) : string :=
  String.substring (Z.to_nat i) (Z.to_nat (j - i)) s.

(** [s[:n]] *)
Definition take (n : nat) (s : string) : string := String.substring 0 n s.

(** [s.startswith(p)] *)
Definition startswith (p s : string) : bool := String.prefix p s.

(** The characters [str.split()] treats as separators (code points below
    256 with the Unicode White_Space property as CPython tests it). *)
Definition isspace (c : ascii) : bool :=
  let n := nat_of_ascii c in
  (((9 <=? n) && (n <=? 13)) || ((28 <=? n) && (n <=? 32))
   || (n =? 133) || (n =? 160))%nat.

Definition flush (cur : option string) : list string :=
  match cur with Some w => [w] | None => [] end.

Definition push (cur : option string) (c : ascii) : option string :=
  match cur with
  | Some w => Some (w +:+ String c EmptyString)
  | None => Some (String c EmptyString)
  end.

Fixpoint split_go (cur : option string) (s : string) : list string :=
  match s with
  | EmptyString => flush cur
  | String c s' =>
      if isspace c then flush cur ++ split_go None s'
      else split_go (push cur c) s'
  end.

(** [s.split()]: the maximal runs of non-space characters, in order. *)
Definition split (s : string) : list string := split_go None s.

End PyStr.

(** ** JSON values, as [json.loads] returns them *)

Inductive json : Type :=
  | JNull
  | JBool (b : bool)
  | JInt (n : Z)
  | JFloat (q : Q)
  | JStr (s : string)
  | JList (l : list json)
  | JDict (m : gmap string json).

(** [type(v).__name__] *)
Definition type_name (v : json) : string :=
  match v with
  | JNull => "NoneType"
  | JBool _ => "bool"
  | JInt _ => "int"
  | JFloat _ => "float"
  | JStr _ => "str"
  | JList _ => "list"
  | JDict _ => "dict"
  end.

(** [k in d] *)
Definition has_key (d : gmap string json) (k : string) : bool :=
  match d !! k with Some _ => true | None => false end.

(** ** Exceptions that reach the handlers of [analyze_video] *)

Inductive exn : Type :=
  | ApiError (msg : string)
      (** raised by [model.generate_content] or by [response.text] *)
  | AttributeError (msg : string)
  | TypeError (msg : string)
  | ValidationError (fields : list string) (input : gmap string json)
      (** pydantic's error: the top-level fields it rejects and the keyword
          arguments the constructor was called on, which its text quotes *).

Definition no_attribute (v : json) (attr : string) : exn :=
  AttributeError ("'" +:+ type_name v +:+ "' object has no attribute '" +:+ attr +:+ "'").

(** ** Response repair (gemini_service.py, lines 199-238) *)

Definition required_fields : list string :=
  [ "descripcion_original"; "titulo_portada"; "idea_video"; "gancho_video";
    "acciones"; "dialogo"; "musica"; "expectativas_cumplidas";
    "caption_video" ].

Definition field_mapping : list (string * string) :=
  [ ("titulo", "titulo_portada");
    ("gancho_inicial", "gancho_video");
    ("caption", "caption_video") ].

Definition default_hashtags : json :=
  JList [ JStr "#BarentBarefoot"; JStr "#EntrenamientoNatural"; JStr "#CuerpoFuerte" ].

Definition placeholder : json := JStr "No especificado".

(** One turn of the loop over [field_mapping.items()]:
    [json_response[new_field] = json_response.pop(old_field)] under the
    guard [old_field in json_response and new_field not in json_response]. *)
Definition rename_field (json_response : gmap string json) (p : string * string)
  : gmap string json :=
  let '(old_field, new_field) := p in
  match json_response !! old_field with
  | Some v =>
      if has_key json_response new_field then json_response
      else <[new_field := v]> (delete old_field json_response)
  | None => json_response
  end.

Definition apply_field_mapping (json_response : gmap string json) : gmap string json :=
  foldl rename_field json_response field_mapping.

Definition missing_fields (json_response : gmap string json) : list string :=
  List.filter (fun field => negb (has_key json_response field)) required_fields.

(** The body of [for field in missing_fields]. *)
Definition fill_field (json_response : gmap string json) (field : string)
  : gmap string json :=
  if String.eqb field "hashtags"
  then <[field := default_hashtags]> json_response
  else <[field := placeholder]> json_response.

Definition fill_missing_fields (json_response : gmap string json) : gmap string json :=
  foldl fill_field json_response (missing_fields json_response).

(** [[word for word in caption.split() if word.startswith("#")]] *)
Definition caption_hashtags (caption : string) : list string :=
  List.filter (PyStr.startswith "#") (PyStr.split caption).

(** The block under [if "hashtags" not in json_response]. [caption.split()]
    raises [AttributeError] when the caption is not a [str]. *)
Definition ensure_hashtags (json_response : gmap string json)
  : exn + gmap string json :=
  if has_key json_response "hashtags" then inr json_response
  else
    match json_response !! "caption_video" with
    | Some (JStr caption) =>
        match caption_hashtags caption with
        | [] => inr (<["hashtags" := default_hashtags]> json_response)
        | hashtags => inr (<["hashtags" := JList (JStr <$> hashtags)]> json_response)
        end
    | Some caption => inl (no_attribute caption "split")
    | None => inr (<["hashtags" := default_hashtags]> json_response)
    end.

(** The three steps in sequence: what stands between [json.loads] and
    the [VideoAnalysis] constructor. *)
Definition repair (json_response : gmap string json) : exn + gmap string json :=
  ensure_hashtags (fill_missing_fields (apply_field_mapping json_response)).

(** ** Schema validation: pydantic's rules for the declared field types

    The models are declared with pydantic v2 ([ConfigDict]); validation runs
    in its default (lax) mode on values that come from [json.loads]. A
    validator returns [None] where pydantic reports an error for the field. *)

Module Pydantic.

(** [str]: only a string is accepted. *)
Definition validate_str (v : json) : option string :=
  match v with JStr s => Some s | _ => None end.

Definition ascii_lower_char (c : ascii) : ascii :=
  let n := nat_of_ascii c in
  if ((65 <=? n) && (n <=? 90))%nat then ascii_of_nat (n + 32) else c.

Fixpoint ascii_lower (s : string) : string :=
  match s with
  | EmptyString => EmptyString
  | String c s' => String (ascii_lower_char c) (ascii_lower s')
  end.

Definition one_of (s : string) (l : list string) : bool :=
  existsb (String.eqb s) l.

(** The strings lax mode reads as booleans, compared case-insensitively
    (the digits exactly). *)
Definition str_as_bool (s : string) : option bool :=
  let t := ascii_lower s in
  if String.eqb s "0" || one_of t ["f"; "n"; "no"; "off"; "false"] then Some false
  else if String.eqb s "1" || one_of t ["t"; "y"; "on"; "yes"; "true"] then Some true
  else None.

(** [bool]: a boolean, one of the strings above, or the number 0 or 1. *)
Definition validate_bool (v : json) : option bool :=
  match v with
  | JBool b => Some b
  | JStr s => str_as_bool s
  | JInt n => if n =? 0 then Some false else if n =? 1 then Some true else None
  | JFloat q =>
      if Qeq_bool q 0 then Some false else if Qeq_bool q 1 then Some true else None
  | _ => None
  end.

(** [List[T]]: a JSON array whose items all validate as [T]. *)
Definition validate_list {A} (item : json -> option A) (v : json) : option (list A) :=
  match v with JList l => mapM item l | _ => None end.

(** [Tuple[str, str]]: a JSON array of exactly two strings. *)
Definition validate_tuple2 (v : json) : option (string * string) :=
  match v with
  | JList [a; b] =>
      match validate_str a, validate_str b with
      | Some x, Some y => Some (x, y)
      | _, _ => None
      end
  | _ => None
  end.

(** [Optional[T]]: [null] is [None], anything else validates as [T]. *)
Definition validate_optional {A} (inner : json -> option A) (v : json)
  : option (option A) :=
  match v with JNull => Some None | _ => Some <$> inner v end.

(** A field declared with [Field(...)]: the key must be present. *)
Definition required {A} (field : json -> option A) (d : gmap string json) (k : string)
  : option A :=
  match d !! k with Some v => field v | None => None end.

(** A field with a default: an absent key takes the default unvalidated. *)
Definition with_default {A} (field : json -> option A) (dflt : A)
  (d : gmap string json) (k : string) : option A :=
  match d !! k with Some v => field v | None => Some dflt end.

(** [extra='allow']: the keys that are not declared fields are kept. *)
Definition extras (declared : list string) (d : gmap string json) : gmap string json :=
  foldr delete d declared.

Definition dump_optional {A} (f : A -> json) (o : option A) : json :=
  match o with Some x => f x | None => JNull end.

Definition dump_str_list (l : list string) : json := JList (JStr <$> l).

Definition dump_tuple2 (p : string * string) : json := JList [JStr p.1; JStr p.2].

(** The entry of the error list for one field. *)
Definition rejects {A} (k : string) (o : option A) : list string :=
  match o with Some _ => [] | None => [k] end.

End Pydantic.

Module MusicRecommendation.
Import Pydantic.

Record t : Type := Build {
  nombre_cancion : string;
  artista : string;
  extra : gmap string json
}.

Definition fields : list string := ["nombre_cancion"; "artista"].

Definition validate (v : json) : option t :=
  match v with
  | JDict d =>
      match required validate_str d "nombre_cancion",
            required validate_str d "artista" with
      | Some n, Some a => Some (Build n a (extras fields d))
      | _, _ => None
      end
  | _ => None
  end.

Definition model_dump (r : t) : json :=
  JDict (<["nombre_cancion" := JStr (nombre_cancion r)]>
         (<["artista" := JStr (artista r)]> (extra r))).
End MusicRecommendation.

Module MusicInfo.
Import Pydantic.

Record t : Type := Build {
  hay_musica : bool;
  recomendacion : option MusicRecommendation.t;
  extra : gmap string json
}.

Definition fields : list string := ["hay_musica"; "recomendacion"].

Definition validate (v : json) : option t :=
  match v with
  | JDict d =>
      match required validate_bool d "hay_musica",
            with_default (validate_optional MusicRecommendation.validate) None
              d "recomendacion" with
      | Some h, Some r => Some (Build h r (extras fields d))
      | _, _ => None
      end
  | _ => None
  end.

Definition model_dump (r : t) : json :=
  JDict (<["hay_musica" := JBool (hay_musica r)]>
         (<["recomendacion" :=
              dump_optional MusicRecommendation.model_dump (recomendacion r)]>
            (extra r))).
End MusicInfo.

Module DialogInfo.
Import Pydantic.

Record t : Type := Build {
  hay_dialogo : bool;
  dialogo : option (list (string * string));
  extra : gmap string json
}.

Definition fields : list string := ["hay_dialogo"; "dialogo"].

(** [Optional[List[Tuple[str, str]]]] *)
Definition validate_dialogo : json -> option (option (list (string * string))) :=
  validate_optional (validate_list validate_tuple2).

Definition validate (v : json) : option t :=
  match v with
  | JDict d =>
      match required validate_bool d "hay_dialogo",
            with_default validate_dialogo None d "dialogo" with
      | Some h, Some l => Some (Build h l (extras fields d))
      | _, _ => None
      end
  | _ => None
  end.

Definition model_dump (r : t) : json :=
  JDict (<["hay_dialogo" := JBool (hay_dialogo r)]>
         (<["dialogo" :=
              dump_optional (fun l => JList (dump_tuple2 <$> l)) (dialogo r)]>
            (extra r))).
End DialogInfo.

Module VideoAnalysis.
Import Pydantic.

Record t : Type := Build {
  descripcion_original : string;
  titulo_portada : string;
  idea_video : string;
  gancho_video : string;
  acciones : list string;
  dialogo : DialogInfo.t;
  musica : MusicInfo.t;
  expectativas_cumplidas : string;
  caption_video : string;
  hashtags : option (list string);
  extra : gmap string json
}.

Definition fields : list string :=
  [ "descripcion_original"; "titulo_portada"; "idea_video"; "gancho_video";
    "acciones"; "dialogo"; "musica"; "expectativas_cumplidas";
    "caption_video"; "hashtags" ].

(** The constructor call on the keyword arguments [d]: either the model or
    pydantic's [ValidationError] naming every rejected field. *)
Definition validate (d : gmap string json) : exn + t :=
  let o1 := required validate_str d "descripcion_original" in
  let o2 := required validate_str d "titulo_portada" in
  let o3 := required validate_str d "idea_video" in
  let o4 := required validate_str d "gancho_video" in
  let o5 := required (validate_list validate_str) d "acciones" in
  let o6 := required DialogInfo.validate d "dialogo" in
  let o7 := required MusicInfo.validate d "musica" in
  let o8 := required validate_str d "expectativas_cumplidas" in
  let o9 := required validate_str d "caption_video" in
  let o10 := with_default (validate_optional (validate_list validate_str)) (Some [])
               d "hashtags" in
  let model :=
    x1 ← o1; x2 ← o2; x3 ← o3; x4 ← o4; x5 ← o5;
    x6 ← o6; x7 ← o7; x8 ← o8; x9 ← o9; x10 ← o10;
    Some (Build x1 x2 x3 x4 x5 x6 x7 x8 x9 x10 (extras fields d)) in
  match model with
  | Some v => inr v
  | None =>
      inl (ValidationError
             (rejects "descripcion_original" o1 ++ rejects "titulo_portada" o2
              ++ rejects "idea_video" o3 ++ rejects "gancho_video" o4
              ++ rejects "acciones" o5 ++ rejects "dialogo" o6
              ++ rejects "musica" o7 ++ rejects "expectativas_cumplidas" o8
              ++ rejects "caption_video" o9 ++ rejects "hashtags" o10) d)
  end.

(** [model_dump()]: every declared field, then the extra keys. *)
Definition model_dump (r : t) : gmap string json :=
  <["descripcion_original" := JStr (descripcion_original r)]>
  (<["titulo_portada" := JStr (titulo_portada r)]>
  (<["idea_video" := JStr (idea_video r)]>
  (<["gancho_video" := JStr (gancho_video r)]>
  (<["acciones" := dump_str_list (acciones r)]>
  (<["dialogo" := DialogInfo.model_dump (dialogo r)]>
  (<["musica" := MusicInfo.model_dump (musica r)]>
  (<["expectativas_cumplidas" := JStr (expectativas_cumplidas r)]>
  (<["caption_video" := JStr (caption_video r)]>
  (<["hashtags" := dump_optional dump_str_list (hashtags r)]>
  (extra r)))))))))).
End VideoAnalysis.

(** ** The retry loop of [analyze_video] (gemini_service.py, lines 136-290) *)

(** What [model.generate_content(...)] followed by [response.text] gives on
    one attempt. *)
Inductive reply : Type :=
  | Text (cleaned_response : string)
  | Raises (msg : string).

(** The exit taken by [analyze_video]. The Python function returns the model
    on the first one and [None] on every other; the constructor records the
    [return] (or [break]) statement that was reached. *)
Inductive outcome : Type :=
  | Analysis (v : VideoAnalysis.t)   (** line 241 *)
  | NoJsonFound (shown : string)     (** lines 243-245; [shown] is the part of
                                         the response written to the log *)
  | JsonParseError (shown : string)  (** lines 247-250 *)
  | QuotaExhausted                   (** lines 268-269 *)
  | PayloadTooLarge                  (** [break] of line 273, then line 290 *)
  | Unrecoverable (e : exn)          (** line 275 *)
  | PrepareError (e : exn)           (** lines 277-281, the outer handler *)
  | NotAttempted                     (** line 290 with the loop never entered *).

Definition returned (o : outcome) : option VideoAnalysis.t :=
  match o with Analysis v => Some v | _ => None end.

(** The observable actions of a run, oldest first. *)
Inductive event : Type :=
  | Attempt (retry_count : Z)   (** a call of [model.generate_content] *)
  | Sleep (seconds : Z)         (** [time.sleep(wait_time)] *).

(** What the inner [try] block does with a reply: it either reaches a
    [return] or raises into the handler of line 252. *)
Inductive inner : Type :=
  | Return (o : outcome)
  | Raise (e : exn).

(** How one turn of the [while] loop ends. *)
Inductive turn : Type :=
  | Continue (wait_time : Z)
  | Exit (o : outcome).

(** What [base64.b64decode(None)] raises. *)
Definition payload_lost : exn :=
  TypeError "argument should be a bytes-like object or ASCII string, not 'NoneType'".

(** [base64.b64decode(s)]; the argument is [None] once the [finally] clause
    has run. *)
Definition b64decode (video_base64 : option string) : exn + string :=
  match video_base64 with
  | Some s => inr s
  | None => inl payload_lost
  end.

Section AnalyzeVideo.

(** [json.loads]: the decoded value, or [None] for [JSONDecodeError]. *)
Variable json_loads : string -> option json.

(** [str(e)] for a pydantic [ValidationError]: a text that names the
    rejected fields and quotes the input values, so it is a function of
    both. *)
Variable str_validation_error : list string -> gmap string json -> string.

Definition str_exn (e : exn) : string :=
  match e with
  | ApiError msg | AttributeError msg | TypeError msg => msg
  | ValidationError fields input => str_validation_error fields input
  end.

(** Lines 186-250, after the response text has been read. *)
Definition process_response (cleaned_response : string) : inner :=
  let start_idx := PyStr.find "{" cleaned_response in
  let end_idx := PyStr.rfind "}" cleaned_response in
  if (0 <=? start_idx) && (start_idx <? end_idx) then
    let json_str := PyStr.slice cleaned_response start_idx (end_idx + 1) in
    match json_loads json_str with
    | None => Return (JsonParseError (PyStr.take 500 cleaned_response))
    | Some (JDict json_response) =>
        match repair json_response with
        | inl e => Raise e
        | inr json_response' =>
            match VideoAnalysis.validate json_response' with
            | inl e => Raise e
            | inr v => Return (Analysis v)
            end
        end
    | Some v =>
        (* a text that starts with a brace never decodes to anything but a
           dict; item assignment on another value is a [TypeError] *)
        Raise (TypeError ("'" +:+ type_name v +:+ "' object does not support item assignment"))
    end
  else Return (NoJsonFound (PyStr.take 500 cleaned_response)).

Definition is_quota_error (error_str : string) : bool :=
  PyStr.contains "quota" error_str || PyStr.contains "rate limit" error_str.

Definition is_too_large_error (error_str : string) : bool :=
  PyStr.contains "too large" error_str || PyStr.contains "size limit" error_str.

(** The handler of lines 252-275. *)
Definition handle (max_retries retry_count : Z) (e : exn) : turn :=
  let error_str := PyStr.lower (str_exn e) in
  if is_quota_error error_str then
    if retry_count <? max_retries then Continue (2 ^ retry_count * 5)
    else Exit QuotaExhausted
  else if is_too_large_error error_str then Exit PayloadTooLarge
  else Exit (Unrecoverable e).

(** The body of the [while] loop: the events of the turn and how it ends. *)
Definition attempt (generate_content : Z -> reply) (max_retries retry_count : Z)
  (video_base64 : option string) : list event * turn :=
  match b64decode video_base64 with
  | inl e => ([], Exit (PrepareError e))
  | inr _ =>
      match generate_content retry_count with
      | Raises msg => ([Attempt retry_count], handle max_retries retry_count (ApiError msg))
      | Text cleaned_response =>
          match process_response cleaned_response with
          | Return o => ([Attempt retry_count], Exit o)
          | Raise e => ([Attempt retry_count], handle max_retries retry_count e)
          end
      end
  end.

(** The [while retry_count <= max_retries] loop. Each turn ends with the
    [finally] clause, which sets [video_base64] to [None]. [fuel] bounds
    the number of turns; [None] means it ran out. *)
Fixpoint retry_loop (fuel : nat) (generate_content : Z -> reply)
  (max_retries retry_count : Z) (video_base64 : option string)
  : option (list event * outcome) :=
  if retry_count <=? max_retries then
    match fuel with
    | O => None
    | S fuel' =>
        match attempt generate_content max_retries retry_count video_base64 with
        | (evs, Exit o) => Some (evs, o)
        | (evs, Continue wait_time) =>
            match retry_loop fuel' generate_content max_retries (retry_count + 1) None with
            | Some (evs', o) => Some (evs ++ Sleep wait_time :: evs', o)
            | None => None
            end
        end
    end
  else Some ([], NotAttempted).

(** [analyze_video(video_path, max_retries)] from line 136 on, with the
    encoded file contents and the remote model as arguments. *)
Definition analyze_video (video_base64 : string) (generate_content : Z -> reply)
  (max_retries : Z) : option (list event * outcome) :=
  retry_loop (Z.to_nat (max_retries + 1)) generate_content max_retries 0
    (Some video_base64).

End AnalyzeVideo.

(** ** Vocabulary of the statements *)

(** The one-character string [c]. *)
Definition single (c : ascii) : string := String c EmptyString.

(** The character [c] does not occur in [s]. *)
Definition absent (c : ascii) (s : string) : Prop :=
  ∀ i, String.get i s ≠ Some c.

(** No character of [w] is a separator of [str.split()]. *)
Fixpoint spaceless (w : string) : bool :=
  match w with
  | EmptyString => true
  | String c w' => negb (PyStr.isspace c) && spaceless w'
  end.

(** [s] is empty or starts with a separator. *)
Definition at_boundary (s : string) : bool :=
  match s with
  | EmptyString => true
  | String c _ => PyStr.isspace c
  end.

(** A value that Python sees as empty: [None], the empty string, list or
    dict. *)
Definition is_empty_value (v : json) : bool :=
  match v with
  | JNull => true
  | JStr s => String.eqb s ""
  | JList l => match l with [] => true | _ => false end
  | JDict m => Nat.eqb (size m) 0
  | _ => false
  end.

(** Values that already have the shape of a declared field type. *)
Definition is_str (v : json) : bool :=
  match v with JStr _ => true | _ => false end.

Definition is_bool (v : json) : bool :=
  match v with JBool _ => true | _ => false end.

Definition is_list_of (item : json → bool) (v : json) : bool :=
  match v with JList l => forallb item l | _ => false end.

Definition is_pair (v : json) : bool :=
  match v with JList [JStr _; JStr _] => true | _ => false end.

Definition is_optional (p : json → bool) (v : json) : bool :=
  match v with JNull => true | _ => p v end.

Definition field_is (p : json → bool) (d : gmap string json) (k : string) : bool :=
  match d !! k with Some v => p v | None => false end.

Definition is_recommendation (v : json) : bool :=
  match v with
  | JDict m => field_is is_str m "nombre_cancion" && field_is is_str m "artista"
  | _ => false
  end.

Definition is_music (v : json) : bool :=
  match v with
  | JDict m => field_is is_bool m "hay_musica"
               && field_is (is_optional is_recommendation) m "recomendacion"
  | _ => false
  end.

Definition is_dialog (v : json) : bool :=
  match v with
  | JDict m => field_is is_bool m "hay_dialogo"
               && field_is (is_optional (is_list_of is_pair)) m "dialogo"
  | _ => false
  end.

(** Every declared field of [VideoAnalysis], [hashtags] and the optional
    members of the nested models included, is present with a value of its
    declared type. *)
Definition schema_typed (d : gmap string json) : bool :=
  field_is is_str d "descripcion_original"
  && field_is is_str d "titulo_portada"
  && field_is is_str d "idea_video"
  && field_is is_str d "gancho_video"
  && field_is (is_list_of is_str) d "acciones"
  && field_is is_dialog d "dialogo"
  && field_is is_music d "musica"
  && field_is is_str d "expectativas_cumplidas"
  && field_is is_str d "caption_video"
  && field_is (is_optional (is_list_of is_str)) d "hashtags".

(** Repair followed by validation gives back the object it was given. *)
Definition round_trips (d : gmap string json) : Prop :=
  ∃ d' r, repair d = inr d'
          ∧ VideoAnalysis.validate d' = inr r
          ∧ VideoAnalysis.model_dump r = d.

Definition put (kv : string * json) (acc : gmap string json) : gmap string json :=
  <[kv.1 := kv.2]> acc.

(** The value the sweep writes for [field]. *)
Definition fill_value (field : string) : json :=
  if String.eqb field "hashtags" then default_hashtags else placeholder.

(** The number of remote calls and the backoff delays in a trace. *)
Definition attempts (evs : list event) : nat :=
  List.length
    (List.filter (λ e, match e with Attempt _ => true | _ => false end) evs).

Definition sleeps (evs : list event) : list Z :=
  omap (λ e, match e with Sleep s => Some s | _ => None end) evs.

(** ** Sample inputs *)

Definition dq : string := String (ascii_of_nat 34) EmptyString.

Definition quoted (s : string) : string := dq +:+ s +:+ dq.

Definition member (k v : string) : string := quoted k +:+ ": " +:+ v.

Definition sample_dialogo : json :=
  JDict (<["hay_dialogo" := JBool true]>
         (<["dialogo" := JList [JList [JStr "Coach"; JStr "Vamos"]]]> ∅)).

Definition sample_musica : json :=
  JDict (<["hay_musica" := JBool false]> (<["recomendacion" := JNull]> ∅)).

(** The nine required fields, well typed, and no [hashtags]. *)
Definition sample_required : gmap string json :=
  <["descripcion_original" := JStr "Un atleta salta la cuerda"]>
  (<["titulo_portada" := JStr "Salta descalzo"]>
  (<["idea_video" := JStr "Rutina de comba"]>
  (<["gancho_video" := JStr "Salto lento"]>
  (<["acciones" := JList [JStr "Saltar"; JStr "Aterrizar"]]>
  (<["dialogo" := sample_dialogo]>
  (<["musica" := sample_musica]>
  (<["expectativas_cumplidas" := JStr "Muestra el resultado"]>
  (<["caption_video" := JStr "Entrena descalzo #barefoot hoy #fuerza"]> ∅)))))))).

Definition sample_complete : gmap string json :=
  <["hashtags" := JList [JStr "#barefoot"]]> sample_required.

(** The text of [sample_complete] between its outer braces. *)
Definition sample_mid : string :=
  member "descripcion_original" (quoted "Un atleta salta la cuerda") +:+ ", "
  +:+ member "titulo_portada" (quoted "Salta descalzo") +:+ ", "
  +:+ member "idea_video" (quoted "Rutina de comba") +:+ ", "
  +:+ member "gancho_video" (quoted "Salto lento") +:+ ", "
  +:+ member "acciones" ("[" +:+ quoted "Saltar" +:+ ", " +:+ quoted "Aterrizar" +:+ "]")
  +:+ ", "
  +:+ member "dialogo"
        ("{" +:+ member "hay_dialogo" "true" +:+ ", "
         +:+ member "dialogo" ("[[" +:+ quoted "Coach" +:+ ", " +:+ quoted "Vamos" +:+ "]]")
         +:+ "}")
  +:+ ", "
  +:+ member "musica"
        ("{" +:+ member "hay_musica" "false" +:+ ", "
         +:+ member "recomendacion" "null" +:+ "}")
  +:+ ", "
  +:+ member "expectativas_cumplidas" (quoted "Muestra el resultado") +:+ ", "
  +:+ member "caption_video" (quoted "Entrena descalzo #barefoot hoy #fuerza") +:+ ", "
  +:+ member "hashtags" ("[" +:+ quoted "#barefoot" +:+ "]").

(** A caption that is a number, and the text of that object. *)
Definition caption_number : gmap string json := {[ "caption_video" := JInt 5 ]}.

Definition caption_number_text : string := "{" +:+ member "caption_video" "5" +:+ "}".

(** A decoder for the examples: it knows the texts of [sample_complete] and
    of [caption_number] and reports a decoding error on every other text. *)
Definition sample_loads (s : string) : option json :=
  if String.eqb s ("{" +:+ sample_mid +:+ "}") then Some (JDict sample_complete)
  else if String.eqb s caption_number_text then Some (JDict caption_number)
  else None.

(** A response whose caption is [null]. *)
Definition caption_null : gmap string json := {[ "caption_video" := JNull ]}.

Definition sample_str_error (fields : list string) (input : gmap string json)
  : string :=
  "validation error for VideoAnalysis".

(** A response that uses the alternate field names. *)
Definition sample_aliased : gmap string json :=
  <["titulo" := JStr "Pies fuertes"]>
  (<["gancho_inicial" := JStr "Un salto"]>
  (<["caption" := JStr "Entrena #descalzo"]>
  (<["hashtags" := JList [JStr "#pies"]]> ∅))).

(** A required field that is present and empty. *)
Definition empty_title : gmap string json := {[ "titulo_portada" := JStr "" ]}.

(** A dialogue whose only entry has three elements. *)
Definition triple_dialogo : gmap string json :=
  <["hay_dialogo" := JBool true]>
  (<["dialogo" := JList [JList [JStr "Coach"; JStr "Vamos"; JStr "ya"]]]> ∅).

Definition sample_triple : gmap string json :=
  <["dialogo" := JDict triple_dialogo]> sample_complete.

(** The remote model of the retry scenario: a quota error on attempts 0 and
    1, then the text [ok]. *)
Definition quota_twice (ok : string) (retry_count : Z) : reply :=
  if retry_count <? 2
  then Raises "429 Resource has been exhausted (e.g. check quota)."
  else Text ok.

Definition too_large_reply (retry_count : Z) : reply :=
  Raises "400 Request payload size exceeds the limit: file too large".

(** ** More Python string operations (controller, Excel and download code) *)

Module PyText.

(** [s.lstrip()], [s.rstrip()] and [s.strip()] *)
Fixpoint lstrip (s : string) : string :=
  match s with
  | EmptyString => EmptyString
  | String c s' => if PyStr.isspace c then lstrip s' else s
  end.

Fixpoint rstrip (s : string) : string :=
  match s with
  | EmptyString => EmptyString
  | String c s' =>
      match rstrip s' with
      | EmptyString => if PyStr.isspace c then EmptyString else String c EmptyString
      | r => String c r
      end
  end.

Definition strip (s : string) : string := rstrip (lstrip s).

(** [s.endswith(suffix)] *)
Fixpoint endswith (suffix s : string) : bool :=
  String.eqb s suffix ||
  match s with
  | EmptyString => false
  | String _ s' => endswith suffix s'
  end.

(** [s.split(sep)] for a one-character separator: the pieces between the
    separators, empty pieces included; never the empty list. *)
Fixpoint split_on (sep : ascii) (s : string) : list string :=
  match s with
  | EmptyString => [EmptyString]
  | String c s' =>
      if Ascii.eqb c sep then EmptyString :: split_on sep s'
      else match split_on sep s' with
           | w :: ws => String c w :: ws
           | [] => [String c EmptyString]
           end
  end.

(** [pieces[-1]] on the result of a split *)
Definition last_piece (pieces : list string) : string :=
  List.last pieces EmptyString.

(** [sep.join(items)] *)
Fixpoint join (sep : string) (items : list string) : string :=
  match items with
  | [] => EmptyString
  | [x] => x
  | x :: rest => x +:+ sep +:+ join sep rest
  end.

(** [s.replace(old, new)] for a non-empty [old]: the occurrences are taken
    from the left and do not overlap. [skip] counts the characters of the
    current occurrence that are still to be dropped. *)
Fixpoint replace_go (old new : string) (skip : nat) (s : string) : string :=
  match s with
  | EmptyString => EmptyString
  | String c s' =>
      match skip with
      | S k => replace_go old new k s'
      | O =>
          if String.prefix old s
          then new +:+ replace_go old new (String.length old - 1) s'
          else String c (replace_go old new 0 s')
      end
  end.

Definition replace (old new s : string) : string := replace_go old new 0 s.

(** [str(n)] for an [int], as an f-string inserts it. *)
Definition str_of_int (n : Z) : string := NilZero.string_of_int (Z.to_int n).

(** The digits of an [int] literal with its underscores removed: an
    underscore is only allowed between two digits. [prev] tells whether the
    previous character was a digit. *)
Definition is_digit (c : ascii) : bool :=
  let n := nat_of_ascii c in ((48 <=? n) && (n <=? 57))%nat.

Fixpoint digits_of (prev : bool) (s : string) : option string :=
  match s with
  | EmptyString => if prev then Some EmptyString else None
  | String c s' =>
      if is_digit c then String c <$> digits_of true s'
      else if Ascii.eqb c "_" then (if prev then digits_of false s' else None)
      else None
  end.

(** [int(s)]: surrounding whitespace, an optional sign, decimal digits.
    [None] stands for [ValueError]. *)
Definition int_of_str (s : string) : option Z :=
  let t := strip s in
  let '(negative, body) :=
    match t with
    | String "-" r => (true, r)
    | String "+" r => (false, r)
    | _ => (false, t)
    end in
  match digits_of false body with
  | Some ds =>
      match NilZero.uint_of_string ds with
      | Some d => Some (if negative then - Z.of_uint d else Z.of_uint d)
      | None => None
      end
  | None => None
  end.

(** Zeros in front of [s] up to [width] characters. *)
Fixpoint zeros (n : nat) : string :=
  match n with O => EmptyString | S k => String "0" (zeros k) end.

Definition zfill (width : nat) (s : string) : string :=
  zeros (width - String.length s) +:+ s.

(** [f"{n:03d}"]: the sign, then the digits zero-padded so that the whole
    has at least three characters. *)
Definition format_03d (n : Z) : string :=
  if n <? 0 then "-" +:+ zfill 2 (str_of_int (- n))
  else zfill 3 (str_of_int n).

End PyText.

(** ** [os.path] on POSIX paths *)

Module OsPath.

(** [os.path.join(a, b)] *)
Definition join (a b : string) : string :=
  if PyStr.startswith "/" b then b
  else if String.eqb a EmptyString || PyText.endswith "/" a then a +:+ b
  else a +:+ "/" +:+ b.

(** [p[i:]] *)
Definition drop (i : Z) (p : string) : string :=
  String.substring (Z.to_nat i) (String.length p - Z.to_nat i) p.

(** [os.path.basename(p)] *)
Definition basename (p : string) : string := drop (PyStr.rfind "/" p + 1) p.

Fixpoint all_slashes (s : string) : bool :=
  match s with
  | EmptyString => true
  | String c s' => Ascii.eqb c "/" && all_slashes s'
  end.

(** [s.rstrip("/")] *)
Fixpoint rstrip_slashes (s : string) : string :=
  match s with
  | EmptyString => EmptyString
  | String c s' =>
      match rstrip_slashes s' with
      | EmptyString => if Ascii.eqb c "/" then EmptyString else String c EmptyString
      | r => String c r
      end
  end.

(** [os.path.dirname(p)]: what precedes the last slash, without the slashes
    at its end unless it consists of slashes only. *)
Definition dirname (p : string) : string :=
  let head := PyStr.take (Z.to_nat (PyStr.rfind "/" p + 1)) p in
  if all_slashes head then head else rstrip_slashes head.

Fixpoint all_dots (s : string) : bool :=
  match s with
  | EmptyString => true
  | String c s' => Ascii.eqb c "." && all_dots s'
  end.

(** [os.path.splitext(p)]: the extension starts at the last dot of the last
    component, unless only dots precede it there. *)
Definition splitext (p : string) : string * string :=
  let sepIndex := PyStr.rfind "/" p in
  let dotIndex := PyStr.rfind "." p in
  if (sepIndex <? dotIndex)
     && negb (all_dots (PyStr.slice p (sepIndex + 1) dotIndex))
  then (PyStr.slice p 0 dotIndex, drop dotIndex p)
  else (p, EmptyString).

End OsPath.

(** ** Frame extraction (extraction_service.py, lines 48-67) *)

Module ExtractionService.

(** What one turn of the capture loop does at a frame position. *)
Inductive capture : Type :=
  | Saved (position : Z) (output_path : string)   (** [cv2.imwrite] *)
  | Unreadable (position : Z)                     (** [ret] was false *).

Definition frame_path (output_dir : string) (frame_count : Z) : string :=
  OsPath.join output_dir ("frame_" +:+ PyText.format_03d frame_count +:+ ".jpg").

Section Frames.

(** [ret] of [video.read()] after [video.set(CAP_PROP_POS_FRAMES, position)]. *)
Variable read : Z → bool.

(** The [while current_frame < total_frames] loop. [frame_interval] is the
    value of [int(fps * CAPTURE_INTERVAL)]. The result is the list of
    captures and the final [frame_count]; [None] means the fuel ran out. *)
Fixpoint capture_loop (fuel : nat) (output_dir : string)
    (total_frames frame_interval current_frame frame_count : Z)
  : option (list capture * Z) :=
  if current_frame <? total_frames then
    match fuel with
    | O => None
    | S fuel' =>
        if read current_frame then
          match capture_loop fuel' output_dir total_frames frame_interval
                  (current_frame + frame_interval) (frame_count + 1) with
          | Some (cs, n) =>
              Some (Saved current_frame (frame_path output_dir frame_count) :: cs, n)
          | None => None
          end
        else
          match capture_loop fuel' output_dir total_frames frame_interval
                  (current_frame + frame_interval) frame_count with
          | Some (cs, n) => Some (Unreadable current_frame :: cs, n)
          | None => None
          end
    end
  else Some ([], frame_count).

End Frames.

Definition position (c : capture) : Z :=
  match c with Saved p _ | Unreadable p => p end.

Definition saved_path (c : capture) : option string :=
  match c with Saved _ path => Some path | Unreadable _ => None end.

End ExtractionService.

(** ** Diagnostics of an API error (logging_config.py, lines 62-108) *)

Module LoggingConfig.

(** The hint [log_api_error] adds to the log, by the branch that writes it. *)
Inductive hint : Type :=
  | FileSizeExceeded      (** lines 97-98 *)
  | RateLimitOrQuota      (** lines 99-100 *)
  | UnsupportedFormat     (** lines 101-102 *)
  | AuthenticationFailed  (** lines 103-104 *)
  | TimedOut              (** lines 105-106 *)
  | ConnectionFailed      (** lines 107-108 *).

(** Lines 75-77: the response text as it is logged. *)
Definition truncate_response (response_text : string) : string :=
  if (500 <? String.length response_text)%nat
  then PyStr.take 500 response_text +:+ "... [truncado]"
  else response_text.

(** The chain of lines 96-108 on [error_str = str(error).lower()]. *)
Definition error_hint (error_str : string) : option hint :=
  if PyStr.contains "too large" error_str || PyStr.contains "size limit" error_str
  then Some FileSizeExceeded
  else if PyStr.contains "rate limit" error_str || PyStr.contains "quota" error_str
  then Some RateLimitOrQuota
  else if PyStr.contains "format" error_str
  then Some UnsupportedFormat
  else if PyStr.contains "authentication" error_str || PyStr.contains "auth" error_str
  then Some AuthenticationFailed
  else if PyStr.contains "timeout" error_str
  then Some TimedOut
  else if PyStr.contains "connection" error_str
  then Some ConnectionFailed
  else None.

End LoggingConfig.

(** ** The part of [GeminiService.analyze_video] before the loop
    (gemini_service.py, lines 45-132) *)

Module GeminiService.

(** How the [ffmpeg] subprocess ends. *)
Inductive ffmpeg_result : Type :=
  | Crashed                                       (** [Popen] or [communicate] raised *)
  | Exited (returncode : Z) (output_exists : bool).

Definition MiB : Z := 1024 * 1024.

Definition reduced_path (video_path : string) : string :=
  let '(base_name, ext) := OsPath.splitext video_path in
  base_name +:+ "_reduced" +:+ ext.

Definition ffmpeg_cmd (video_path output_path : string) : list string :=
  [ "ffmpeg"; "-i"; video_path; "-vf"; "scale=640:-1"; "-c:v"; "libx264";
    "-crf"; "28"; "-preset"; "fast"; "-y"; output_path ].

(** What [analyze_video] does before it enters the loop. *)
Inductive prepared : Type :=
  | FileNotFound (video_path : string)   (** [raise FileNotFoundError], line 111 *)
  | Ready (runs : list (list string)) (video_path : string)
      (** the [ffmpeg] commands that were run and the file that is read *).

Section Files.

Variable path_exists : string → bool.
Variable getsize : string → Z.
Variable ffmpeg : list string → ffmpeg_result.

(** [_reduce_video_size(video_path, max_size_mb)]: the commands run, the
    path to use and whether the video was reduced. The size test is made on
    [file_size / (1024 * 1024)], a float; dividing by a power of two is
    exact, so the test is the one below on integers. *)
Definition _reduce_video_size (video_path : string) (max_size_mb : Z)
  : list (list string) * (string * bool) :=
  let file_size := getsize video_path in
  if file_size <=? max_size_mb * MiB then ([], (video_path, false))
  else
    let output_path := reduced_path video_path in
    let cmd := ffmpeg_cmd video_path output_path in
    match ffmpeg cmd with
    | Crashed => ([cmd], (video_path, false))
    | Exited returncode output_exists =>
        if negb (returncode =? 0) then ([cmd], (video_path, false))
        else if negb output_exists then ([cmd], (video_path, false))
        else ([cmd], (output_path, true))
    end.

(** Lines 110-127. *)
Definition prepare_video (video_path : string) : prepared :=
  if negb (path_exists video_path) then FileNotFound video_path
  else
    let file_size := getsize video_path in
    if 15 * MiB <? file_size then
      let '(runs, (video_path', _)) := _reduce_video_size video_path 10 in
      Ready runs video_path'
    else Ready [] video_path.

End Files.

End GeminiService.

(** ** [VideoAnalysisService.analyze_video] (video_analysis_service.py,
    lines 138-250) *)

Module VideoAnalysisService.

Section Service.

(** [self.provider], and what [self.prompt_template.format()] gives. *)
Variable provider : string.
Variable format_prompt : exn + string.
Variable str_validation_error : list string → gmap string json → string.

(** [VideoAnalysis(result=response.content)] *)
Definition construct (content : json) : exn + VideoAnalysis.t :=
  VideoAnalysis.validate {[ "result" := content ]}.

(** The body of the loop; [invoke] is [self.llm.invoke] followed by
    [response.content]. *)
Definition attempt (invoke : Z → reply) (max_retries retry_count : Z)
  : list event * turn :=
  let message :=
    if String.eqb provider "gemini" then format_prompt
    else if String.eqb provider "openai" then format_prompt
    else (* [ValueError]; only its text is read *)
      inl (ApiError ("Proveedor no soportado: " +:+ provider)) in
  match message with
  | inl e => ([], Exit (PrepareError e))
  | inr _ =>
      match invoke retry_count with
      | Raises msg =>
          ([Attempt retry_count],
           handle str_validation_error max_retries retry_count (ApiError msg))
      | Text content =>
          match construct (JStr content) with
          | inr v => ([Attempt retry_count], Exit (Analysis v))
          | inl e =>
              ([Attempt retry_count],
               handle str_validation_error max_retries retry_count e)
          end
      end
  end.

Fixpoint retry_loop (fuel : nat) (invoke : Z → reply)
    (max_retries retry_count : Z) : option (list event * outcome) :=
  if retry_count <=? max_retries then
    match fuel with
    | O => None
    | S fuel' =>
        match attempt invoke max_retries retry_count with
        | (evs, Exit o) => Some (evs, o)
        | (evs, Continue wait_time) =>
            match retry_loop fuel' invoke max_retries (retry_count + 1) with
            | Some (evs', o) => Some (evs ++ Sleep wait_time :: evs', o)
            | None => None
            end
        end
    end
  else Some ([], NotAttempted).

Definition analyze_video (invoke : Z → reply) (max_retries : Z)
  : option (list event * outcome) :=
  retry_loop (Z.to_nat (max_retries + 1)) invoke max_retries 0.

End Service.

End VideoAnalysisService.

(** ** Downloads with yt-dlp (download_service.py) *)

Module DownloadService.

(** The truth value of a [str] in a condition. *)
Definition truthy (s : string) : bool := negb (String.eqb s EmptyString).

Definition browsers : list string :=
  ["chrome"; "firefox"; "safari"; "edge"; "opera"].

Section Settings.

Variables USER_AGENT INSTAGRAM_USERNAME INSTAGRAM_PASSWORD : string.
Variables INSTAGRAM_BROWSER INSTAGRAM_PROFILE INSTAGRAM_COOKIES_FILE : string.

(** [os.path.exists(INSTAGRAM_COOKIES_FILE)] *)
Variable cookies_file_exists : bool.

(** [returncode] and [stderr] of the n-th call of [subprocess.run]. *)
Variable run : nat → list string → Z * string.

Definition with_credentials (cmd : list string) : list string :=
  cmd ++ ["--username"; INSTAGRAM_USERNAME; "--password"; INSTAGRAM_PASSWORD].

(** The three authentication methods, lines 49-80 and 171-202. The [try]
    of the third method only extends a list, which does not raise, so its
    [except] branch is left out. *)
Definition add_auth (url : string) (cmd : list string) : list string :=
  if PyStr.contains "instagram.com" url then
    if cookies_file_exists then cmd ++ ["--cookies"; INSTAGRAM_COOKIES_FILE]
    else if truthy INSTAGRAM_USERNAME && truthy INSTAGRAM_PASSWORD
    then with_credentials cmd
    else if truthy INSTAGRAM_BROWSER
            && bool_decide (PyStr.lower INSTAGRAM_BROWSER ∈ browsers)
    then
      if truthy INSTAGRAM_PROFILE
      then cmd ++ ["--cookies-from-browser";
                   INSTAGRAM_BROWSER +:+ ":" +:+ INSTAGRAM_PROFILE]
      else cmd ++ ["--cookies-from-browser"; INSTAGRAM_BROWSER]
    else cmd
  else cmd.

Definition without_browser_cookies (cmd : list string) : list string :=
  filter (λ item, item ∉ ["--cookies-from-browser";
                          INSTAGRAM_BROWSER +:+ ":" +:+ INSTAGRAM_PROFILE;
                          INSTAGRAM_BROWSER]) cmd.

(** Lines 84-134 and 206-258: the commands run, in order, and [success]. *)
Definition run_with_fallback (url : string) (basic_cmd cmd : list string)
  : list (list string) * bool :=
  let '(returncode, stderr) := run 0 cmd in
  if returncode =? 0 then ([cmd], true)
  else if PyStr.contains "instagram.com" url
          && (PyStr.contains "error has occurred" (PyStr.lower stderr)
              || PyStr.contains "permission denied" (PyStr.lower stderr))
  then
    if PyStr.contains "--cookies-from-browser" (PyText.join " " cmd)
       && truthy INSTAGRAM_USERNAME && truthy INSTAGRAM_PASSWORD
    then
      let alt_cmd := with_credentials (without_browser_cookies cmd) in
      ([cmd; alt_cmd], (run 1 alt_cmd).1 =? 0)
    else ([cmd; basic_cmd], (run 1 basic_cmd).1 =? 0)
  else ([cmd], false).

Definition video_cmd (url output_path : string) : list string :=
  [ "yt-dlp"; url; "-f"; "b"; "--no-check-certificate";
    "--user-agent"; USER_AGENT; "-o"; output_path ].

Definition audio_cmd (url output_path : string) : list string :=
  let base_path := PyText.replace ".mp3" EmptyString output_path in
  [ "yt-dlp"; url; "--extract-audio"; "--audio-format"; "mp3";
    "--audio-quality"; "0"; "--no-check-certificate";
    "--user-agent"; USER_AGENT; "-o"; base_path +:+ ".%(ext)s" ].

(** How a download ends: [os.makedirs] raised before any command was run,
    or the commands were run and [success] is returned. *)
Inductive download : Type :=
  | MakedirsRaised (directory : string)
  | Completed (runs : list (list string)) (success : bool).

(** Whether [os.makedirs(directory, exist_ok=True)] returns, for a
    non-empty [directory]. *)
Variable makedirs : string → bool.

(** Lines 35 and 152: [os.makedirs(os.path.dirname(output_path),
    exist_ok=True)]. On the empty path, the directory of an output path
    without a slash, [os.makedirs] always raises [FileNotFoundError]. *)
Definition ensure_directory (output_path : string) : bool :=
  let directory := OsPath.dirname output_path in
  negb (String.eqb directory EmptyString) && makedirs directory.

Definition download_video (url output_path : string) : download :=
  if ensure_directory output_path then
    let '(runs, success) :=
      run_with_fallback url (video_cmd url output_path)
        (add_auth url (video_cmd url output_path)) in
    Completed runs success
  else MakedirsRaised (OsPath.dirname output_path).

Definition extract_audio (url output_path : string) : download :=
  if ensure_directory output_path then
    let '(runs, success) :=
      run_with_fallback url (audio_cmd url output_path)
        (add_auth url (audio_cmd url output_path)) in
    Completed runs success
  else MakedirsRaised (OsPath.dirname output_path).

End Settings.

End DownloadService.

(** ** The spreadsheet of a run (excel_service.py) *)

Module ExcelService.

(** The two file name filters, lines 104 and 134. *)
Definition is_results_file (f : string) : bool :=
  PyStr.startswith "processing_results_" f && PyText.endswith ".json" f.

Definition is_analysis_file (f : string) : bool :=
  PyText.endswith "_analysis.json" f.

(** Lines 142-145: the index in the name of a link's directory. *)
Definition parse_index (file_dir : string) : Z :=
  if PyStr.contains "_" file_dir then
    match PyText.int_of_str (PyText.last_piece (PyText.split_on "_" file_dir)) with
    | Some index => index
    | None => 0      (* [except ValueError] *)
    end
  else 0.

(** Lines 115-117. *)
Fixpoint enumerate_urls (i : Z) (processing_results : list json)
    (results_data : gmap Z json) : gmap Z json :=
  match processing_results with
  | [] => results_data
  | result :: rest =>
      enumerate_urls (i + 1) rest
        match result with
        | JDict d =>
            match d !! "url" with
            | Some url => <[i + 1 := url]> results_data
            | None => results_data
            end
        | _ => results_data
        end
  end.

(** [results_data] for the decoded results file. Iterating a dict or a
    string yields strings, never a dict; iterating anything else raises
    [TypeError], which line 120 swallows. *)
Definition load_results_data (processing_results : json) : gmap Z json :=
  match processing_results with
  | JList items => enumerate_urls 0 items ∅
  | _ => ∅
  end.

Definition video_label (index : Z) : string :=
  "Video #" +:+ PyText.str_of_int index.

Section Rows.

(** [json.dumps(value, ensure_ascii=False)] *)
Variable json_dumps : json → string.

Definition cell (value : json) : json :=
  match value with
  | JDict _ | JList _ => JStr (json_dumps value)
  | _ => value
  end.

(** Lines 153-170: the row of one analysis file; [None] when the decoded
    file is not an object ([.items()] raises, line 174 skips the row). *)
Definition row_data (results_data : gmap Z json) (file_dir : string)
    (analysis_data : json) : option (gmap string json) :=
  let index := parse_index file_dir in
  match analysis_data with
  | JDict fields =>
      let url :=
        match results_data !! index with
        | Some url => url
        | None => JStr (video_label index)
        end in
      Some (map_fold (λ key value row, <[key := cell value]> row)
              {[ "url_video_original" := url ]} fields)
  | _ => None
  end.

End Rows.

Definition excel_path (date_path date_dir : string) : string :=
  OsPath.join date_path ("analisis_" +:+ date_dir +:+ ".xlsx").

(** [_cleanup_directory]: the paths handed to [shutil.rmtree] or
    [os.remove], and the value returned. [listing] is [os.listdir(date_path)],
    [None] if it raises. A removal that fails is logged and skipped. *)
Definition _cleanup_directory (listing : option (list string))
    (date_path excel_file : string) : list string * bool :=
  match listing with
  | None => ([], false)
  | Some items =>
      let excel_filename := OsPath.basename excel_file in
      (OsPath.join date_path <$> filter (λ item, item ≠ excel_filename) items,
       true)
  end.

End ExcelService.

(** ** The controller (content_controller.py) *)

Module ContentController.

(** What the controller asks of its services and of the file system. *)
Inductive action : Type :=
  | DownloadVideo (url output_path : string)
  | ExtractAudio (url output_path : string)
  | ExtractFrames (video_path output_dir : string)
  | AnalyzeVideo (video_path : string)
  | WriteAnalysis (analysis_path : string) (analysis : VideoAnalysis.t)
  | WriteResults (results_file : string) (serializable_results : json)
  | GenerateExcel (output_dir : string).

Record result : Type := Result {
  url : string;
  video_success : bool;
  audio_success : bool;
  frames_success : bool;
  analysis : option VideoAnalysis.t
}.

(** Line 127: the links of the file, one per line. *)
Definition is_link (line : string) : bool :=
  negb (String.eqb (PyText.strip line) EmptyString)
  && negb (PyStr.startswith "#" (PyText.strip line)).

Definition read_links (lines : list string) : list string :=
  PyText.strip <$> filter (λ line, is_link line = true) lines.

Definition file_name (index : Z) : string :=
  "archivo_" +:+ PyText.str_of_int index.

Definition analysis_name (index : Z) : string :=
  file_name index +:+ "_analysis.json".

Definition results_name (date_str : string) : string :=
  "processing_results_" +:+ date_str +:+ ".json".

(** Lines 142-149. *)
Definition serializable_result (r : result) : json :=
  JDict (<[ "url" := JStr (url r) ]>
        (<[ "video_success" := JBool (video_success r) ]>
        (<[ "audio_success" := JBool (audio_success r) ]>
        (<[ "frames_success" := JBool (frames_success r) ]>
        (<[ "has_analysis" := JBool (bool_decide (is_Some (analysis r))) ]> ∅))))).

Section Services.

(** A service call returns or raises; the controller catches nothing. *)
Variable exception : Type.
Variable download_video : string → string → exception + bool.
Variable extract_audio : string → string → exception + bool.
Variable extract_frames : string → string → exception + bool.
Variable analyze_video : string → exception + option VideoAnalysis.t.

(** A computation that logs its actions and may stop with an exception. *)
Definition M (A : Type) : Type := list action * (exception + A).

Definition ret {A} (x : A) : M A := ([], inr x).

Definition bind {A B} (m : M A) (f : A → M B) : M B :=
  match m with
  | (acts, inl e) => (acts, inl e)
  | (acts, inr x) => let '(acts', r) := f x in (acts ++ acts', r)
  end.

Definition call {A} (a : action) (r : exception + A) : M A := ([a], r).

Definition tell (a : action) : M unit := ([a], inr tt).

Local Notation "x <- m ;; k" := (bind m (λ x, k))
  (at level 100, m at next level, right associativity).
Local Notation "m ;;; k" := (bind m (λ _, k))
  (at level 100, right associativity).

Definition process_link (url output_dir : string) (index : Z) : M result :=
  let content_dir := OsPath.join output_dir (file_name index) in
  let video_path := OsPath.join content_dir (file_name index +:+ "_video.mp4") in
  let audio_path := OsPath.join content_dir (file_name index +:+ "_audio.mp3") in
  let captures_dir := OsPath.join content_dir "capturas_del_video" in
  video_success <- call (DownloadVideo url video_path)
                     (download_video url video_path) ;;
  audio_success <- call (ExtractAudio url audio_path)
                     (extract_audio url audio_path) ;;
  frames_success <-
    (if video_success
     then call (ExtractFrames video_path captures_dir)
            (extract_frames video_path captures_dir)
     else ret false) ;;
  analysis <-
    (if video_success then
       analysis <- call (AnalyzeVideo video_path) (analyze_video video_path) ;;
       match analysis with
       | Some v =>
           tell (WriteAnalysis (OsPath.join content_dir (analysis_name index)) v) ;;;
           ret analysis
       | None => ret analysis
       end
     else ret None) ;;
  ret (Result url video_success audio_success frames_success analysis).

(** The [for i, url in enumerate(links)] loop, from position [i]. *)
Fixpoint process_links (links : list string) (output_dir_with_date : string)
    (i : Z) : M (list result) :=
  match links with
  | [] => ret []
  | url :: rest =>
      r <- process_link url output_dir_with_date (i + 1) ;;
      results <- process_links rest output_dir_with_date (i + 1) ;;
      ret (r :: results)
  end.

(** [process_links_file]; [file] holds the lines of the links file, [None]
    if it does not exist, and [date_str] is the formatted current time.

    The controller creates the base output directory only. The results file
    is opened inside [try] (lines 138-156): when the dated directory does
    not exist [open] raises and the handler logs the error and goes on, so
    nothing is written. A download that returns has created the directory
    of its output path (download_service.py, line 35), so the dated
    directory exists after a batch of at least one link; [dated_dir_exists]
    tells whether it existed before the batch. Where the directory exists
    the write is taken to succeed. *)
Definition process_links_file (file : option (list string))
    (output_dir date_str : string) (dated_dir_exists : bool) : M (list result) :=
  match file with
  | None => ret []
  | Some lines =>
      let output_dir_with_date := OsPath.join output_dir date_str in
      let links := read_links lines in
      results <- process_links links output_dir_with_date 0 ;;
      (if dated_dir_exists || bool_decide (links ≠ [])
       then tell (WriteResults
                    (OsPath.join output_dir_with_date (results_name date_str))
                    (JList (serializable_result <$> results)))
       else ret tt) ;;;
      tell (GenerateExcel output_dir) ;;;
      ret results
  end.

End Services.

End ContentController.

(** ** Vocabulary of the properties of the other services *)

(** Every character of [s] satisfies [p]. *)
Fixpoint all_chars (p : ascii → bool) (s : string) : bool :=
  match s with
  | EmptyString => true
  | String c s' => p c && all_chars p s'
  end.

Definition starts_with_space (s : string) : bool :=
  match s with String c _ => PyStr.isspace c | EmptyString => false end.

Fixpoint ends_with_space (s : string) : bool :=
  match s with
  | EmptyString => false
  | String c EmptyString => PyStr.isspace c
  | String _ s' => ends_with_space s'
  end.

Definition is_sign_or_digit (c : ascii) : bool :=
  Ascii.eqb c "-" || PyText.is_digit c.

(** A line of the links file as the controller keeps it. *)
Definition clean_link (l : string) : Prop :=
  PyText.strip l = l ∧ l ≠ EmptyString ∧ PyStr.startswith "#" l = false.

(** The two actions that close a batch. *)
Definition is_batch_action (a : ContentController.action) : bool :=
  match a with
  | ContentController.WriteResults _ _ | ContentController.GenerateExcel _ => true
  | _ => false
  end.

(** The paths [process_link] builds for the link numbered [index]. *)
Definition video_path (output_dir : string) (index : Z) : string :=
  OsPath.join (OsPath.join output_dir (ContentController.file_name index))
    (ContentController.file_name index +:+ "_video.mp4").

Definition analysis_path (output_dir : string) (index : Z) : string :=
  OsPath.join (OsPath.join output_dir (ContentController.file_name index))
    (ContentController.analysis_name index).

(** The [url] member of an entry of the results file, if the entry is an
    object that has one. *)
Definition url_of (result : json) : option json :=
  match result with JDict d => d !! "url" | _ => None end.

(** [start], [start + step], ... : [n] frame positions. *)
Definition multiples (start step : Z) (n : nat) : list Z :=
  (λ i : nat, start + Z.of_nat i * step) <$> seq 0 n.

(** The image files a run of the capture loop wrote, in order. *)
Definition saved (cs : list ExtractionService.capture) : list string :=
  omap ExtractionService.saved_path cs.

(** [n] consecutive frame files, numbered from [first]. *)
Definition frame_names (output_dir : string) (first : Z) (n : nat) : list string :=
  (λ j : nat, ExtractionService.frame_path output_dir (first + Z.of_nat j)) <$> seq 0 n.

Definition cookies_flag : string := "--cookies-from-browser".

(** The required fields whose declared type is a list or a record. *)
Definition record_fields : list string := ["acciones"; "dialogo"; "musica"].

(** ** Sample inputs for the other services *)

Definition sample_lines : list string :=
  [ "# enlaces de la semana"; "  https://example.com/v/1  "; "   ";
    "https://example.com/v/2" ].

(** A links file that holds comments only. *)
Definition comment_lines : list string :=
  [ "# URLs de videos, una por linea";
    "# Ejemplo: https://www.tiktok.com/@usuario/video/123456789" ].

Definition no_download (url output_path : string) : unit + bool := inr false.

Definition no_frames (video_path output_dir : string) : unit + bool := inr false.

Definition no_analysis (video_path : string) : unit + option VideoAnalysis.t :=
  inr None.

Definition sample_results : list ContentController.result :=
  [ ContentController.Result "https://example.com/v/1" false false false None;
    ContentController.Result "https://example.com/v/2" false false false None ].

Definition sample_listing : list string :=
  [ "archivo_1"; "archivo_2"; "processing_results_2025-01-01_10-00-00.json";
    "analisis_2025-01-01_10-00-00.xlsx" ].

Definition permission_denied (n : nat) (cmd : list string) : Z * string :=
  (1, "ERROR: Permission denied: cookies database").

Definition every_frame (position : Z) : bool := true.

Definition oversized (video_path : string) : Z := 20 * GeminiService.MiB.

Definition transcoded (cmd : list string) : GeminiService.ffmpeg_result :=
  GeminiService.Exited 0 true.

(** * Properties *)

(** ** The string operations on concrete texts *)

Example find_first_brace : PyStr.find "{" "ab{c{d}e}f" = 2.
Proof. reflexivity. Qed.

Example rfind_last_brace : PyStr.rfind "}" "ab{c{d}e}f" = 8.
Proof. reflexivity. Qed.

Example slice_span : PyStr.slice "ab{c{d}e}f" 2 (8 + 1) = "{c{d}e}".
Proof. reflexivity. Qed.

Example find_missing : PyStr.find "{" "abc" = -1 ∧ PyStr.rfind "}" "abc" = -1.
Proof. split; reflexivity. Qed.

Example lower_message :
  PyStr.lower "429 Quota EXCEEDED: Rate Limit" = "429 quota exceeded: rate limit".
Proof. reflexivity. Qed.

Example split_caption :
  PyStr.split "  Entrena  descalzo #barefoot hoy#no #fuerza "
  = ["Entrena"; "descalzo"; "#barefoot"; "hoy#no"; "#fuerza"].
Proof. reflexivity. Qed.

Example caption_hashtags_sample :
  caption_hashtags "Entrena descalzo #barefoot hoy#no #fuerza"
  = ["#barefoot"; "#fuerza"].
Proof. reflexivity. Qed.

Example placeholder_has_no_hashtags : caption_hashtags "No especificado" = [].
Proof. reflexivity. Qed.

(** ** Strings *)

Lemma str_app_nil_l (s : string) : EmptyString +:+ s = s.
Proof. reflexivity. Qed.

Lemma str_app_cons (a : ascii) (s t : string) :
  String a s +:+ t = String a (s +:+ t).
Proof. reflexivity. Qed.

Lemma str_app_nil_r (s : string) : s +:+ EmptyString = s.
Proof. induction s as [|a s IH]; [done|]. by rewrite str_app_cons, IH. Qed.

Lemma str_app_assoc (s t u : string) : (s +:+ t) +:+ u = s +:+ (t +:+ u).
Proof. induction s as [|a s IH]; [done|]. by rewrite !str_app_cons, IH. Qed.

Lemma str_length_app (s t : string) :
  String.length (s +:+ t) = (String.length s + String.length t)%nat.
Proof.
  induction s; rewrite ?str_app_nil_l, ?str_app_cons; cbn [String.length]; lia.
Qed.

Lemma absent_nil (c : ascii) : absent c EmptyString.
Proof. intros i. by destruct i. Qed.

Lemma absent_cons (c a : ascii) (s : string) :
  absent c (String a s) ↔ a ≠ c ∧ absent c s.
Proof.
  split.
  - intros H. split.
    + intros ->. by apply (H O).
    + intros i. apply (H (S i)).
  - intros [Hne H] [|i]; cbn [String.get]; [congruence | apply H].
Qed.

Lemma prefix_single_cons (c a : ascii) (s : string) :
  String.prefix (single c) (String a s) = bool_decide (c = a).
Proof.
  unfold single. cbn [String.prefix]. destruct (ascii_dec c a) as [->|Hne].
  - rewrite bool_decide_eq_true_2 by done. by destruct s.
  - by rewrite bool_decide_eq_false_2.
Qed.

Lemma prefix_single (c : ascii) (s : string) :
  String.prefix (single c) s = true ↔ ∃ rest, s = String c rest.
Proof.
  destruct s as [|a s].
  - split; [discriminate | by intros [? ?]].
  - rewrite prefix_single_cons, bool_decide_eq_true. split.
    + intros ->. eauto.
    + by intros [rest [= ->]].
Qed.

(** [sub in s] holds exactly when [s.find(sub)] is not [-1]. *)
Lemma contains_find (sub s : string) :
  PyStr.contains sub s = (0 <=? PyStr.find sub s).
Proof.
  induction s as [|a s IH]; cbn [PyStr.contains PyStr.find].
  - by destruct (String.prefix sub EmptyString).
  - destruct (String.prefix sub (String a s)); [done|].
    rewrite orb_false_l, IH.
    destruct (Z.ltb_spec (PyStr.find sub s) 0) as [Hlt|Hge].
    + by apply Z.leb_gt.
    + destruct (Z.leb_spec 0 (PyStr.find sub s)); [|lia].
      symmetry. apply Z.leb_le. lia.
Qed.

(** A test by computation that a character does not occur. *)
Lemma absent_by_contains (c : ascii) (s : string) :
  PyStr.contains (single c) s = false → absent c s.
Proof.
  induction s as [|a s IH]; [intros _; apply absent_nil|].
  cbn [PyStr.contains]. rewrite prefix_single_cons.
  intros [Hca Hs]%orb_false_elim. apply absent_cons. split; [|by apply IH].
  apply bool_decide_eq_false in Hca. congruence.
Qed.

(** [find] returns the index of the first occurrence. *)
Lemma find_single_absent (c : ascii) (s : string) :
  absent c s → PyStr.find (single c) s = -1.
Proof.
  induction s as [|a s IH]; [done|].
  intros [Hne Hs]%absent_cons. cbn [PyStr.find].
  rewrite prefix_single_cons, bool_decide_eq_false_2 by congruence.
  by rewrite IH.
Qed.

Lemma find_single_app (c : ascii) (pre rest : string) :
  absent c pre →
  PyStr.find (single c) (pre +:+ String c rest) = Z.of_nat (String.length pre).
Proof.
  induction pre as [|a pre IH]; intros Hpre;
    rewrite ?str_app_nil_l, ?str_app_cons; cbn [PyStr.find String.length].
  - by rewrite prefix_single_cons, bool_decide_eq_true_2.
  - apply absent_cons in Hpre as [Hne Hpre].
    rewrite prefix_single_cons, bool_decide_eq_false_2 by congruence.
    rewrite IH by done.
    destruct (Z.ltb_spec (Z.of_nat (String.length pre)) 0); lia.
Qed.

(** [rfind] returns the index of the last occurrence. *)
Lemma rfind_single_range (c : ascii) (s : string) :
  -1 <= PyStr.rfind (single c) s < Z.of_nat (String.length s).
Proof.
  induction s as [|a s IH]; cbn [PyStr.rfind String.length].
  - unfold single. cbn. lia.
  - destruct (Z.leb_spec 0 (PyStr.rfind (single c) s)); [lia|].
    rewrite prefix_single_cons. case_bool_decide; lia.
Qed.

Lemma rfind_single_absent (c : ascii) (s : string) :
  absent c s → PyStr.rfind (single c) s = -1.
Proof.
  induction s as [|a s IH]; [done|].
  intros [Hne Hs]%absent_cons. cbn [PyStr.rfind].
  rewrite IH by done. cbn [Z.leb Z.compare].
  by rewrite prefix_single_cons, bool_decide_eq_false_2 by congruence.
Qed.

Lemma rfind_single_app_absent (c : ascii) (s t : string) :
  absent c t → PyStr.rfind (single c) (s +:+ t) = PyStr.rfind (single c) s.
Proof.
  intros Ht. induction s as [|a s IH]; rewrite ?str_app_nil_l, ?str_app_cons.
  - by rewrite rfind_single_absent.
  - cbn [PyStr.rfind]. by rewrite IH, !prefix_single_cons.
Qed.

Lemma rfind_single_app (c : ascii) (s post : string) :
  absent c post →
  PyStr.rfind (single c) (s +:+ String c post) = Z.of_nat (String.length s).
Proof.
  intros Hpost. induction s as [|a s IH];
    rewrite ?str_app_nil_l, ?str_app_cons; cbn [PyStr.rfind String.length].
  - rewrite rfind_single_absent by done. cbn [Z.leb Z.compare].
    by rewrite prefix_single_cons, bool_decide_eq_true_2.
  - rewrite IH. destruct (Z.leb_spec 0 (Z.of_nat (String.length s))); lia.
Qed.

Lemma substring_app_mid (pre mid post : string) :
  String.substring (String.length pre) (String.length mid) (pre +:+ mid +:+ post)
  = mid.
Proof.
  induction pre as [|a pre IH];
    rewrite ?str_app_nil_l, ?str_app_cons; cbn [String.length String.substring].
  - induction mid as [|b mid IHm];
      rewrite ?str_app_nil_l, ?str_app_cons; cbn [String.length String.substring].
    + by destruct post.
    + by rewrite IHm.
  - apply IH.
Qed.

Lemma slice_app (pre mid post : string) :
  PyStr.slice (pre +:+ mid +:+ post)
    (Z.of_nat (String.length pre))
    (Z.of_nat (String.length pre) + Z.of_nat (String.length mid)) = mid.
Proof.
  unfold PyStr.slice.
  replace (Z.to_nat (_ + _ - _)) with (String.length mid) by lia.
  rewrite Nat2Z.id. apply substring_app_mid.
Qed.

(** [s[:n]] has at most [n] characters and is a prefix of [s]. *)
Lemma take_bounded (n : nat) (s : string) :
  (String.length (PyStr.take n s) <= n)%nat
  ∧ ∃ rest, s = PyStr.take n s +:+ rest.
Proof.
  unfold PyStr.take. revert s. induction n as [|n IH]; intros s.
  - destruct s; cbn; split; eauto; lia.
  - destruct s as [|a s]; cbn [String.substring String.length].
    + split; [lia|]. by exists EmptyString.
    + destruct (IH s) as [Hl [rest Hr]]. split; [lia|].
      exists rest. by rewrite str_app_cons, <- Hr.
Qed.

(** [split] drops separators and cuts at them: the three equations below
    determine it on every string. *)
Lemma split_nil : PyStr.split EmptyString = [].
Proof. reflexivity. Qed.

Lemma split_space (c : ascii) (s : string) :
  PyStr.isspace c = true → PyStr.split (String c s) = PyStr.split s.
Proof. intros H. unfold PyStr.split. cbn [PyStr.split_go]. by rewrite H. Qed.

Lemma split_go_word (acc w s : string) :
  spaceless w = true → at_boundary s = true →
  PyStr.split_go (Some acc) (w +:+ s) = (acc +:+ w) :: PyStr.split s.
Proof.
  revert acc. induction w as [|a w IH]; intros acc Hw Hs.
  - rewrite str_app_nil_l, str_app_nil_r. destruct s as [|c s]; [done|].
    cbn [at_boundary] in Hs. unfold PyStr.split. cbn [PyStr.split_go].
    by rewrite Hs.
  - cbn [spaceless] in Hw. apply andb_prop in Hw as [Ha%negb_true_iff Hw].
    rewrite str_app_cons. cbn [PyStr.split_go]. rewrite Ha. cbn [PyStr.push].
    rewrite IH by done. by rewrite str_app_assoc, str_app_cons, str_app_nil_l.
Qed.

Lemma split_word (w s : string) :
  w ≠ EmptyString → spaceless w = true → at_boundary s = true →
  PyStr.split (w +:+ s) = w :: PyStr.split s.
Proof.
  intros Hne Hw Hs. destruct w as [|a w]; [done|].
  cbn [spaceless] in Hw. apply andb_prop in Hw as [Ha%negb_true_iff Hw].
  unfold PyStr.split at 1. rewrite str_app_cons. cbn [PyStr.split_go].
  rewrite Ha. cbn [PyStr.push]. by rewrite split_go_word.
Qed.

(** ** Response repair *)

Lemma has_key_true (d : gmap string json) (k : string) :
  has_key d k = true ↔ is_Some (d !! k).
Proof. unfold has_key. destruct (d !! k); split; intros H; try done; eauto. Qed.

Lemma has_key_false (d : gmap string json) (k : string) :
  has_key d k = false ↔ d !! k = None.
Proof. unfold has_key. destruct (d !! k); split; intros H; done. Qed.

(** *** Field aliasing *)

Lemma rename_field_lookup (d : gmap string json) (old new k : string) :
  old ≠ new →
  rename_field d (old, new) !! k =
    match d !! old, d !! new with
    | Some v, None => if decide (k = new) then Some v
                      else if decide (k = old) then None else d !! k
    | _, _ => d !! k
    end.
Proof.
  intros Hne. unfold rename_field, has_key.
  destruct (d !! old) as [v|] eqn:Ho; [|done].
  destruct (d !! new) as [w|] eqn:Hn; [done|].
  repeat case_decide; simplify_map_eq; done.
Qed.

Lemma rename_field_pair (d : gmap string json) (old new : string) :
  old ≠ new →
  (∀ v, d !! old = Some v → d !! new = None →
     rename_field d (old, new) !! new = Some v
     ∧ rename_field d (old, new) !! old = None)
  ∧ (is_Some (d !! new) → rename_field d (old, new) = d)
  ∧ (d !! old = None → rename_field d (old, new) = d).
Proof.
  intros Hne. unfold rename_field, has_key. split; [|split].
  - intros v -> ->. rewrite lookup_insert_eq, lookup_insert_ne, lookup_delete_eq; done.
  - intros [w ->]. by destruct (d !! old).
  - by intros ->.
Qed.

Lemma rename_field_other (d : gmap string json) (old new k : string) :
  k ≠ old → k ≠ new → rename_field d (old, new) !! k = d !! k.
Proof.
  intros Ho Hn. unfold rename_field, has_key.
  destruct (d !! old); [|done]. destruct (d !! new); [done|].
  by rewrite lookup_insert_ne, lookup_delete_ne.
Qed.

Lemma rename_field_agree (d d' : gmap string json) (old new k : string) :
  old ≠ new →
  d' !! old = d !! old → d' !! new = d !! new → d' !! k = d !! k →
  rename_field d' (old, new) !! k = rename_field d (old, new) !! k.
Proof.
  intros Hne Ho Hn Hk. rewrite !rename_field_lookup by done.
  by rewrite Ho, Hn, Hk.
Qed.

(** The entries of the table do not interfere: at the two keys of an entry
    the whole loop acts like the single turn for that entry. *)
Lemma apply_field_mapping_entry (d : gmap string json) (old new k : string) :
  (old, new) ∈ field_mapping → k = old ∨ k = new →
  apply_field_mapping d !! k = rename_field d (old, new) !! k.
Proof.
  unfold apply_field_mapping, field_mapping. cbn [foldl].
  rewrite !elem_of_cons, elem_of_nil.
  intros [E|[E|[E|[]]]] [->| ->]; injection E as -> ->.
  all: rewrite ?(rename_field_other _ "caption" "caption_video") by done.
  all: rewrite ?(rename_field_other _ "gancho_inicial" "gancho_video") by done.
  all: try reflexivity.
  all: apply rename_field_agree; [done|..].
  all: rewrite ?(rename_field_other _ "gancho_inicial" "gancho_video") by done.
  all: by rewrite ?(rename_field_other _ "titulo" "titulo_portada") by done.
Qed.

Lemma apply_field_mapping_other (d : gmap string json) (k : string) :
  k ∉ field_mapping.*1 ++ field_mapping.*2 →
  apply_field_mapping d !! k = d !! k.
Proof.
  unfold apply_field_mapping, field_mapping. cbn [foldl fmap list_fmap app fst snd].
  rewrite !not_elem_of_cons. intros (?&?&?&?&?&?&_).
  by rewrite !rename_field_other.
Qed.

Lemma field_mapping_keys (old new : string) :
  (old, new) ∈ field_mapping →
  (old ∉ required_fields) ∧ old ≠ "hashtags" ∧ new ≠ "hashtags" ∧ old ≠ new.
Proof.
  unfold field_mapping, required_fields. intros Hin.
  rewrite !elem_of_cons, elem_of_nil in Hin.
  destruct Hin as [E|[E|[E|[]]]]; injection E as -> ->;
    rewrite !not_elem_of_cons; repeat split; done || apply not_elem_of_nil.
Qed.

Lemma apply_field_mapping_hashtags (d : gmap string json) :
  apply_field_mapping d !! "hashtags" = d !! "hashtags".
Proof.
  apply apply_field_mapping_other. unfold field_mapping.
  cbn [fmap list_fmap app fst snd]. rewrite !not_elem_of_cons.
  repeat split; done || apply not_elem_of_nil.
Qed.

(** When every canonical name is already there, the table changes nothing. *)
Lemma apply_field_mapping_id (d : gmap string json) :
  (∀ old new, (old, new) ∈ field_mapping → is_Some (d !! new)) →
  apply_field_mapping d = d.
Proof.
  intros H. unfold apply_field_mapping, field_mapping. cbn [foldl].
  assert (∀ old new, (old, new) ∈ field_mapping → rename_field d (old, new) = d)
    as Hid.
  { intros old new Hin.
    destruct (rename_field_pair d old new) as (_ & Hkeep & _).
    - by apply field_mapping_keys.
    - apply Hkeep. by eapply H. }
  unfold field_mapping in Hid.
  rewrite !Hid; [done|..]; rewrite !elem_of_cons; auto.
Qed.

(** *** The required-field sweep *)

Lemma foldl_fill_lookup (l : list string) (d : gmap string json) (k : string) :
  foldl fill_field d l !! k =
    if decide (k ∈ l) then Some (fill_value k) else d !! k.
Proof.
  revert d. induction l as [|f l IH]; intros d; cbn [foldl].
  - rewrite decide_False; [done | apply not_elem_of_nil].
  - rewrite IH. destruct (decide (k ∈ l)) as [Hin|Hnin].
    + rewrite decide_True; [done | by right].
    + destruct (decide (k = f)) as [->|Hkf].
      * rewrite decide_True; [|by left].
        unfold fill_field, fill_value.
        destruct (String.eqb f "hashtags"); by rewrite lookup_insert_eq.
      * rewrite decide_False.
        -- unfold fill_field.
           destruct (String.eqb f "hashtags"); by rewrite lookup_insert_ne.
        -- intros [?|?]%elem_of_cons; done.
Qed.

Lemma elem_of_missing_fields (d : gmap string json) (k : string) :
  k ∈ missing_fields d ↔ k ∈ required_fields ∧ d !! k = None.
Proof.
  unfold missing_fields. rewrite !list_elem_of_In, filter_In.
  by rewrite negb_true_iff, has_key_false.
Qed.

Lemma hashtags_not_required : "hashtags" ∉ required_fields.
Proof.
  unfold required_fields. rewrite !not_elem_of_cons.
  repeat split; done || apply not_elem_of_nil.
Qed.

Lemma fill_missing_fields_lookup (d : gmap string json) (k : string) :
  fill_missing_fields d !! k =
    match d !! k with
    | Some v => Some v
    | None => if decide (k ∈ required_fields) then Some placeholder else None
    end.
Proof.
  unfold fill_missing_fields. rewrite foldl_fill_lookup.
  destruct (d !! k) as [v|] eqn:Hk.
  - rewrite decide_False; [done|]. rewrite elem_of_missing_fields.
    intros [_ ?]. congruence.
  - destruct (decide (k ∈ required_fields)) as [Hr|Hr].
    + rewrite decide_True; [|by apply elem_of_missing_fields].
      unfold fill_value. destruct (String.eqb_spec k "hashtags") as [->|]; [|done].
      by destruct hashtags_not_required.
    + rewrite decide_False; [done|]. rewrite elem_of_missing_fields.
      by intros [? _].
Qed.

Lemma fill_missing_fields_hashtags (d : gmap string json) :
  fill_missing_fields d !! "hashtags" = d !! "hashtags".
Proof.
  rewrite fill_missing_fields_lookup. destruct (d !! "hashtags"); [done|].
  rewrite decide_False; [done | apply hashtags_not_required].
Qed.

Lemma fill_missing_fields_id (d : gmap string json) :
  (∀ f, f ∈ required_fields → is_Some (d !! f)) → fill_missing_fields d = d.
Proof.
  intros H. apply map_eq. intros k. rewrite fill_missing_fields_lookup.
  destruct (d !! k) eqn:Hk; [done|].
  case_decide as Hr; [|done]. destruct (H k Hr) as [v Hv]. congruence.
Qed.

(** *** Hashtag inference *)

Lemma ensure_hashtags_inr (s d' : gmap string json) :
  ensure_hashtags s = inr d' →
  (∀ k, k ≠ "hashtags" → d' !! k = s !! k)
  ∧ is_Some (d' !! "hashtags")
  ∧ (∀ v, s !! "hashtags" = Some v → d' = s).
Proof.
  unfold ensure_hashtags, has_key. intros H.
  destruct (s !! "hashtags") as [h|] eqn:Hh.
  { injection H as <-. rewrite Hh. eauto. }
  assert (∃ v, d' = <["hashtags" := v]> s) as [v ->].
  { destruct (s !! "caption_video") as [[]|]; try discriminate;
      [destruct (caption_hashtags _)|]; injection H as <-; eauto. }
  split; [|split].
  - intros k Hk. by rewrite lookup_insert_ne.
  - rewrite lookup_insert_eq. eauto.
  - done.
Qed.

(** The repair raises exactly when there is no [hashtags] key and the
    caption, after aliasing, is not a string. *)
Lemma repair_raises_iff (d : gmap string json) (e : exn) :
  repair d = inl e ↔
  d !! "hashtags" = None
  ∧ ∃ v, apply_field_mapping d !! "caption_video" = Some v
         ∧ is_str v = false ∧ e = no_attribute v "split".
Proof.
  unfold repair, ensure_hashtags, has_key.
  rewrite fill_missing_fields_hashtags, apply_field_mapping_hashtags.
  rewrite (fill_missing_fields_lookup _ "caption_video").
  destruct (d !! "hashtags") as [h|].
  { split; [done | by intros [? _]]. }
  destruct (apply_field_mapping d !! "caption_video") as [v|].
  - destruct v; cbn [is_str].
    all: try (split; [intros [= <-]; eauto | by intros (_ & v & [= <-] & _ & ->)]).
    split; [by destruct (caption_hashtags s) | by intros (_ & v & [= <-] & ? & _)].
  - rewrite decide_True.
    + split; [done | by intros (_ & v & ? & _)].
    + unfold required_fields. rewrite !elem_of_cons. auto 10.
Qed.

(** *** The claims about repair *)

(** C5. For each entry [(old, new)] of the rename table: when [old] is
    present and [new] is absent the value moves to [new] and [old] is
    removed; when [new] is present its value is kept and [old] is left
    alone; when [old] is absent nothing changes. The same holds for the
    object that the whole repair returns. *)
Theorem field_aliasing_renames (d : gmap string json) (old new : string) :
  (old, new) ∈ field_mapping →
  let a := apply_field_mapping d in
  (∀ v, d !! old = Some v → d !! new = None → a !! new = Some v ∧ a !! old = None)
  ∧ (∀ w, d !! new = Some w → a !! new = Some w ∧ a !! old = d !! old)
  ∧ (d !! old = None → a !! new = d !! new ∧ a !! old = None)
  ∧ (∀ d', repair d = inr d' →
       (∀ v, d !! old = Some v → d !! new = None →
             d' !! new = Some v ∧ d' !! old = None)
       ∧ (∀ w, d !! new = Some w → d' !! new = Some w)).
Proof.
  intros Hin a.
  destruct (field_mapping_keys _ _ Hin) as (Hreq & Hoh & Hnh & Hne).
  pose proof (apply_field_mapping_entry d old new old Hin (or_introl eq_refl)) as Eo.
  pose proof (apply_field_mapping_entry d old new new Hin (or_intror eq_refl)) as En.
  fold a in Eo, En.
  destruct (rename_field_pair d old new Hne) as (Hmove & Hkeep & Hnone).
  assert (A1 : ∀ v, d !! old = Some v → d !! new = None →
                    a !! new = Some v ∧ a !! old = None).
  { intros v Ho Hn. rewrite Eo, En. by apply Hmove. }
  assert (A2 : ∀ w, d !! new = Some w → a !! new = Some w ∧ a !! old = d !! old).
  { intros w Hn. rewrite Eo, En, Hkeep by eauto. done. }
  assert (A3 : d !! old = None → a !! new = d !! new ∧ a !! old = None).
  { intros Ho. by rewrite Eo, En, Hnone. }
  refine (conj A1 (conj A2 (conj A3 _))).
  intros d' (Hsame & _ & _)%ensure_hashtags_inr. split.
  - intros v Ho Hn. destruct (A1 v Ho Hn) as [Hnew Hold].
    rewrite !Hsame, !fill_missing_fields_lookup by done.
    fold a. rewrite Hnew, Hold. by rewrite decide_False.
  - intros w Hn. destruct (A2 w Hn) as [Hnew _].
    rewrite Hsame, fill_missing_fields_lookup by done.
    fold a. by rewrite Hnew.
Qed.

Lemma field_aliasing_renames_witness :
  apply_field_mapping sample_aliased !! "titulo_portada" = Some (JStr "Pies fuertes")
  ∧ apply_field_mapping sample_aliased !! "titulo" = None.
Proof.
  destruct (field_aliasing_renames sample_aliased "titulo" "titulo_portada")
    as (Hmove & _).
  - apply list_elem_of_here.
  - apply Hmove; reflexivity.
Defined.

(** C10. [hashtags] is not among the required fields, so no field of the
    sweep takes the hashtag branch: every field the sweep fills receives the
    string placeholder and the sweep leaves [hashtags] as it found it. In the
    repaired object [hashtags] is the input's value, or else the value the
    inference step computes (the default set or the caption's tokens). *)
Theorem sweep_never_assigns_hashtags (d : gmap string json) :
  ("hashtags" ∉ required_fields)
  ∧ (∀ field, field ∈ missing_fields d →
       String.eqb field "hashtags" = false
       ∧ fill_missing_fields d !! field = Some placeholder)
  ∧ (∀ k, d !! k = None → is_Some (fill_missing_fields d !! k) →
       fill_missing_fields d !! k = Some placeholder)
  ∧ fill_missing_fields d !! "hashtags" = d !! "hashtags"
  ∧ apply_field_mapping d !! "hashtags" = d !! "hashtags"
  ∧ (∀ d', repair d = inr d' →
       (∀ v, d !! "hashtags" = Some v → d' !! "hashtags" = Some v)
       ∧ (d !! "hashtags" = None →
          ensure_hashtags (fill_missing_fields (apply_field_mapping d)) = inr d'
          ∧ (d' !! "hashtags" = Some default_hashtags
             ∨ ∃ caption,
                 d' !! "caption_video" = Some (JStr caption)
                 ∧ d' !! "hashtags"
                   = Some (JList (JStr <$> caption_hashtags caption))))).
Proof.
  split; [apply hashtags_not_required|].
  split.
  { intros field [Hreq Hnone]%elem_of_missing_fields. split.
    - destruct (String.eqb_spec field "hashtags") as [->|]; [|done].
      by destruct hashtags_not_required.
    - by rewrite fill_missing_fields_lookup, Hnone, decide_True. }
  split.
  { intros k Hnone. rewrite fill_missing_fields_lookup, Hnone.
    case_decide; [done|]. by intros [? ?]. }
  split; [apply fill_missing_fields_hashtags|].
  split; [apply apply_field_mapping_hashtags|].
  intros d' Hrep. unfold repair in Hrep.
  set (s := fill_missing_fields (apply_field_mapping d)) in *.
  assert (Hs : s !! "hashtags" = d !! "hashtags").
  { unfold s. by rewrite fill_missing_fields_hashtags, apply_field_mapping_hashtags. }
  split.
  - intros v Hv. apply ensure_hashtags_inr in Hrep as (_ & _ & Hid).
    rewrite (Hid v) by congruence. congruence.
  - intros Hnone. split; [done|].
    unfold ensure_hashtags, has_key in Hrep. rewrite Hs, Hnone in Hrep.
    destruct (s !! "caption_video") as [[| | | |caption| |]|] eqn:Hc;
      try discriminate.
    + destruct (caption_hashtags caption) as [|w ws] eqn:Hw; injection Hrep as <-.
      * left. by rewrite lookup_insert_eq.
      * right. exists caption. rewrite lookup_insert_eq, lookup_insert_ne, Hw; done.
    + injection Hrep as <-. left. by rewrite lookup_insert_eq.
Qed.

Lemma sweep_never_assigns_hashtags_witness :
  fill_missing_fields empty_title !! "hashtags" = None
  ∧ fill_missing_fields empty_title !! "idea_video" = Some placeholder.
Proof.
  destruct (sweep_never_assigns_hashtags empty_title) as (_ & Hfill & _ & Hh & _).
  split.
  - rewrite Hh. reflexivity.
  - apply Hfill. apply elem_of_missing_fields. split; [|reflexivity].
    unfold required_fields.
    repeat first [apply list_elem_of_here | apply list_elem_of_further].
Defined.

(** C4, as stated, fails: a required field that arrives empty stays empty,
    so the fields are not all non-empty after repair. *)
Lemma required_fields_nonempty_fails :
  ¬ (∀ d d' : gmap string json, repair d = inr d' →
       ∀ f, f ∈ required_fields →
         ∃ v, d' !! f = Some v ∧ is_empty_value v = false).
Proof.
  intros H.
  destruct (repair empty_title) as [e|d'] eqn:E.
  { apply repair_raises_iff in E as (_ & v & Hv & _). discriminate Hv. }
  destruct (H _ _ E "titulo_portada") as (v & Hv & Hne).
  { unfold required_fields. rewrite !elem_of_cons. auto. }
  apply ensure_hashtags_inr in E as (Hsame & _ & _).
  rewrite Hsame, fill_missing_fields_lookup in Hv by done.
  injection Hv as <-. discriminate Hne.
Qed.

(** C4, amended. After the sweep every required field is present: it holds
    the value it had after aliasing, or the (non-empty) placeholder string
    when it was absent, whatever its declared type. When the repair returns,
    the returned object has the same required fields and a [hashtags] key,
    and every key present after aliasing keeps its value. *)
Theorem required_fields_present_after_repair (d : gmap string json) :
  let a := apply_field_mapping d in
  let s := fill_missing_fields a in
  (∀ f, f ∈ required_fields → s !! f = Some (default placeholder (a !! f)))
  ∧ (∀ f v, a !! f = Some v → s !! f = Some v)
  ∧ is_empty_value placeholder = false
  ∧ (∀ d', repair d = inr d' →
       (∀ f, f ∈ required_fields → d' !! f = s !! f)
       ∧ (∀ f v, f ≠ "hashtags" → a !! f = Some v → d' !! f = Some v)
       ∧ is_Some (d' !! "hashtags")).
Proof.
  intros a s. split; [|split; [|split; [done|]]].
  - intros f Hf. unfold s. rewrite fill_missing_fields_lookup.
    destruct (a !! f); [done|]. by rewrite decide_True.
  - intros f v Hv. unfold s. by rewrite fill_missing_fields_lookup, Hv.
  - intros d' (Hsame & Hh & _)%ensure_hashtags_inr. fold a s in Hsame.
    split; [|split; [|done]].
    + intros f Hf. apply Hsame. intros ->. by apply hashtags_not_required.
    + intros f v Hne Hv. rewrite Hsame by done. unfold s.
      by rewrite fill_missing_fields_lookup, Hv.
Qed.

Lemma required_fields_present_after_repair_witness :
  let d' := <["hashtags" := default_hashtags]>
              (fill_missing_fields (apply_field_mapping empty_title)) in
  repair empty_title = inr d'
  ∧ d' !! "titulo_portada" = Some (JStr "")
  ∧ d' !! "idea_video" = Some placeholder.
Proof.
  intros d'.
  assert (E : repair empty_title = inr d') by reflexivity.
  destruct (required_fields_present_after_repair empty_title)
    as (Hfill & _ & _ & Hrep).
  destruct (Hrep d' E) as (Hreq & Hkeep & _).
  split; [exact E|]. split.
  - apply Hkeep; [discriminate | reflexivity].
  - rewrite Hreq, Hfill; [reflexivity|..]; unfold required_fields;
      repeat first [apply list_elem_of_here | apply list_elem_of_further].
Defined.

(** The inference on a caption that is a string: when [hashtags] is missing
    after the sweep, repair sets it to the caption's tokens that begin with
    [#] if there is one, and to the default set if there is none; when the
    caption is absent after aliasing it is the default set. The tokens are
    those of [split] that start with the character [#]. *)
Theorem hashtags_inferred_from_caption (d : gmap string json) :
  let s := fill_missing_fields (apply_field_mapping d) in
  s !! "hashtags" = None →
  (∀ caption, s !! "caption_video" = Some (JStr caption) →
     (caption_hashtags caption ≠ [] →
        repair d
        = inr (<["hashtags" := JList (JStr <$> caption_hashtags caption)]> s))
     ∧ (caption_hashtags caption = [] →
        repair d = inr (<["hashtags" := default_hashtags]> s)))
  ∧ (apply_field_mapping d !! "caption_video" = None →
       repair d = inr (<["hashtags" := default_hashtags]> s))
  ∧ (∀ caption w, w ∈ caption_hashtags caption ↔
       w ∈ PyStr.split caption ∧ ∃ rest, w = String "#" rest).
Proof.
  intros s Hh. unfold repair. fold s. unfold ensure_hashtags, has_key. rewrite Hh.
  split; [|split].
  - intros caption ->. split.
    + intros Hne. by destruct (caption_hashtags caption).
    + by intros ->.
  - intros Hc.
    assert (s !! "caption_video" = Some placeholder) as ->.
    { unfold s. rewrite fill_missing_fields_lookup, Hc. done. }
    done.
  - intros caption w. unfold caption_hashtags.
    rewrite !list_elem_of_In, filter_In. unfold PyStr.startswith.
    split; intros [Hin Hp]; (split; [done|]); by apply (prefix_single "#").
Qed.

Lemma hashtags_inferred_from_caption_witness :
  repair sample_required
  = inr (<["hashtags" := JList [JStr "#barefoot"; JStr "#fuerza"]]>
           (fill_missing_fields (apply_field_mapping sample_required))).
Proof.
  destruct (hashtags_inferred_from_caption sample_required) as (Hcaption & _).
  - reflexivity.
  - destruct (Hcaption "Entrena descalzo #barefoot hoy #fuerza") as (Hsome & _).
    + reflexivity.
    + apply Hsome. discriminate.
Defined.

(** C6 fails on the code: the inference handles a caption that is a string
    (see above) and an absent caption, but misses the caption that is
    present and not a string. With [hashtags] missing after the sweep and
    such a caption, line 232 calls [split] on it: repair raises
    [AttributeError] and returns no object, so [hashtags] is set neither to
    the caption's tokens nor to the default set. *)
Theorem hashtags_not_inferred_from_non_string_caption (d : gmap string json)
    (caption : json) :
  let s := fill_missing_fields (apply_field_mapping d) in
  s !! "hashtags" = None →
  s !! "caption_video" = Some caption →
  is_str caption = false →
  repair d = inl (no_attribute caption "split")
  ∧ repair d ≠ inr (<["hashtags" := default_hashtags]> s).
Proof.
  intros s Hh Hc Hs.
  assert (E : repair d = inl (no_attribute caption "split")).
  { unfold repair. fold s. unfold ensure_hashtags, has_key. rewrite Hh, Hc.
    by destruct caption. }
  split; [exact E|]. rewrite E. discriminate.
Qed.

Lemma hashtags_not_inferred_from_non_string_caption_witness :
  repair caption_null
  = inl (AttributeError "'NoneType' object has no attribute 'split'")
  ∧ repair caption_null
    ≠ inr (<["hashtags" := default_hashtags]>
             (fill_missing_fields (apply_field_mapping caption_null))).
Proof.
  apply (hashtags_not_inferred_from_non_string_caption caption_null JNull);
    reflexivity.
Defined.

(** C8 fails on the code: with no [hashtags] key and a caption that is a
    number, [caption.split()] raises [AttributeError] inside the repair; the
    handler of line 252 finds neither a quota nor a size message in it and
    [analyze_video] returns [None] after one attempt. *)
Theorem non_string_caption_raises :
  repair caption_number
  = inl (AttributeError "'int' object has no attribute 'split'")
  ∧ sample_loads caption_number_text = Some (JDict caption_number)
  ∧ ∀ video_base64,
      analyze_video sample_loads sample_str_error video_base64
        (λ _, Text caption_number_text) 3
      = Some ([Attempt 0],
              Unrecoverable (AttributeError "'int' object has no attribute 'split'")).
Proof.
  split; [reflexivity|]. split; [reflexivity|].
  intros video_base64. reflexivity.
Qed.

(** ** Schema validation *)

Section Validation.
Import Pydantic.

Lemma validate_tuple2_Some (e : json) (p : string * string) :
  validate_tuple2 e = Some p ↔ e = dump_tuple2 p.
Proof.
  destruct p as [a b]. unfold dump_tuple2. cbn [fst snd]. split.
  - destruct e as [| | | | |[|x [|y [|z l]]]|]; try discriminate.
    cbn. destruct x, y; try discriminate. by intros [= -> ->].
  - by intros ->.
Qed.

Lemma validate_tuple2_is_Some (e : json) :
  is_Some (validate_tuple2 e) ↔ ∃ a b, e = JList [JStr a; JStr b].
Proof.
  split.
  - intros [[a b] H%validate_tuple2_Some]. eauto.
  - intros (a & b & ->). by exists (a, b).
Qed.

Lemma mapM_validate_tuple2 (entries : list json) (lines : list (string * string)) :
  mapM validate_tuple2 entries = Some lines ↔ entries = dump_tuple2 <$> lines.
Proof.
  rewrite mapM_Some. split.
  - induction 1 as [|e p es ps H%validate_tuple2_Some _ IH]; [done|].
    cbn [fmap list_fmap]. by rewrite H, IH.
  - intros ->. induction lines as [|p ps IH]; constructor; [|done].
    by apply validate_tuple2_Some.
Qed.

Lemma mapM_validate_str (l : list json) (ss : list string) :
  mapM validate_str l = Some ss ↔ l = JStr <$> ss.
Proof.
  rewrite mapM_Some. split.
  - induction 1 as [|e s es ss' H _ IH]; [done|].
    destruct e; try discriminate. injection H as ->. cbn [fmap list_fmap]. by rewrite IH.
  - intros ->. induction ss as [|p ps IH]; constructor; done.
Qed.

Lemma validate_rejects_dialogo (d : gmap string json) :
  required DialogInfo.validate d "dialogo" = None →
  ∃ fields, VideoAnalysis.validate d = inl (ValidationError fields d) ∧ "dialogo" ∈ fields.
Proof.
  intros H. unfold VideoAnalysis.validate. rewrite H.
  match goal with
  | |- ∃ fields, match ?model with _ => _ end = _ ∧ _ =>
      assert (model = None) as ->
  end.
  { destruct (required validate_str d "descripcion_original"),
      (required validate_str d "titulo_portada"),
      (required validate_str d "idea_video"),
      (required validate_str d "gancho_video"),
      (required (validate_list validate_str) d "acciones"); reflexivity. }
  eexists. split; [reflexivity|].
  do 5 (apply elem_of_app; right). apply elem_of_app. left. apply list_elem_of_here.
Qed.

Lemma validate_dialogo_entries (entries : list json) :
  DialogInfo.validate_dialogo (JList entries)
  = Some <$> mapM validate_tuple2 entries.
Proof. reflexivity. Qed.

(** C9. In a [dialogo] record whose [dialogo] member is a list, an entry
    that is not a list of exactly two strings, and in particular a list of
    three elements, makes the constructor fail with a validation error that
    names the [dialogo] field; a list whose entries are all two-string lists
    is accepted and read as the list of those pairs. *)
Theorem dialogue_entries_must_be_pairs
    (d dd : gmap string json) (entries : list json) :
  d !! "dialogo" = Some (JDict dd) →
  dd !! "dialogo" = Some (JList entries) →
  ((∃ e, e ∈ entries ∧ ¬ ∃ a b, e = JList [JStr a; JStr b]) →
     ∃ fields, VideoAnalysis.validate d = inl (ValidationError fields d)
               ∧ "dialogo" ∈ fields)
  ∧ (∀ x y z, JList [x; y; z] ∈ entries →
     ∃ fields, VideoAnalysis.validate d = inl (ValidationError fields d)
               ∧ "dialogo" ∈ fields)
  ∧ ((∀ e, e ∈ entries → ∃ a b, e = JList [JStr a; JStr b]) →
     ∃ lines, entries = dump_tuple2 <$> lines
       ∧ DialogInfo.validate_dialogo (JList entries) = Some (Some lines)
       ∧ ∀ b, dd !! "hay_dialogo" = Some (JBool b) →
           DialogInfo.validate (JDict dd)
           = Some (DialogInfo.Build b (Some lines) (extras DialogInfo.fields dd))).
Proof.
  intros Hd Hdd.
  assert (Bad : (∃ e, e ∈ entries ∧ ¬ ∃ a b, e = JList [JStr a; JStr b]) →
     ∃ fields, VideoAnalysis.validate d = inl (ValidationError fields d)
               ∧ "dialogo" ∈ fields).
  { intros (e & Hin & Hbad). apply validate_rejects_dialogo.
    unfold required. rewrite Hd. unfold DialogInfo.validate.
    unfold with_default. rewrite Hdd, validate_dialogo_entries.
    destruct (mapM validate_tuple2 entries) as [lines|] eqn:Hm.
    - exfalso. apply Hbad. apply validate_tuple2_is_Some.
      assert (Hall : is_Some (mapM validate_tuple2 entries)) by eauto.
      rewrite mapM_is_Some, Forall_forall in Hall. by apply Hall.
    - cbn [fmap option_fmap option_map]. by destruct (required validate_bool dd "hay_dialogo"). }
  split; [exact Bad|]. split.
  - intros x y z Hin. apply Bad. exists (JList [x; y; z]). split; [done|].
    by intros (a & b & [=]).
  - intros Hall.
    assert (Hm : is_Some (mapM validate_tuple2 entries)).
    { rewrite mapM_is_Some, Forall_forall. intros e He.
      by apply validate_tuple2_is_Some, Hall. }
    destruct Hm as [lines Hm]. exists lines.
    split; [by apply mapM_validate_tuple2|].
    split; [by rewrite validate_dialogo_entries, Hm|].
    intros b Hb. unfold DialogInfo.validate, required, with_default.
    by rewrite Hb, Hdd, validate_dialogo_entries, Hm.
Qed.

Lemma dialogue_entries_must_be_pairs_witness :
  ∃ fields, VideoAnalysis.validate sample_triple = inl (ValidationError fields sample_triple)
            ∧ "dialogo" ∈ fields.
Proof.
  destruct (dialogue_entries_must_be_pairs sample_triple triple_dialogo
              [JList [JStr "Coach"; JStr "Vamos"; JStr "ya"]])
    as (_ & Htriple & _).
  - reflexivity.
  - reflexivity.
  - apply (Htriple (JStr "Coach") (JStr "Vamos") (JStr "ya")).
    apply list_elem_of_here.
Defined.

(** *** Round trip of an object that already has the schema's shape *)

Lemma lookup_extras (declared : list string) (d : gmap string json) (k : string) :
  extras declared d !! k = if decide (k ∈ declared) then None else d !! k.
Proof.
  unfold extras. induction declared as [|f l IH]; cbn [foldr].
  - by rewrite decide_False by apply not_elem_of_nil.
  - destruct (decide (k = f)) as [->|Hne].
    + rewrite lookup_delete_eq, decide_True; [done | by left].
    + rewrite lookup_delete_ne, IH by done.
      destruct (decide (k ∈ l)).
      * rewrite decide_True; [done | by right].
      * rewrite decide_False; [done | by intros [?|?]%elem_of_cons].
Qed.

Lemma lookup_foldr_put (d base : gmap string json) (kvs : list (string * json)) i :
  (∀ k v, (k, v) ∈ kvs → d !! k = Some v) →
  (i ∉ kvs.*1 → base !! i = d !! i) →
  foldr put base kvs !! i = d !! i.
Proof.
  induction kvs as [|[k v] kvs IH]; intros Hkvs Hbase; cbn [foldr].
  - apply Hbase, not_elem_of_nil.
  - unfold put at 1. cbn [fst snd]. destruct (decide (i = k)) as [->|Hne].
    + rewrite lookup_insert_eq. symmetry. apply Hkvs. by left.
    + rewrite lookup_insert_ne by done. apply IH.
      * intros k' v' Hin. apply Hkvs. by right.
      * intros Hnin. apply Hbase. cbn [fmap list_fmap fst].
        by intros [?|?]%elem_of_cons.
Qed.

Lemma restore_fields (d : gmap string json) (kvs : list (string * json)) :
  (∀ k v, (k, v) ∈ kvs → d !! k = Some v) →
  foldr put (extras (kvs.*1) d) kvs = d.
Proof.
  intros H. apply map_eq. intros i. apply lookup_foldr_put; [done|].
  intros Hnin. by rewrite lookup_extras, decide_False.
Qed.

Lemma field_is_true (p : json → bool) (d : gmap string json) (k : string) :
  field_is p d k = true → ∃ v, d !! k = Some v ∧ p v = true.
Proof. unfold field_is. destruct (d !! k); [eauto | done]. Qed.

Ltac open_field H x Hx Px :=
  apply field_is_true in H as (x & Hx & Px).

Lemma is_str_true v : is_str v = true → ∃ s, v = JStr s.
Proof. destruct v; try done. eauto. Qed.

Lemma is_bool_true v : is_bool v = true → ∃ b, v = JBool b.
Proof. destruct v; try done. eauto. Qed.

Lemma is_str_list_true v :
  is_list_of is_str v = true →
  ∃ ss, v = dump_str_list ss ∧ validate_list validate_str v = Some ss.
Proof.
  destruct v as [| | | | |l|]; try done. cbn [is_list_of]. intros H.
  assert (∃ ss, l = JStr <$> ss) as [ss ->].
  { induction l as [|e l IH]; [by exists []|].
    cbn [forallb] in H. apply andb_prop in H as [[s ->]%is_str_true Hl].
    destruct (IH Hl) as [ss ->]. by exists (s :: ss). }
  exists ss. split; [done|]. by apply mapM_validate_str.
Qed.

Lemma is_pair_list_true v :
  is_list_of is_pair v = true →
  ∃ ps, v = JList (dump_tuple2 <$> ps)
        ∧ validate_list validate_tuple2 v = Some ps.
Proof.
  destruct v as [| | | | |l|]; try done. cbn [is_list_of]. intros H.
  assert (∃ ps, l = dump_tuple2 <$> ps) as [ps ->].
  { induction l as [|e l IH]; [by exists []|].
    cbn [forallb] in H. apply andb_prop in H as [He Hl].
    destruct (IH Hl) as [ps ->].
    destruct e as [| | | | |[|[] [|[] [|]]]|]; try done.
    by exists ((s, s0) :: ps). }
  exists ps. split; [done|]. by apply mapM_validate_tuple2.
Qed.

Lemma is_recommendation_true v :
  is_recommendation v = true →
  ∃ r, MusicRecommendation.validate v = Some r
       ∧ MusicRecommendation.model_dump r = v.
Proof.
  destruct v as [| | | | | |m]; try done. cbn [is_recommendation].
  intros [H1 H2]%andb_prop.
  open_field H1 n Hn Pn. open_field H2 a Ha Pa.
  apply is_str_true in Pn as [n' ->]. apply is_str_true in Pa as [a' ->].
  eexists. unfold MusicRecommendation.validate, required. rewrite Hn, Ha.
  split; [reflexivity|]. unfold MusicRecommendation.model_dump. f_equal.
  cbn [MusicRecommendation.nombre_cancion MusicRecommendation.artista MusicRecommendation.extra].
  apply (restore_fields m [("nombre_cancion", _); ("artista", _)]).
  intros k v. rewrite !elem_of_cons, elem_of_nil. by intros [[= -> ->]|[[= -> ->]|[]]].
Qed.

Lemma is_music_true v :
  is_music v = true →
  ∃ r, MusicInfo.validate v = Some r ∧ MusicInfo.model_dump r = v.
Proof.
  destruct v as [| | | | | |m]; try done. cbn [is_music].
  intros [H1 H2]%andb_prop.
  open_field H1 h Hh Ph. open_field H2 rc Hrc Prc.
  apply is_bool_true in Ph as [b ->].
  assert (∃ o, validate_optional MusicRecommendation.validate rc = Some o
               ∧ dump_optional MusicRecommendation.model_dump o = rc) as (o & Ho & Do).
  { destruct rc; try done.
    - by exists None.
    - cbn [is_optional] in Prc. apply is_recommendation_true in Prc as (r & Hr & Dr).
      exists (Some r). unfold validate_optional. by rewrite Hr. }
  eexists. unfold MusicInfo.validate, required, with_default. rewrite Hh, Hrc, Ho.
  split; [reflexivity|]. unfold MusicInfo.model_dump. f_equal.
  cbn [MusicInfo.hay_musica MusicInfo.recomendacion MusicInfo.extra].
  apply (restore_fields m [("hay_musica", _); ("recomendacion", _)]).
  intros k v. rewrite !elem_of_cons, elem_of_nil.
  intros [[= -> ->]|[[= -> ->]|[]]]; [done|]. rewrite Hrc. f_equal. symmetry. exact Do.
Qed.

Lemma is_dialog_true v :
  is_dialog v = true →
  ∃ r, DialogInfo.validate v = Some r ∧ DialogInfo.model_dump r = v.
Proof.
  destruct v as [| | | | | |m]; try done. cbn [is_dialog].
  intros [H1 H2]%andb_prop.
  open_field H1 h Hh Ph. open_field H2 dl Hdl Pdl.
  apply is_bool_true in Ph as [b ->].
  assert (∃ o, DialogInfo.validate_dialogo dl = Some o
               ∧ dump_optional (λ l, JList (dump_tuple2 <$> l)) o = dl) as (o & Ho & Do).
  { destruct dl; try done.
    - by exists None.
    - cbn [is_optional] in Pdl. apply is_pair_list_true in Pdl as (ps & -> & Hps).
      exists (Some ps). unfold DialogInfo.validate_dialogo, validate_optional.
      by rewrite Hps. }
  eexists. unfold DialogInfo.validate, required, with_default. rewrite Hh, Hdl, Ho.
  split; [reflexivity|]. unfold DialogInfo.model_dump. f_equal.
  cbn [DialogInfo.hay_dialogo DialogInfo.dialogo DialogInfo.extra].
  apply (restore_fields m [("hay_dialogo", _); ("dialogo", _)]).
  intros k v. rewrite !elem_of_cons, elem_of_nil.
  intros [[= -> ->]|[[= -> ->]|[]]]; [done|]. rewrite Hdl. f_equal. symmetry. exact Do.
Qed.

Lemma schema_typed_validates (d : gmap string json) :
  schema_typed d = true →
  ∃ r, VideoAnalysis.validate d = inr r ∧ VideoAnalysis.model_dump r = d.
Proof.
  unfold schema_typed. rewrite !andb_true_iff.
  intros [[[[[[[[[H1 H2] H3] H4] H5] H6] H7] H8] H9] H10].
  open_field H1 v1 L1 P1. apply is_str_true in P1 as [s1 ->].
  open_field H2 v2 L2 P2. apply is_str_true in P2 as [s2 ->].
  open_field H3 v3 L3 P3. apply is_str_true in P3 as [s3 ->].
  open_field H4 v4 L4 P4. apply is_str_true in P4 as [s4 ->].
  open_field H5 v5 L5 P5. apply is_str_list_true in P5 as (acs & -> & V5).
  open_field H6 v6 L6 P6. apply is_dialog_true in P6 as (dg & V6 & D6).
  open_field H7 v7 L7 P7. apply is_music_true in P7 as (mu & V7 & D7).
  open_field H8 v8 L8 P8. apply is_str_true in P8 as [s8 ->].
  open_field H9 v9 L9 P9. apply is_str_true in P9 as [s9 ->].
  open_field H10 v10 L10 P10.
  assert (∃ o, validate_optional (validate_list validate_str) v10 = Some o
               ∧ dump_optional dump_str_list o = v10) as (hs & V10 & D10).
  { destruct v10; try done.
    - by exists None.
    - cbn [is_optional] in P10. apply is_str_list_true in P10 as (ss & E & Hss).
      exists (Some ss). unfold validate_optional. by rewrite Hss. }
  eexists. unfold VideoAnalysis.validate, required, with_default.
  rewrite L1, L2, L3, L4, L5, L6, L7, L8, L9, L10, V5, V6, V7, V10.
  cbn [validate_str mbind option_bind].
  split; [reflexivity|]. unfold VideoAnalysis.model_dump.
  cbn [VideoAnalysis.descripcion_original VideoAnalysis.titulo_portada
       VideoAnalysis.idea_video VideoAnalysis.gancho_video VideoAnalysis.acciones
       VideoAnalysis.dialogo VideoAnalysis.musica
       VideoAnalysis.expectativas_cumplidas VideoAnalysis.caption_video
       VideoAnalysis.hashtags VideoAnalysis.extra].
  apply (restore_fields d
    [ ("descripcion_original", _); ("titulo_portada", _); ("idea_video", _);
      ("gancho_video", _); ("acciones", _); ("dialogo", _); ("musica", _);
      ("expectativas_cumplidas", _); ("caption_video", _); ("hashtags", _) ]).
  intros k v. rewrite !elem_of_cons, elem_of_nil.
  intros [E|[E|[E|[E|[E|[E|[E|[E|[E|[E|[]]]]]]]]]]]; injection E as -> ->;
    match goal with
    | L : d !! ?k = Some _ |- d !! ?k = Some _ =>
        rewrite L; f_equal;
        first [reflexivity | symmetry; exact D6 | symmetry; exact D7
              | symmetry; exact D10]
    end.
Qed.

Lemma schema_typed_repair (d : gmap string json) :
  schema_typed d = true → repair d = inr d.
Proof.
  unfold schema_typed. rewrite !andb_true_iff.
  intros [[[[[[[[[H1 H2] H3] H4] H5] H6] H7] H8] H9] H10].
  assert (Hreq : ∀ f, f ∈ required_fields → is_Some (d !! f)).
  { intros f. unfold required_fields. rewrite !elem_of_cons, elem_of_nil.
    intros [->|[->|[->|[->|[->|[->|[->|[->|[->|[]]]]]]]]]];
      match goal with H : field_is _ d ?k = true |- is_Some (d !! ?k) =>
        apply field_is_true in H as (? & -> & _); eauto end. }
  unfold repair. rewrite apply_field_mapping_id, fill_missing_fields_id; [|done|].
  - unfold ensure_hashtags, has_key.
    apply field_is_true in H10 as (? & -> & _). done.
  - intros old new. unfold field_mapping. rewrite !elem_of_cons, elem_of_nil.
    intros [E|[E|[E|[]]]]; injection E as -> ->; apply Hreq;
      unfold required_fields; rewrite !elem_of_cons; auto 10.
Qed.

End Validation.

(** ** Extraction of the JSON span from the response text *)

Lemma span_located (raw pre mid post : string) :
  raw = pre +:+ "{" +:+ mid +:+ "}" +:+ post →
  absent "{" pre → absent "}" post →
  PyStr.find "{" raw = Z.of_nat (String.length pre)
  ∧ PyStr.rfind "}" raw = Z.of_nat (String.length pre + 1 + String.length mid)
  ∧ PyStr.slice raw (PyStr.find "{" raw) (PyStr.rfind "}" raw + 1)
    = "{" +:+ mid +:+ "}".
Proof.
  intros -> Hpre Hpost.
  assert (Hf : PyStr.find "{" (pre +:+ "{" +:+ mid +:+ "}" +:+ post)
               = Z.of_nat (String.length pre)).
  { change (PyStr.find "{") with (PyStr.find (single "{")).
    rewrite (str_app_cons "{" ""), str_app_nil_l. by apply find_single_app. }
  assert (Hr : PyStr.rfind "}" (pre +:+ "{" +:+ mid +:+ "}" +:+ post)
               = Z.of_nat (String.length pre + 1 + String.length mid)).
  { change (PyStr.rfind "}") with (PyStr.rfind (single "}")).
    rewrite <- (str_app_assoc "{" mid), <- (str_app_assoc pre).
    rewrite (str_app_cons "}" ""), str_app_nil_l.
    rewrite rfind_single_app by done.
    rewrite !str_length_app. cbn [String.length]. f_equal. lia. }
  split; [done|]. split; [done|]. rewrite Hf, Hr.
  rewrite <- (str_app_assoc mid "}" post), <- (str_app_assoc "{" (mid +:+ "}") post).
  replace (Z.of_nat (String.length pre + 1 + String.length mid) + 1)
    with (Z.of_nat (String.length pre)
          + Z.of_nat (String.length ("{" +:+ mid +:+ "}"))).
  - apply slice_app.
  - rewrite !str_length_app. cbn [String.length]. lia.
Qed.

Lemma no_span_located (raw : string) :
  absent "{" raw
  ∨ (∃ pre post, raw = pre +:+ "{" +:+ post ∧ absent "{" pre ∧ absent "}" post) →
  (0 <=? PyStr.find "{" raw) && (PyStr.find "{" raw <? PyStr.rfind "}" raw) = false.
Proof.
  intros [Habs|(pre & post & -> & Hpre & Hpost)].
  - change (PyStr.find "{") with (PyStr.find (single "{")).
    by rewrite find_single_absent.
  - change (PyStr.find "{") with (PyStr.find (single "{")).
    change (PyStr.rfind "}") with (PyStr.rfind (single "}")).
    rewrite (str_app_cons "{" ""), str_app_nil_l.
    rewrite find_single_app by done.
    rewrite rfind_single_app_absent.
    + pose proof (rfind_single_range "}" pre).
      apply andb_false_iff. right. apply Z.ltb_ge. lia.
    + apply absent_cons. split; [discriminate | done].
Qed.

(** Every text has one of the three shapes that the extraction tells
    apart. *)
Lemma first_occurrence (c : ascii) (s : string) :
  absent c s ∨ ∃ pre rest, s = pre +:+ String c rest ∧ absent c pre.
Proof.
  induction s as [|a s IH]; [left; apply absent_nil|].
  destruct (decide (a = c)) as [->|Hne].
  - right. exists EmptyString, s. split; [done | apply absent_nil].
  - destruct IH as [Habs|(pre & rest & -> & Hpre)].
    + left. by apply absent_cons.
    + right. exists (String a pre), rest. split; [done | by apply absent_cons].
Qed.

Lemma last_occurrence (c : ascii) (s : string) :
  absent c s ∨ ∃ init post, s = init +:+ String c post ∧ absent c post.
Proof.
  induction s as [|a s IH]; [left; apply absent_nil|].
  destruct IH as [Habs|(init & post & -> & Hpost)].
  - destruct (decide (a = c)) as [->|Hne].
    + right. by exists EmptyString, s.
    + left. by apply absent_cons.
  - right. by exists (String a init), post.
Qed.

Lemma span_cases (raw : string) :
  absent "{" raw
  ∨ (∃ pre post, raw = pre +:+ "{" +:+ post ∧ absent "{" pre ∧ absent "}" post)
  ∨ (∃ pre mid post, raw = pre +:+ "{" +:+ mid +:+ "}" +:+ post
                     ∧ absent "{" pre ∧ absent "}" post).
Proof.
  destruct (first_occurrence "{" raw) as [Habs|(pre & rest & -> & Hpre)];
    [by left|right].
  destruct (last_occurrence "}" rest) as [Habs|(mid & post & -> & Hpost)].
  - left. by exists pre, rest.
  - right. by exists pre, mid, post.
Qed.

Section Extraction.

Variable json_loads : string → option json.

(** C3. A text without an opening brace, or with no closing brace after its
    first opening brace, ends in [NoJsonFound]. Otherwise the text passed to
    the decoder is the span from the first opening brace to the last closing
    brace, both included; a decoding error ends in [JsonParseError]. In both
    failures the text attached is [raw[:500]]: a prefix of the response of at
    most 500 characters. By [span_cases] the three shapes below cover every
    text. *)
Theorem json_span_extraction (raw : string) :
  (absent "{" raw →
     process_response json_loads raw = Return (NoJsonFound (PyStr.take 500 raw)))
  ∧ (∀ pre post, raw = pre +:+ "{" +:+ post → absent "{" pre → absent "}" post →
       process_response json_loads raw = Return (NoJsonFound (PyStr.take 500 raw)))
  ∧ (∀ pre mid post,
       raw = pre +:+ "{" +:+ mid +:+ "}" +:+ post →
       absent "{" pre → absent "}" post →
       PyStr.find "{" raw = Z.of_nat (String.length pre)
       ∧ PyStr.rfind "}" raw = Z.of_nat (String.length pre + 1 + String.length mid)
       ∧ PyStr.slice raw (PyStr.find "{" raw) (PyStr.rfind "}" raw + 1)
         = "{" +:+ mid +:+ "}"
       ∧ (json_loads ("{" +:+ mid +:+ "}") = None →
          process_response json_loads raw
          = Return (JsonParseError (PyStr.take 500 raw)))
       ∧ (∀ d, json_loads ("{" +:+ mid +:+ "}") = Some (JDict d) →
          process_response json_loads raw
          = match repair d with
            | inl e => Raise e
            | inr d' =>
                match VideoAnalysis.validate d' with
                | inl e => Raise e
                | inr v => Return (Analysis v)
                end
            end))
  ∧ (String.length (PyStr.take 500 raw) <= 500)%nat
  ∧ ∃ rest, raw = PyStr.take 500 raw +:+ rest.
Proof.
  split; [|split; [|split]].
  - intros Habs. unfold process_response.
    by rewrite no_span_located by (by left).
  - intros pre post Hraw Hpre Hpost. unfold process_response.
    rewrite no_span_located; [done|]. right. eauto.
  - intros pre mid post Hraw Hpre Hpost.
    destruct (span_located raw pre mid post Hraw Hpre Hpost) as (Hf & Hr & Hs).
    split; [done|]. split; [done|]. split; [done|].
    assert (Hguard : (0 <=? PyStr.find "{" raw)
                     && (PyStr.find "{" raw <? PyStr.rfind "}" raw) = true).
    { rewrite Hf, Hr. apply andb_true_iff. split; [apply Z.leb_le | apply Z.ltb_lt]; lia. }
    split.
    + intros Hnone. unfold process_response. by rewrite Hguard, Hs, Hnone.
    + intros d Hd. unfold process_response. by rewrite Hguard, Hs, Hd.
  - apply take_bounded.
Qed.

End Extraction.

Lemma json_span_extraction_witness :
  process_response sample_loads "Lo siento, no puedo ver el video."
  = Return (NoJsonFound "Lo siento, no puedo ver el video.")
  ∧ process_response sample_loads "Resultado: {oops} fin"
    = Return (JsonParseError "Resultado: {oops} fin").
Proof.
  split.
  - destruct (json_span_extraction sample_loads "Lo siento, no puedo ver el video.")
      as (Hnone & _).
    apply Hnone. apply absent_by_contains. reflexivity.
  - destruct (json_span_extraction sample_loads "Resultado: {oops} fin")
      as (_ & _ & Hspan & _).
    destruct (Hspan "Resultado: " "oops" " fin") as (_ & _ & _ & Herr & _).
    + reflexivity.
    + apply absent_by_contains. reflexivity.
    + apply absent_by_contains. reflexivity.
    + apply Herr. reflexivity.
Defined.

(** C7, as stated, fails: an object with every required field, all well
    typed, but without [hashtags] does not come back unchanged, because the
    result always carries a [hashtags] field. *)
Lemma round_trip_adds_hashtags :
  ¬ (∀ d : gmap string json,
       (∀ f, f ∈ required_fields → is_Some (d !! f)) → round_trips d).
Proof.
  intros H. destruct (H sample_required) as (d' & r & _ & _ & Hdump).
  - intros f. unfold required_fields. rewrite !elem_of_cons, elem_of_nil.
    intros [->|[->|[->|[->|[->|[->|[->|[->|[->|[]]]]]]]]]]; eexists; reflexivity.
  - apply (f_equal (.!! "hashtags")) in Hdump.
    unfold VideoAnalysis.model_dump in Hdump.
    rewrite !lookup_insert_ne, lookup_insert_eq in Hdump by done.
    discriminate Hdump.
Qed.

(** C7, amended. When the span of the response decodes to an object in which
    every declared field, [hashtags] included, is present with a value of its
    declared type, the repair returns the object unchanged, validation
    succeeds, the dump of the resulting model is the decoded object, and that
    model is what the response yields. *)
Theorem typed_response_round_trips
    (json_loads : string → option json) (raw pre mid post : string)
    (d : gmap string json) :
  raw = pre +:+ "{" +:+ mid +:+ "}" +:+ post →
  absent "{" pre → absent "}" post →
  json_loads ("{" +:+ mid +:+ "}") = Some (JDict d) →
  schema_typed d = true →
  repair d = inr d
  ∧ ∃ r, VideoAnalysis.validate d = inr r
         ∧ VideoAnalysis.model_dump r = d
         ∧ process_response json_loads raw = Return (Analysis r).
Proof.
  intros Hraw Hpre Hpost Hd Htyped.
  pose proof (schema_typed_repair d Htyped) as Hrep.
  destruct (schema_typed_validates d Htyped) as (r & Hval & Hdump).
  split; [done|]. exists r. split; [done|]. split; [done|].
  destruct (span_located raw pre mid post Hraw Hpre Hpost) as (Hf & Hr & Hs).
  unfold process_response. rewrite Hs, Hd, Hrep, Hval, Hf, Hr.
  replace ((0 <=? Z.of_nat (String.length pre))
           && (Z.of_nat (String.length pre)
               <? Z.of_nat (String.length pre + 1 + String.length mid)))
    with true; [done|].
  symmetry. apply andb_true_iff. split; [apply Z.leb_le | apply Z.ltb_lt]; lia.
Qed.

Lemma typed_response_round_trips_witness :
  let raw := "Aqui va el analisis: {" +:+ sample_mid +:+ "} Fin." in
  repair sample_complete = inr sample_complete
  ∧ ∃ r, VideoAnalysis.validate sample_complete = inr r
         ∧ VideoAnalysis.model_dump r = sample_complete
         ∧ process_response sample_loads raw = Return (Analysis r).
Proof.
  intros raw.
  apply (typed_response_round_trips sample_loads raw
           "Aqui va el analisis: " sample_mid " Fin." sample_complete).
  - reflexivity.
  - apply absent_by_contains. reflexivity.
  - apply absent_by_contains. reflexivity.
  - reflexivity.
  - reflexivity.
Defined.

(** ** The retry loop *)

Section Loop.

Variable json_loads : string → option json.
Variable str_validation_error : list string → gmap string json → string.

(** The fuel [analyze_video] passes is always enough: the loop ends. *)
Lemma retry_loop_total (fuel : nat) (generate_content : Z → reply)
    (max_retries retry_count : Z) (video_base64 : option string) :
  (Z.to_nat (max_retries + 1 - retry_count) <= fuel)%nat →
  is_Some (retry_loop json_loads str_validation_error fuel generate_content
             max_retries retry_count video_base64).
Proof.
  revert retry_count video_base64.
  induction fuel as [|fuel IH]; intros rc vb Hfuel; cbn [retry_loop].
  - destruct (Z.leb_spec rc max_retries); [lia | eauto].
  - destruct (Z.leb_spec rc max_retries); [|eauto].
    destruct (attempt _ _ generate_content max_retries rc vb) as [evs [w|o]];
      [|eauto].
    destruct (IH (rc + 1) None) as [[evs' o] ->]; [lia | eauto].
Qed.

Lemma analyze_video_total (video_base64 : string) (generate_content : Z → reply)
    (max_retries : Z) :
  is_Some (analyze_video json_loads str_validation_error video_base64
             generate_content max_retries).
Proof. apply retry_loop_total. lia. Qed.

Lemma handle_quota (max_retries retry_count : Z) (e : exn) :
  is_quota_error (PyStr.lower (str_exn str_validation_error e)) = true →
  handle str_validation_error max_retries retry_count e =
    if retry_count <? max_retries then Continue (2 ^ retry_count * 5)
    else Exit QuotaExhausted.
Proof. intros H. unfold handle. by rewrite H. Qed.

Lemma handle_too_large (max_retries retry_count : Z) (e : exn) :
  is_quota_error (PyStr.lower (str_exn str_validation_error e)) = false →
  is_too_large_error (PyStr.lower (str_exn str_validation_error e)) = true →
  handle str_validation_error max_retries retry_count e = Exit PayloadTooLarge.
Proof. intros H1 H2. unfold handle. by rewrite H1, H2. Qed.

(** C2. When the first remote call fails with a message that the handler
    classifies as too large (and not as a quota error), [analyze_video] ends
    through [PayloadTooLarge] after that single attempt, without any sleep. *)
Theorem payload_too_large_aborts (video_base64 : string)
    (generate_content : Z → reply) (max_retries : Z) (msg : string) :
  0 <= max_retries →
  generate_content 0 = Raises msg →
  is_quota_error (PyStr.lower msg) = false →
  is_too_large_error (PyStr.lower msg) = true →
  ∃ evs,
    analyze_video json_loads str_validation_error video_base64 generate_content
      max_retries = Some (evs, PayloadTooLarge)
    ∧ evs = [Attempt 0] ∧ attempts evs = 1%nat ∧ sleeps evs = []
    ∧ returned PayloadTooLarge = None.
Proof.
  intros Hmax Hgc Hq Hl. exists [Attempt 0]. split; [|done].
  unfold analyze_video.
  destruct (Z.to_nat (max_retries + 1)) as [|fuel] eqn:Hf; [lia|].
  cbn [retry_loop]. destruct (Z.leb_spec 0 max_retries); [|lia].
  unfold attempt. cbn [b64decode]. rewrite Hgc.
  by rewrite handle_too_large.
Qed.

(** After a quota error with retries left, the loop sleeps and goes round
    again, but the [finally] clause has cleared the payload: the next turn
    stops in the outer handler before any remote call. *)
Lemma quota_retry_loses_payload (video_base64 : string)
    (generate_content : Z → reply) (max_retries : Z) (msg : string) :
  1 <= max_retries →
  generate_content 0 = Raises msg →
  is_quota_error (PyStr.lower msg) = true →
  analyze_video json_loads str_validation_error video_base64 generate_content
    max_retries
  = Some ([Attempt 0; Sleep 5], PrepareError payload_lost).
Proof.
  intros Hmax Hgc Hq. unfold analyze_video.
  destruct (Z.to_nat (max_retries + 1)) as [|[|fuel]] eqn:Hf; [lia..|].
  cbn [retry_loop]. destruct (Z.leb_spec 0 max_retries); [|lia].
  unfold attempt at 1. cbn [b64decode]. rewrite Hgc.
  rewrite handle_quota by done.
  destruct (Z.ltb_spec 0 max_retries); [|lia].
  destruct (Z.leb_spec (0 + 1) max_retries); [|lia].
  done.
Qed.

(** With no retry left, a quota error ends through [QuotaExhausted]. *)
Lemma quota_without_retries (video_base64 : string)
    (generate_content : Z → reply) (msg : string) :
  generate_content 0 = Raises msg →
  is_quota_error (PyStr.lower msg) = true →
  analyze_video json_loads str_validation_error video_base64 generate_content 0
  = Some ([Attempt 0], QuotaExhausted).
Proof.
  intros Hgc Hq. unfold analyze_video.
  change (Z.to_nat (0 + 1)) with 1%nat. cbn [retry_loop].
  destruct (Z.leb_spec 0 0); [|lia].
  unfold attempt. cbn [b64decode]. rewrite Hgc.
  by rewrite handle_quota by done.
Qed.

(** No run makes more than one remote call. *)
Lemma at_most_one_attempt (video_base64 : string) (generate_content : Z → reply)
    (max_retries : Z) (evs : list event) (o : outcome) :
  analyze_video json_loads str_validation_error video_base64 generate_content
    max_retries = Some (evs, o) →
  (attempts evs <= 1)%nat.
Proof.
  unfold analyze_video.
  destruct (Z.to_nat (max_retries + 1)) as [|fuel] eqn:Hf; cbn [retry_loop].
  - destruct (0 <=? max_retries); [done|]. intros [= <- <-]. cbn. lia.
  - destruct (0 <=? max_retries); [|intros [= <- <-]; cbn; lia].
    destruct (attempt _ _ generate_content max_retries 0 (Some video_base64))
      as [evs1 t] eqn:Ha.
    assert (H1 : (attempts evs1 <= 1)%nat).
    { unfold attempt in Ha. cbn [b64decode] in Ha.
      destruct (generate_content 0); [destruct (process_response _ _)|];
        injection Ha as <- _; cbn; lia. }
    destruct t as [w|o1]; [|by intros [= <- <-]].
    destruct fuel as [|fuel]; cbn [retry_loop].
    + destruct (0 + 1 <=? max_retries); [done|].
      intros [= <- <-]. unfold attempts in *. rewrite List.filter_app. cbn.
      rewrite List.length_app. cbn. lia.
    + destruct (0 + 1 <=? max_retries); intros [= <- <-];
        unfold attempts in *; rewrite List.filter_app, List.length_app; cbn; lia.
Qed.

End Loop.

Lemma payload_too_large_aborts_witness :
  ∃ evs,
    analyze_video sample_loads sample_str_error "AAAAIGZ0eXBpc29t" too_large_reply 3
    = Some (evs, PayloadTooLarge)
    ∧ evs = [Attempt 0] ∧ attempts evs = 1%nat ∧ sleeps evs = []
    ∧ returned PayloadTooLarge = None.
Proof.
  apply (payload_too_large_aborts sample_loads sample_str_error
           "AAAAIGZ0eXBpc29t" too_large_reply 3
           "400 Request payload size exceeds the limit: file too large").
  - lia.
  - reflexivity.
  - vm_compute. reflexivity.
  - vm_compute. reflexivity.
Defined.

(** C1 fails on the code. With [max_retries = 3] and a remote model that
    answers a quota error on attempts 0 and 1 and a text on attempt 2, the
    run makes one call, sleeps 5 seconds and then ends in the outer handler
    with [None]: the second turn finds the payload cleared and raises before
    it calls the model. The expected trace is
    [Attempt 0; Sleep 5; Attempt 1; Sleep 10; Attempt 2] with the analysis
    returned. *)
Theorem retry_after_quota_stops_before_second_call
    (json_loads : string → option json)
    (str_validation_error : list string → gmap string json → string) (video_base64 ok : string) :
  let run := analyze_video json_loads str_validation_error video_base64
               (quota_twice ok) 3 in
  run = Some ([Attempt 0; Sleep 5], PrepareError payload_lost)
  ∧ run ≠ None
  ∧ (∀ evs o, run = Some (evs, o) →
       attempts evs = 1%nat ∧ sleeps evs = [5] ∧ returned o = None).
Proof.
  intros run.
  assert (E : run = Some ([Attempt 0; Sleep 5], PrepareError payload_lost))
    by reflexivity.
  split; [exact E|]. split; [by rewrite E|].
  intros evs o. rewrite E. by intros [= <- <-].
Qed.

(** * Properties of the code around the analysis *)

(** ** Whitespace stripping *)

Lemma lstrip_no_leading_space (s : string) :
  starts_with_space (PyText.lstrip s) = false.
Proof.
  induction s as [|c s IH]; [done|]. cbn [PyText.lstrip].
  destruct (PyStr.isspace c) eqn:Hc; [done|]. cbn. done.
Qed.

Lemma lstrip_id (s : string) :
  starts_with_space s = false → PyText.lstrip s = s.
Proof. destruct s as [|c s]; [done|]. cbn. by intros ->. Qed.

Lemma rstrip_no_trailing_space (s : string) :
  ends_with_space (PyText.rstrip s) = false.
Proof.
  induction s as [|c s IH]; [done|]. cbn [PyText.rstrip].
  destruct (PyText.rstrip s) as [|c' r] eqn:Hr.
  - destruct (PyStr.isspace c) eqn:Hc; [done|]. cbn. done.
  - cbn [ends_with_space]. exact IH.
Qed.

Lemma rstrip_id (s : string) :
  ends_with_space s = false → PyText.rstrip s = s.
Proof.
  induction s as [|c s IH]; [done|]. cbn [PyText.rstrip ends_with_space].
  destruct s as [|c' s'].
  - cbn. by intros ->.
  - intros H. rewrite IH by done. done.
Qed.

Lemma rstrip_keeps_head (s : string) :
  starts_with_space s = false → starts_with_space (PyText.rstrip s) = false.
Proof.
  destruct s as [|c s]; [done|]. cbn [starts_with_space PyText.rstrip].
  intros Hc. destruct (PyText.rstrip s); [by rewrite Hc | done].
Qed.

Lemma strip_clean (s : string) :
  starts_with_space (PyText.strip s) = false
  ∧ ends_with_space (PyText.strip s) = false.
Proof.
  unfold PyText.strip. split.
  - apply rstrip_keeps_head, lstrip_no_leading_space.
  - apply rstrip_no_trailing_space.
Qed.

Lemma strip_id (s : string) :
  starts_with_space s = false → ends_with_space s = false → PyText.strip s = s.
Proof. intros H1 H2. unfold PyText.strip. by rewrite lstrip_id, rstrip_id. Qed.

Lemma strip_idempotent (s : string) :
  PyText.strip (PyText.strip s) = PyText.strip s.
Proof. apply strip_id; apply strip_clean. Qed.

Lemma spaceless_strip_id (s : string) : spaceless s = true → PyText.strip s = s.
Proof.
  intros H. apply strip_id.
  - destruct s as [|c s]; [done|]. cbn in *.
    by apply andb_prop in H as [->%negb_true_iff _].
  - induction s as [|c s IH]; [done|]. cbn [spaceless] in H.
    apply andb_prop in H as [Hc%negb_true_iff Hs]. cbn [ends_with_space].
    destruct s; [done | by apply IH].
Qed.

(** ** Decimal numerals *)

Lemma is_digit_not_space (c : ascii) :
  PyText.is_digit c = true → PyStr.isspace c = false.
Proof. destruct c as [[] [] [] [] [] [] [] []]; by vm_compute. Qed.

Lemma is_digit_not_underscore (c : ascii) :
  PyText.is_digit c = true → Ascii.eqb c "_" = false.
Proof. destruct c as [[] [] [] [] [] [] [] []]; by vm_compute. Qed.

Lemma digits_of_uint (d : Decimal.uint) :
  all_chars PyText.is_digit (NilEmpty.string_of_uint d) = true.
Proof. induction d; cbn; done. Qed.

Lemma all_digits_spaceless (s : string) :
  all_chars PyText.is_digit s = true → spaceless s = true.
Proof.
  induction s as [|c s IH]; [done|]. cbn.
  intros [Hc Hs]%andb_prop. by rewrite (is_digit_not_space c Hc), IH.
Qed.

Lemma digits_of_all_digits (prev : bool) (s : string) :
  all_chars PyText.is_digit s = true → s ≠ EmptyString →
  PyText.digits_of prev s = Some s.
Proof.
  revert prev. induction s as [|c s IH]; intros prev Hs Hne; [done|].
  cbn in Hs. apply andb_prop in Hs as [Hc Hs]. cbn [PyText.digits_of].
  rewrite Hc. destruct s as [|c' s']; [done|]. by rewrite IH.
Qed.

Lemma string_of_uint_nonempty (d : Decimal.uint) :
  d ≠ Decimal.Nil → NilEmpty.string_of_uint d ≠ EmptyString.
Proof. by destruct d. Qed.

(** Reading back what [str] prints. *)
Lemma int_of_str_digits (d : Decimal.uint) :
  d ≠ Decimal.Nil →
  PyText.int_of_str (NilZero.string_of_uint d) = Some (Z.of_uint d)
  ∧ PyText.int_of_str (String "-" (NilZero.string_of_uint d)) = Some (- Z.of_uint d).
Proof.
  intros Hd.
  assert (Hs : NilZero.string_of_uint d = NilEmpty.string_of_uint d) by by destruct d.
  pose proof (digits_of_uint d) as Hdig.
  pose proof (string_of_uint_nonempty d Hd) as Hne.
  pose proof (NilZero.usu d Hd) as Hparse.
  rewrite Hs in *. set (s := NilEmpty.string_of_uint d) in *.
  assert (Hstrip : PyText.strip s = s)
    by by apply spaceless_strip_id, all_digits_spaceless.
  split.
  - unfold PyText.int_of_str. rewrite Hstrip.
    destruct s as [|c s'] eqn:Es; [done|].
    assert (Hc : PyText.is_digit c = true) by by apply andb_prop in Hdig as [? _].
    assert (c ≠ "-"%char ∧ c ≠ "+"%char) as [Hm Hp].
    { split; intros ->; by vm_compute in Hc. }
    replace (match String c s' with
             | String "-" r => (true, r) | String "+" r => (false, r)
             | _ => (false, String c s') end) with (false, String c s').
    + rewrite digits_of_all_digits by done. by rewrite Hparse.
    + destruct c as [[] [] [] [] [] [] [] []]; try done.
  - unfold PyText.int_of_str.
    assert (PyText.strip (String "-" s) = String "-" s) as ->.
    { apply spaceless_strip_id. cbn. by apply all_digits_spaceless. }
    rewrite digits_of_all_digits by done. by rewrite Hparse.
Qed.

Lemma int_of_str_of_int (n : Z) :
  PyText.int_of_str (PyText.str_of_int n) = Some n.
Proof.
  unfold PyText.str_of_int. destruct n as [|p|p]; [done|..].
  - cbn [Z.to_int NilZero.string_of_int].
    destruct (int_of_str_digits (Pos.to_uint p)) as [-> _].
    + apply Unsigned.to_uint_nonnil.
    + f_equal. change (Z.of_uint (Pos.to_uint p)) with (Z.of_N (Pos.of_uint (Pos.to_uint p))).
      by rewrite DecimalPos.Unsigned.of_to.
  - cbn [Z.to_int NilZero.string_of_int].
    destruct (int_of_str_digits (Pos.to_uint p)) as [_ ->].
    + apply Unsigned.to_uint_nonnil.
    + f_equal. change (Z.of_uint (Pos.to_uint p)) with (Z.of_N (Pos.of_uint (Pos.to_uint p))).
      by rewrite DecimalPos.Unsigned.of_to.
Qed.

Lemma str_of_int_inj (n m : Z) : PyText.str_of_int n = PyText.str_of_int m → n = m.
Proof.
  intros H. apply (f_equal PyText.int_of_str) in H.
  rewrite !int_of_str_of_int in H. by injection H.
Qed.

(** ** Suffixes, pieces and paths *)

Lemma endswith_refl (s : string) : PyText.endswith s s = true.
Proof. destruct s; cbn [PyText.endswith]; by rewrite String.eqb_refl. Qed.

Lemma endswith_app (a suffix : string) : PyText.endswith suffix (a +:+ suffix) = true.
Proof.
  induction a as [|c a IH]; rewrite ?str_app_nil_l, ?str_app_cons.
  - apply endswith_refl.
  - cbn [PyText.endswith]. rewrite IH. apply orb_true_r.
Qed.

Lemma endswith_inv (suffix s : string) :
  PyText.endswith suffix s = true → ∃ a, s = a +:+ suffix.
Proof.
  induction s as [|c s IH]; cbn [PyText.endswith].
  - rewrite orb_false_r. intros ->%String.eqb_eq. by exists EmptyString.
  - intros [->%String.eqb_eq|H]%orb_prop.
    + by exists EmptyString.
    + destruct (IH H) as [a ->]. by exists (String c a).
Qed.

Lemma drop_app (a b : string) :
  OsPath.drop (Z.of_nat (String.length a)) (a +:+ b) = b.
Proof.
  unfold OsPath.drop. rewrite Nat2Z.id, str_length_app.
  replace (String.length a + String.length b - String.length a)%nat
    with (String.length b) by lia.
  pose proof (substring_app_mid a b EmptyString) as H.
  by rewrite str_app_nil_r in H.
Qed.

Lemma drop_0 (s : string) : OsPath.drop 0 s = s.
Proof. apply (drop_app EmptyString s). Qed.

Lemma absent_app (c : ascii) (a b : string) :
  absent c (a +:+ b) ↔ absent c a ∧ absent c b.
Proof.
  induction a as [|x a IH]; rewrite ?str_app_nil_l, ?str_app_cons.
  - split; [intros H; split; [apply absent_nil | done] | by intros [_ H]].
  - rewrite !absent_cons, IH. tauto.
Qed.

Lemma absent_not_prefix (c : ascii) (s : string) :
  absent c s → String.prefix (single c) s = false.
Proof.
  destruct s as [|a s]; [done|]. intros [Hne _]%absent_cons.
  rewrite prefix_single_cons. by apply bool_decide_eq_false_2.
Qed.

(** [os.path.basename] undoes [os.path.join] on a name without a slash. *)
Lemma basename_join (a b : string) :
  absent "/" b → OsPath.basename (OsPath.join a b) = b.
Proof.
  intros Hb. unfold OsPath.join, PyStr.startswith.
  change (String.prefix "/" b) with (String.prefix (single "/") b).
  rewrite absent_not_prefix by done. unfold OsPath.basename.
  change (PyStr.rfind "/") with (PyStr.rfind (single "/")).
  destruct (String.eqb a EmptyString) eqn:Ea; cbn [orb].
  - apply String.eqb_eq in Ea as ->. rewrite str_app_nil_l.
    rewrite rfind_single_absent by done. apply drop_0.
  - destruct (PyText.endswith "/" a) eqn:Es.
    + apply endswith_inv in Es as [a' ->]. rewrite str_app_assoc.
      change ("/" +:+ b) with (String "/" b).
      rewrite rfind_single_app by done.
      replace (a' +:+ String "/" b) with ((a' +:+ "/") +:+ b)
        by by rewrite str_app_assoc.
      replace (Z.of_nat (String.length a') + 1)
        with (Z.of_nat (String.length (a' +:+ "/")))
        by (rewrite str_length_app; cbn; lia).
      apply drop_app.
    + change (a +:+ "/" +:+ b) with (a +:+ String "/" b).
      rewrite rfind_single_app by done.
      replace (a +:+ String "/" b) with ((a +:+ "/") +:+ b)
        by by rewrite str_app_assoc.
      replace (Z.of_nat (String.length a) + 1)
        with (Z.of_nat (String.length (a +:+ "/")))
        by (rewrite str_length_app; cbn; lia).
      apply drop_app.
Qed.

(** A path without a slash has no directory part. *)
Lemma dirname_plain (p : string) : absent "/" p → OsPath.dirname p = EmptyString.
Proof.
  intros Hp. unfold OsPath.dirname.
  change (PyStr.rfind "/") with (PyStr.rfind (single "/")).
  rewrite rfind_single_absent by done. cbn [Z.add Z.to_nat].
  unfold PyStr.take. by destruct p.
Qed.

Lemma str_app_inv_l (a b c : string) : a +:+ b = a +:+ c → b = c.
Proof.
  induction a as [|x a IH]; rewrite ?str_app_nil_l, ?str_app_cons; [done|].
  intros [= H]. by apply IH.
Qed.

Lemma join_relative (a b : string) :
  PyStr.startswith "/" b = false → ∃ sep, OsPath.join a b = a +:+ sep +:+ b.
Proof.
  intros Hb. unfold OsPath.join. rewrite Hb.
  destruct (_ || _); [by exists EmptyString | by exists "/"%string].
Qed.

(** Two names joined to the same directory give the same path only if they
    are the same name. *)
Lemma join_inj (d a b : string) :
  PyStr.startswith "/" a = false → PyStr.startswith "/" b = false →
  OsPath.join d a = OsPath.join d b → a = b.
Proof.
  intros Ha Hb. unfold OsPath.join. rewrite Ha, Hb.
  destruct (_ || _); intros H; by repeat apply str_app_inv_l in H.
Qed.

Lemma substring_full (s : string) : String.substring 0 (String.length s) s = s.
Proof. induction s as [|c s IH]; [done|]. cbn. by rewrite IH. Qed.

Lemma take_drop (n : nat) (s : string) :
  (n <= String.length s)%nat →
  String.substring 0 n s +:+ String.substring n (String.length s - n) s = s.
Proof.
  revert s. induction n as [|n IH]; intros s Hn.
  - rewrite Nat.sub_0_r, substring_full. by destruct s.
  - destruct s as [|c s]; cbn [String.length] in *; [lia|].
    cbn [String.substring]. rewrite str_app_cons.
    replace (S (String.length s) - S n)%nat with (String.length s - n)%nat by lia.
    rewrite IH; [done | lia].
Qed.

(** [os.path.splitext] cuts the path in two. *)
Lemma splitext_concat (p : string) :
  (OsPath.splitext p).1 +:+ (OsPath.splitext p).2 = p.
Proof.
  unfold OsPath.splitext.
  destruct (_ && _) eqn:E; cbn [fst snd]; [|apply str_app_nil_r].
  apply andb_prop in E as [Hlt%Z.ltb_lt _].
  change (PyStr.rfind ".") with (PyStr.rfind (single ".")) in *.
  change (PyStr.rfind "/") with (PyStr.rfind (single "/")) in *.
  pose proof (rfind_single_range "." p) as Hd.
  pose proof (rfind_single_range "/" p) as Hs.
  unfold PyStr.slice, OsPath.drop. rewrite Z.sub_0_r. cbn [Z.to_nat].
  apply take_drop. lia.
Qed.

(** ** Lemmas: frame numbers and the capture loop *)

Lemma str_app_inv_r (a b c : string) : a +:+ c = b +:+ c → a = b.
Proof.
  revert b. induction a as [|x a IH]; intros [|y b];
    rewrite ?str_app_nil_l, ?str_app_cons.
  - done.
  - intros H. apply (f_equal String.length) in H.
    cbn [String.length] in H. rewrite str_length_app in H. lia.
  - intros H. apply (f_equal String.length) in H.
    cbn [String.length] in H. rewrite str_length_app in H. lia.
  - intros [= -> H]. f_equal. by apply IH.
Qed.

Lemma int_of_str_unsigned (s : string) :
  all_chars PyText.is_digit s = true → s ≠ EmptyString →
  PyText.int_of_str s
  = match NilEmpty.uint_of_string s with
    | Some d => Some (Z.of_uint d)
    | None => None
    end.
Proof.
  intros Hdig Hne. unfold PyText.int_of_str.
  rewrite spaceless_strip_id by by apply all_digits_spaceless.
  destruct s as [|c s']; [done|].
  assert (Hc : PyText.is_digit c = true) by by apply andb_prop in Hdig as [? _].
  replace (match String c s' with
           | String "-" r => (true, r) | String "+" r => (false, r)
           | _ => (false, String c s') end) with (false, String c s').
  - by rewrite digits_of_all_digits.
  - destruct c as [[] [] [] [] [] [] [] []]; try done.
Qed.

Lemma all_chars_app (p : ascii → bool) (a b : string) :
  all_chars p (a +:+ b) = all_chars p a && all_chars p b.
Proof.
  induction a as [|c a IH]; rewrite ?str_app_nil_l, ?str_app_cons; [done|].
  cbn [all_chars]. by rewrite IH, andb_assoc.
Qed.

Lemma int_of_str_zeros (j : nat) (s : string) :
  all_chars PyText.is_digit s = true → s ≠ EmptyString →
  PyText.int_of_str (PyText.zeros j +:+ s) = PyText.int_of_str s.
Proof.
  intros Hdig Hne. induction j as [|j IH]; [done|].
  cbn [PyText.zeros]. rewrite str_app_cons.
  rewrite <- IH.
  assert (Hz : all_chars PyText.is_digit (PyText.zeros j +:+ s) = true).
  { rewrite all_chars_app, Hdig, andb_true_r. clear. by induction j. }
  assert (Hnz : PyText.zeros j +:+ s ≠ EmptyString).
  { destruct j; [done|]. cbn [PyText.zeros]. by rewrite str_app_cons. }
  rewrite !int_of_str_unsigned; [|done|done|by cbn; rewrite Hz|done].
  cbn [NilEmpty.uint_of_string].
  by destruct (NilEmpty.uint_of_string (PyText.zeros j +:+ s)).
Qed.

Lemma str_of_int_digits (n : Z) :
  0 <= n →
  all_chars PyText.is_digit (PyText.str_of_int n) = true
  ∧ PyText.str_of_int n ≠ EmptyString.
Proof.
  intros Hn. unfold PyText.str_of_int. destruct n as [|p|p]; [done| |lia].
  cbn [Z.to_int NilZero.string_of_int].
  pose proof (Unsigned.to_uint_nonnil p) as Hd.
  assert (NilZero.string_of_uint (Pos.to_uint p)
          = NilEmpty.string_of_uint (Pos.to_uint p)) as ->
    by by destruct (Pos.to_uint p).
  split; [apply digits_of_uint | by apply string_of_uint_nonempty].
Qed.

(** Reading back a zero-padded frame number. *)
Lemma int_of_format_03d (n : Z) :
  0 <= n → PyText.int_of_str (PyText.format_03d n) = Some n.
Proof.
  intros Hn. unfold PyText.format_03d.
  destruct (Z.ltb_spec n 0); [lia|]. unfold PyText.zfill.
  destruct (str_of_int_digits n Hn) as [Hd Hne].
  rewrite int_of_str_zeros by done. apply int_of_str_of_int.
Qed.

Lemma frame_path_inj (output_dir : string) (a b : Z) :
  0 <= a → 0 <= b →
  ExtractionService.frame_path output_dir a = ExtractionService.frame_path output_dir b →
  a = b.
Proof.
  intros Ha Hb H. unfold ExtractionService.frame_path in H.
  apply join_inj in H; [|done|done].
  apply str_app_inv_l in H. apply str_app_inv_r in H.
  apply (f_equal PyText.int_of_str) in H.
  rewrite !int_of_format_03d in H by done. by injection H.
Qed.

Section FrameLoop.

Import ExtractionService.

Variable read : Z → bool.

Lemma multiples_S (start step : Z) (n : nat) :
  multiples start step (S n) = start :: multiples (start + step) step n.
Proof.
  unfold multiples. cbn [seq fmap list_fmap]. f_equal; [lia|].
  rewrite <- fmap_S_seq, <- list_fmap_compose.
  apply list_fmap_ext. intros _ i _. cbn. lia.
Qed.

Lemma frame_names_S (output_dir : string) (first : Z) (n : nat) :
  frame_names output_dir first (S n)
  = frame_path output_dir first :: frame_names output_dir (first + 1) n.
Proof.
  unfold frame_names. cbn [seq fmap list_fmap]. f_equal; [f_equal; lia|].
  rewrite <- fmap_S_seq, <- list_fmap_compose.
  apply list_fmap_ext. intros _ i _. cbn. f_equal. lia.
Qed.

Lemma capture_loop_run (output_dir : string) (total_frames frame_interval : Z) :
  1 <= frame_interval →
  ∀ fuel current_frame frame_count,
    (Z.to_nat (total_frames - current_frame) <= fuel)%nat →
    ∃ cs,
      capture_loop read fuel output_dir total_frames frame_interval
        current_frame frame_count
      = Some (cs, frame_count + Z.of_nat (length (saved cs)))
      ∧ position <$> cs = multiples current_frame frame_interval (length cs)
      ∧ Forall (λ p, p < total_frames) (position <$> cs)
      ∧ total_frames <= Z.max current_frame
                          (current_frame + Z.of_nat (length cs) * frame_interval)
      ∧ saved cs = frame_names output_dir frame_count (length (saved cs))
      ∧ Forall (λ c, read (position c) = bool_decide (is_Some (saved_path c))) cs.
Proof.
  intros Hk. induction fuel as [|fuel IH]; intros cur cnt Hfuel.
  - exists []. cbn [capture_loop].
    destruct (Z.ltb_spec cur total_frames); [lia|].
    cbn. rewrite Z.add_0_r. repeat split; try done. lia.
  - cbn [capture_loop]. destruct (Z.ltb_spec cur total_frames) as [Hlt|Hge].
    + destruct (read cur) eqn:Hr.
      * destruct (IH (cur + frame_interval) (cnt + 1)) as (cs & -> & Hp & Hb & Hc & Hs & Hrd);
          [lia|].
        exists (Saved cur (frame_path output_dir cnt) :: cs).
        cbn [saved omap list_omap saved_path length fmap list_fmap position].
        fold (saved cs). cbn [length].
        rewrite multiples_S, frame_names_S, <- Hs, <- Hp.
        repeat split.
        -- do 2 f_equal. lia.
        -- by constructor.
        -- lia.
        -- constructor; [|done]. cbn [position saved_path]. rewrite Hr.
           symmetry. by apply bool_decide_eq_true_2.
      * destruct (IH (cur + frame_interval) cnt) as (cs & -> & Hp & Hb & Hc & Hs & Hrd);
          [lia|].
        exists (Unreadable cur :: cs).
        cbn [saved omap list_omap saved_path length fmap list_fmap position].
        fold (saved cs).
        rewrite multiples_S, <- Hp.
        repeat split; try done.
        -- by constructor.
        -- lia.
        -- constructor; [|done]. cbn [position saved_path]. rewrite Hr.
           symmetry. apply bool_decide_eq_false_2. by intros [? ?].
    + exists []. cbn. rewrite Z.add_0_r. repeat split; try done. lia.
Qed.

Lemma frame_names_NoDup (output_dir : string) (first : Z) (n : nat) :
  0 <= first → NoDup (frame_names output_dir first n).
Proof.
  intros Hf. unfold frame_names. apply NoDup_fmap_2_strong; [|apply NoDup_seq].
  intros i j _ _ H. apply frame_path_inj in H; lia.
Qed.

(** The loop never ends when the interval is not positive and there is a
    frame to read. *)
Lemma capture_loop_stuck (output_dir : string) (total_frames frame_interval : Z) :
  frame_interval <= 0 →
  ∀ fuel current_frame frame_count,
    current_frame < total_frames → current_frame <= 0 →
    capture_loop read fuel output_dir total_frames frame_interval
      current_frame frame_count = None.
Proof.
  intros Hk. induction fuel as [|fuel IH]; intros cur cnt Hlt Hcur;
    cbn [capture_loop]; destruct (Z.ltb_spec cur total_frames); try lia; [done|].
  destruct (read cur); rewrite IH; try done; lia.
Qed.

End FrameLoop.

(** ** Lemmas: the path of the reduced video *)

Lemma rfind_single_last (c : ascii) (s : string) (i : nat) :
  PyStr.rfind (single c) s < Z.of_nat i → String.get i s ≠ Some c.
Proof.
  revert i. induction s as [|a s IH]; intros i; [by destruct i|].
  cbn [PyStr.rfind]. rewrite prefix_single_cons.
  pose proof (rfind_single_range c s) as Hr.
  destruct (Z.leb_spec 0 (PyStr.rfind (single c) s)) as [H0|H0].
  - intros Hlt. destruct i as [|i]; [lia|]. cbn [String.get]. apply IH. lia.
  - case_bool_decide as Hca.
    + intros Hlt. destruct i as [|i]; [lia|]. cbn [String.get]. apply IH. lia.
    + intros _. destruct i as [|i]; cbn [String.get]; [congruence|]. apply IH. lia.
Qed.

Lemma absent_drop (c : ascii) (p : string) (n : Z) :
  PyStr.rfind (single c) p < n → absent c (OsPath.drop n p).
Proof.
  intros Hn i. unfold OsPath.drop.
  destruct (decide (i < String.length p - Z.to_nat n)%nat) as [Hi|Hi].
  - rewrite String.substring_correct1 by done.
    apply rfind_single_last. pose proof (rfind_single_range c p). lia.
  - rewrite String.substring_correct2 by lia. done.
Qed.

Lemma splitext_ext_in_name (p : string) : absent "/" (OsPath.splitext p).2.
Proof.
  unfold OsPath.splitext.
  destruct (_ && _) eqn:E; cbn [snd]; [|apply absent_nil].
  apply andb_prop in E as [Hlt%Z.ltb_lt _].
  by apply (absent_drop "/").
Qed.

Lemma reduced_path_shape (video_path : string) :
  GeminiService.reduced_path video_path
  = (OsPath.splitext video_path).1 +:+ "_reduced" +:+ (OsPath.splitext video_path).2.
Proof. unfold GeminiService.reduced_path. by destruct (OsPath.splitext video_path). Qed.

Lemma reduced_path_length (video_path : string) :
  String.length (GeminiService.reduced_path video_path)
  = (String.length video_path + 8)%nat.
Proof.
  rewrite reduced_path_shape, !str_length_app.
  rewrite <- (splitext_concat video_path) at 3. rewrite str_length_app.
  cbn [String.length]. lia.
Qed.

Lemma reduced_path_fresh (video_path : string) :
  GeminiService.reduced_path video_path ≠ video_path.
Proof.
  intros H. apply (f_equal String.length) in H.
  rewrite reduced_path_length in H. lia.
Qed.

(** ** Lemmas: the loop of the second analysis service *)

Lemma required_absent {A} (field : json → option A) (d : gmap string json)
    (k : string) :
  d !! k = None → Pydantic.required field d k = None.
Proof. intros H. unfold Pydantic.required. by rewrite H. Qed.

Lemma validate_without_description (d : gmap string json) :
  d !! "descripcion_original" = None →
  ∃ fields, VideoAnalysis.validate d = inl (ValidationError fields d)
    ∧ "descripcion_original" ∈ fields.
Proof.
  intros H. unfold VideoAnalysis.validate.
  cbv zeta. rewrite (required_absent Pydantic.validate_str d _ H).
  cbn [mbind option_bind]. eexists. split; [reflexivity|].
  cbn [Pydantic.rejects app]. apply list_elem_of_here.
Qed.

Section SecondLoop.

Variable provider : string.
Variable format_prompt : exn + string.
Variable str_validation_error : list string → gmap string json → string.


Lemma construct_fails (content : json) :
  ∃ fields, VideoAnalysisService.construct content
      = inl (ValidationError fields {[ "result" := content ]})
    ∧ "descripcion_original" ∈ fields.
Proof. by apply validate_without_description. Qed.

Lemma attempt_no_analysis (invoke : Z → reply) (max_retries retry_count : Z)
    (evs : list event) (o : outcome) :
  VideoAnalysisService.attempt provider format_prompt str_validation_error
    invoke max_retries retry_count = (evs, Exit o) → returned o = None.
Proof.
  unfold VideoAnalysisService.attempt.
  destruct (if String.eqb provider "gemini" then _ else _) as [e|m];
    [by intros [= <- <-]|].
  destruct (invoke retry_count) as [content|msg].
  - destruct (construct_fails (JStr content)) as (fields & -> & _).
    unfold handle. intros [= _ H]. revert H.
    repeat case_match; by intros [= <-].
  - unfold handle. intros [= _ H]. revert H.
    repeat case_match; by intros [= <-].
Qed.

Lemma retry_loop_no_analysis (fuel : nat) (invoke : Z → reply)
    (max_retries retry_count : Z) :
  (Z.to_nat (max_retries + 1 - retry_count) <= fuel)%nat →
  ∃ evs o, VideoAnalysisService.retry_loop provider format_prompt
        str_validation_error fuel invoke max_retries retry_count = Some (evs, o)
    ∧ returned o = None.
Proof.
  revert retry_count. induction fuel as [|fuel IH]; intros rc Hfuel;
    cbn [VideoAnalysisService.retry_loop].
  - destruct (Z.leb_spec rc max_retries); [lia|]. by eexists _, _.
  - destruct (Z.leb_spec rc max_retries); [|by eexists _, _].
    destruct (VideoAnalysisService.attempt _ _ _ invoke max_retries rc) as [evs [w|o]] eqn:Ha.
    + destruct (IH (rc + 1)) as (evs' & o & -> & Ho); [lia|]. by eexists _, _.
    + apply attempt_no_analysis in Ha. by eexists _, _.
Qed.

End SecondLoop.

(** ** Lemmas: the yt-dlp command lines *)

Lemma prefix_nil (s : string) : String.prefix EmptyString s = true.
Proof. by destruct s. Qed.

Lemma prefix_app_sep (sep : ascii) (needle a b : string) :
  absent sep needle →
  String.prefix needle (a +:+ String sep b) = String.prefix needle a.
Proof.
  revert a. induction needle as [|c needle IH]; intros a Hn.
  - by rewrite !prefix_nil.
  - apply absent_cons in Hn as [Hc Hn].
    destruct a as [|x a]; rewrite ?str_app_nil_l, ?str_app_cons; cbn [String.prefix].
    + destruct (ascii_dec c sep); [congruence | done].
    + destruct (ascii_dec c x); [by apply IH | done].
Qed.

Lemma contains_app_sep (sep : ascii) (needle a b : string) :
  absent sep needle →
  PyStr.contains needle (a +:+ String sep b)
  = PyStr.contains needle a || PyStr.contains needle b.
Proof.
  intros Hn. induction a as [|x a IH]; rewrite ?str_app_nil_l, ?str_app_cons.
  - cbn [PyStr.contains]. rewrite <- (str_app_nil_l (String sep b)) at 1.
    rewrite prefix_app_sep by done. by rewrite orb_false_r.
  - cbn [PyStr.contains]. rewrite IH, <- str_app_cons, prefix_app_sep by done.
    by rewrite orb_assoc.
Qed.

Lemma contains_join (sep : ascii) (needle : string) (items : list string) :
  absent sep needle → needle ≠ EmptyString →
  PyStr.contains needle (PyText.join (single sep) items)
  = existsb (PyStr.contains needle) items.
Proof.
  intros Hn Hne. induction items as [|x items IH].
  - cbn. by destruct needle.
  - destruct items as [|y items].
    + cbn [PyText.join existsb]. by rewrite orb_false_r.
    + change (PyText.join (single sep) (x :: y :: items))
        with (x +:+ single sep +:+ PyText.join (single sep) (y :: items)).
      unfold single at 1. rewrite str_app_cons, str_app_nil_l.
      rewrite contains_app_sep, IH by done. done.
Qed.

Lemma existsb_app_false {A} (p : A → bool) (l k : list A) :
  existsb p l = false → existsb p k = false → existsb p (l ++ k) = false.
Proof. intros Hl Hk. by rewrite existsb_app, Hl, Hk. Qed.

Lemma cookies_flag_spaceless : absent " " cookies_flag.
Proof.
  apply absent_by_contains. reflexivity.
Qed.

Section Commands.

Variables USER_AGENT INSTAGRAM_USERNAME INSTAGRAM_PASSWORD : string.
Variables INSTAGRAM_BROWSER INSTAGRAM_PROFILE INSTAGRAM_COOKIES_FILE : string.
Variable cookies_file_exists : bool.
Variable run : nat → list string → Z * string.

(** The command line is searched as one text: the flag is found only if
    one of its items holds it. *)
Lemma flag_in_command (cmd : list string) :
  PyStr.contains "--cookies-from-browser" (PyText.join " " cmd)
  = existsb (PyStr.contains cookies_flag) cmd.
Proof. apply (contains_join " "); [apply cookies_flag_spaceless | done]. Qed.

Lemma run_with_fallback_runs (url : string) (basic_cmd cmd : list string) :
  let '(runs, success) :=
    DownloadService.run_with_fallback INSTAGRAM_USERNAME INSTAGRAM_PASSWORD
      INSTAGRAM_BROWSER INSTAGRAM_PROFILE run url basic_cmd cmd in
  (∃ second, runs = cmd :: second ∧ (length second <= 1)%nat)
  ∧ success = ((run (length runs - 1)%nat (List.last runs cmd)).1 =? 0)
  ∧ ((run 0%nat cmd).1 = 0 → runs = [cmd])
  ∧ (PyStr.contains "instagram.com" url = false → runs = [cmd]).
Proof.
  unfold DownloadService.run_with_fallback.
  destruct (run 0%nat cmd) as [returncode stderr] eqn:Hrun.
  destruct (Z.eqb_spec returncode 0) as [->|Hrc].
  - cbn. rewrite Hrun. split; [exists []; split; [done | cbn; lia]|]. done.
  - destruct (PyStr.contains "instagram.com" url); cbn [andb].
    + destruct (_ || _).
      * destruct (_ && _); cbn [length Nat.sub List.last fst];
          (split; [eexists [_]; split; [done | cbn; lia]|]); repeat split; done.
      * cbn. rewrite Hrun. cbn. split; [exists []; split; [done | cbn; lia]|].
        repeat split; try done. by apply Z.eqb_neq in Hrc as ->.
    + cbn. rewrite Hrun. cbn. split; [exists []; split; [done | cbn; lia]|].
      repeat split; try done. by apply Z.eqb_neq in Hrc as ->.
Qed.

(** With the flag in none of the items that come from the caller or from
    the settings, a command that holds it was built by the third method,
    which is only reached without credentials: the retry is the
    unauthenticated command. *)
Lemma retry_is_unauthenticated (url : string) (basic_cmd : list string) :
  existsb (PyStr.contains cookies_flag) basic_cmd = false →
  PyStr.contains cookies_flag INSTAGRAM_COOKIES_FILE = false →
  PyStr.contains cookies_flag INSTAGRAM_USERNAME = false →
  PyStr.contains cookies_flag INSTAGRAM_PASSWORD = false →
  let cmd :=
    DownloadService.add_auth INSTAGRAM_USERNAME INSTAGRAM_PASSWORD INSTAGRAM_BROWSER
      INSTAGRAM_PROFILE INSTAGRAM_COOKIES_FILE cookies_file_exists url basic_cmd in
  let runs :=
    (DownloadService.run_with_fallback INSTAGRAM_USERNAME INSTAGRAM_PASSWORD
       INSTAGRAM_BROWSER INSTAGRAM_PROFILE run url basic_cmd cmd).1 in
  runs = [cmd] ∨ runs = [cmd; basic_cmd].
Proof.
  intros Hb Hf Hu Hp. cbn zeta.
  unfold DownloadService.run_with_fallback.
  destruct (run 0%nat _) as [returncode stderr].
  destruct (returncode =? 0); [by left|].
  destruct (_ && (_ || _)); [|by left].
  rewrite flag_in_command.
  match goal with |- context [existsb ?p ?c && ?u && ?w] =>
    assert (existsb p c && u && w = false) as ->; [|by right] end.
  unfold DownloadService.add_auth.
  destruct (PyStr.contains "instagram.com" url);
    [|by rewrite Hb].
  destruct cookies_file_exists.
  { rewrite existsb_app_false; [done|done|]. cbn. by rewrite Hf. }
  destruct (DownloadService.truthy INSTAGRAM_USERNAME
            && DownloadService.truthy INSTAGRAM_PASSWORD) eqn:Hcred.
  { unfold DownloadService.with_credentials.
    rewrite existsb_app_false; [done|done|]. cbn. by rewrite Hu, Hp. }
  rewrite <- andb_assoc, Hcred. apply andb_false_r.
Qed.

End Commands.

(** ** Lemmas: indices, URLs and rows of the spreadsheet *)

Lemma split_on_nonempty (sep : ascii) (s : string) : PyText.split_on sep s ≠ [].
Proof.
  induction s as [|c s IH]; cbn [PyText.split_on]; [done|].
  destruct (Ascii.eqb c sep); [done|]. by destruct (PyText.split_on sep s).
Qed.

Lemma split_on_absent (sep : ascii) (s : string) :
  absent sep s → PyText.split_on sep s = [s].
Proof.
  induction s as [|c s IH]; [done|]. intros [Hne Hs]%absent_cons.
  cbn [PyText.split_on]. rewrite (proj2 (Ascii.eqb_neq c sep) Hne).
  by rewrite IH.
Qed.

(** Cutting at a separator cuts the list of pieces. *)
Lemma split_on_app (sep : ascii) (a b : string) :
  PyText.split_on sep (a +:+ String sep b)
  = PyText.split_on sep a ++ PyText.split_on sep b.
Proof.
  induction a as [|c a IH]; rewrite ?str_app_nil_l, ?str_app_cons.
  - cbn [PyText.split_on]. by rewrite Ascii.eqb_refl.
  - cbn [PyText.split_on]. rewrite IH. destruct (Ascii.eqb c sep); [done|].
    pose proof (split_on_nonempty sep a).
    by destruct (PyText.split_on sep a).
Qed.

Lemma last_app_nonempty {A} (l k : list A) (d : A) :
  k ≠ [] → List.last (l ++ k) d = List.last k d.
Proof.
  intros Hk. induction l as [|x l IH]; [done|].
  cbn [app]. cbn [List.last]. rewrite IH.
  destruct (l ++ k) eqn:E; [|done]. by apply app_eq_nil in E as [_ ->].
Qed.

Lemma last_piece_after_sep (sep : ascii) (a b : string) :
  absent sep b →
  PyText.last_piece (PyText.split_on sep (a +:+ String sep b)) = b.
Proof.
  intros Hb. unfold PyText.last_piece.
  rewrite split_on_app, last_app_nonempty by apply split_on_nonempty.
  by rewrite split_on_absent.
Qed.

Lemma contains_app_r (needle a t : string) :
  String.prefix needle t = true → PyStr.contains needle (a +:+ t) = true.
Proof.
  intros Ht. induction a as [|c a IH]; rewrite ?str_app_nil_l, ?str_app_cons.
  - destruct t; cbn [PyStr.contains]; by rewrite Ht.
  - cbn [PyStr.contains]. rewrite IH. apply orb_true_r.
Qed.

Lemma all_chars_absent (p : ascii → bool) (c : ascii) (s : string) :
  p c = false → all_chars p s = true → absent c s.
Proof.
  intros Hc. induction s as [|a s IH]; [intros _; apply absent_nil|].
  cbn [all_chars]. intros [Ha Hs]%andb_prop. apply absent_cons.
  split; [congruence | by apply IH].
Qed.

Lemma str_of_int_chars (n : Z) :
  all_chars is_sign_or_digit (PyText.str_of_int n) = true.
Proof.
  assert (Hmono : ∀ s, all_chars PyText.is_digit s = true →
                       all_chars is_sign_or_digit s = true).
  { induction s as [|c s IH]; [done|]. cbn [all_chars].
    intros [Hc Hs]%andb_prop. unfold is_sign_or_digit at 1.
    by rewrite Hc, orb_true_r, IH. }
  destruct (Z.lt_ge_cases n 0) as [Hneg|Hpos].
  - destruct n as [|p|p]; try lia. unfold PyText.str_of_int.
    cbn [Z.to_int NilZero.string_of_int]. cbn [all_chars].
    apply andb_true_intro. split; [done|]. apply Hmono.
    destruct (str_of_int_digits (Z.pos p)) as [H _]; [lia|]. exact H.
  - apply Hmono. by apply str_of_int_digits.
Qed.

Lemma str_of_int_absent (c : ascii) (n : Z) :
  is_sign_or_digit c = false → absent c (PyText.str_of_int n).
Proof. intros Hc. eapply all_chars_absent; [exact Hc | apply str_of_int_chars]. Qed.

(** The index is read back from any directory name that ends in an
    underscore and the number as [str] prints it. *)
Lemma parse_index_numbered (stem : string) (n : Z) :
  ExcelService.parse_index (stem +:+ "_" +:+ PyText.str_of_int n) = n.
Proof.
  unfold ExcelService.parse_index.
  change ("_" +:+ PyText.str_of_int n) with (String "_" (PyText.str_of_int n)).
  rewrite contains_app_r by apply (prefix_single_cons "_" "_").
  rewrite last_piece_after_sep by by apply str_of_int_absent.
  by rewrite int_of_str_of_int.
Qed.

Lemma parse_index_file_name (index : Z) :
  ExcelService.parse_index (ContentController.file_name index) = index.
Proof. apply (parse_index_numbered "archivo"). Qed.

Lemma enumerate_urls_lookup (items : list json) (i k : Z) (m : gmap Z json) :
  ExcelService.enumerate_urls i items m !! k
  = match (if decide (i < k) then items !! Z.to_nat (k - i - 1) ≫= url_of else None) with
    | Some url => Some url
    | None => m !! k
    end.
Proof.
  revert i m. induction items as [|r items IH]; intros i m;
    cbn [ExcelService.enumerate_urls].
  - by destruct (decide (i < k)).
  - rewrite IH. destruct (decide (i + 1 < k)) as [Hk|Hk].
    + rewrite decide_True by lia.
      replace (Z.to_nat (k - i - 1)) with (S (Z.to_nat (k - (i + 1) - 1))) by lia.
      cbn [lookup list_lookup].
      destruct (_ ≫= url_of); [done|].
      destruct r as [| | | | | |d]; try done.
      destruct (d !! "url"); [|done]. rewrite lookup_insert_ne; [done | lia].
    + destruct (decide (i < k)) as [Hik|Hik].
      * assert (k = i + 1) as -> by lia.
        replace (Z.to_nat (i + 1 - i - 1)) with 0%nat by lia.
        cbn [lookup list_lookup mbind option_bind].
        destruct r as [| | | | | |d]; try done. cbn [url_of].
        destruct (d !! "url"); [|done]. by rewrite lookup_insert_eq.
      * destruct r as [| | | | | |d]; try done.
        destruct (d !! "url"); [|done]. rewrite lookup_insert_ne; [done | lia].
Qed.

Lemma load_results_data_lookup (items : list json) (k : Z) :
  ExcelService.load_results_data (JList items) !! k
  = if decide (1 <= k) then items !! Z.to_nat (k - 1) ≫= url_of else None.
Proof.
  unfold ExcelService.load_results_data. rewrite enumerate_urls_lookup.
  destruct (decide (0 < k)), (decide (1 <= k)); try lia; [|done].
  replace (k - 0 - 1) with (k - 1) by lia. by destruct (_ ≫= url_of).
Qed.

Lemma load_results_data_other (processing_results : json) (k : Z) :
  (∀ items, processing_results ≠ JList items) →
  ExcelService.load_results_data processing_results !! k = None.
Proof. intros H. destruct processing_results; try done. by destruct (H l). Qed.

Section RowCells.

Variable json_dumps : json → string.

Lemma row_cells_lookup (init fields : gmap string json) (k : string) :
  map_fold (λ key value row, <[key := ExcelService.cell json_dumps value]> row)
    init fields !! k
  = match fields !! k with
    | Some v => Some (ExcelService.cell json_dumps v)
    | None => init !! k
    end.
Proof.
  apply (map_fold_weak_ind
           (λ row m, row !! k = match m !! k with
                                | Some v => Some (ExcelService.cell json_dumps v)
                                | None => init !! k
                                end)); [done|].
  intros i x m r Hi IH. destruct (decide (i = k)) as [->|Hne].
  - by rewrite !lookup_insert_eq.
  - by rewrite !lookup_insert_ne.
Qed.

End RowCells.

Lemma excel_name_plain (date_dir : string) :
  absent "/" date_dir → absent "/" ("analisis_" +:+ date_dir +:+ ".xlsx").
Proof.
  intros H. rewrite !absent_app. split; [|split; [done|]];
    by apply absent_by_contains.
Qed.

Lemma absent_not_startswith (c : ascii) (s : string) :
  absent c s → PyStr.startswith (single c) s = false.
Proof. apply absent_not_prefix. Qed.

Lemma cleanup_targets (items : list string) (date_path date_dir : string) :
  absent "/" date_dir →
  Forall (λ item, PyStr.startswith "/" item = false) items →
  let excel_file := ExcelService.excel_path date_path date_dir in
  let '(targets, ok) :=
    ExcelService._cleanup_directory (Some items) date_path excel_file in
  ok = true
  ∧ (excel_file ∉ targets)
  ∧ (∀ item, item ∈ items → item ≠ "analisis_" +:+ date_dir +:+ ".xlsx" →
             OsPath.join date_path item ∈ targets).
Proof.
  intros Hd Hitems. cbn zeta. unfold ExcelService._cleanup_directory.
  unfold ExcelService.excel_path.
  rewrite basename_join by by apply excel_name_plain.
  split; [done|]. split.
  - intros (item & Heq & Hf)%list_elem_of_fmap.
    apply list_elem_of_filter in Hf as [Hne Hin].
    apply Hne. symmetry. eapply join_inj; [| |exact Heq].
    + by apply (absent_not_startswith "/"), excel_name_plain.
    + by eapply Forall_forall in Hitems.
  - intros item Hin Hne. apply list_elem_of_fmap. exists item. split; [done|].
    by apply list_elem_of_filter.
Qed.

(** ** Lemmas: the actions of the controller *)

Lemma is_link_true (line : string) :
  ContentController.is_link line = true ↔
  PyText.strip line ≠ EmptyString ∧ PyStr.startswith "#" (PyText.strip line) = false.
Proof.
  unfold ContentController.is_link.
  rewrite andb_true_iff, !negb_true_iff, String.eqb_neq. done.
Qed.

Lemma read_links_elem (lines : list string) (l : string) :
  l ∈ ContentController.read_links lines ↔
  ∃ line, line ∈ lines ∧ l = PyText.strip line ∧ l ≠ EmptyString
          ∧ PyStr.startswith "#" l = false.
Proof.
  unfold ContentController.read_links. rewrite list_elem_of_fmap. split.
  - intros (line & -> & [[Hne Hc]%is_link_true Hin]%list_elem_of_filter). eauto.
  - intros (line & Hin & -> & Hne & Hc). exists line. split; [done|].
    apply list_elem_of_filter. split; [|done]. by apply is_link_true.
Qed.

Lemma read_links_clean (lines : list string) :
  Forall clean_link (ContentController.read_links lines).
Proof.
  apply Forall_forall. intros l (line & _ & -> & Hne & Hc)%read_links_elem.
  split; [apply strip_idempotent | done].
Qed.

Lemma read_links_fixed (links : list string) :
  Forall clean_link links → ContentController.read_links links = links.
Proof.
  unfold ContentController.read_links.
  induction 1 as [|l links (Hs & Hne & Hc) _ IH]; [done|].
  rewrite filter_cons_True by (apply is_link_true; by rewrite Hs).
  cbn [fmap list_fmap]. fold (fmap (M:=list) PyText.strip). by rewrite IH, Hs.
Qed.

Lemma read_links_app (a b : list string) :
  ContentController.read_links (a ++ b)
  = ContentController.read_links a ++ ContentController.read_links b.
Proof. unfold ContentController.read_links. by rewrite filter_app, fmap_app. Qed.

Section LinkActions.

Import ContentController.

Variable exception : Type.
Variable download_video : string → string → exception + bool.
Variable extract_audio : string → string → exception + bool.
Variable extract_frames : string → string → exception + bool.
Variable analyze_video : string → exception + option VideoAnalysis.t.

Lemma process_link_actions (link output_dir : string) (index : Z) :
  let '(acts, res) :=
    process_link exception download_video extract_audio extract_frames
      analyze_video link output_dir index in
  Forall (λ a, is_batch_action a = false) acts
  ∧ (∃ rest, acts = DownloadVideo link (video_path output_dir index) :: rest)
  ∧ (∀ v, WriteAnalysis (analysis_path output_dir index) v ∈ acts ↔
          ∃ r, res = inr r ∧ analysis r = Some v)
  ∧ ∀ r, res = inr r →
      url r = link
      ∧ (video_success r = false →
         frames_success r = false ∧ analysis r = None ∧ length acts = 2%nat)
      ∧ (AnalyzeVideo (video_path output_dir index) ∈ acts ↔ video_success r = true).
Proof.
  unfold process_link, bind, call, ret, tell. cbv zeta.
  fold (video_path output_dir index). fold (analysis_path output_dir index).
  destruct (download_video _ _) as [e|[]];
    try (destruct (extract_audio _ _) as [e'|a]);
    try (destruct (extract_frames _ _) as [e''|f]);
    try (destruct (analyze_video _) as [e'''|[v|]]);
    cbn [app]; (split; [repeat constructor|]); (split; [eauto|]);
    (split; [intros w; rewrite ?elem_of_cons, elem_of_nil; split;
             [intros H; repeat destruct H as [H|H]; try done;
              injection H as <-; eauto
             |intros (r & [= <-] & [= ->]); tauto] |]);
    intros r [= <-]; cbn; rewrite ?elem_of_cons, elem_of_nil; intuition congruence.
Qed.

End LinkActions.

Lemma url_of_serializable_result (r : ContentController.result) :
  url_of (ContentController.serializable_result r)
  = Some (JStr (ContentController.url r)).
Proof. reflexivity. Qed.

Lemma results_name_is_results_file (date_str : string) :
  ExcelService.is_results_file (ContentController.results_name date_str) = true.
Proof.
  unfold ExcelService.is_results_file, ContentController.results_name.
  apply andb_true_intro. split.
  - unfold PyStr.startswith. rewrite !str_app_cons, str_app_nil_l.
    cbn [String.prefix]. repeat (destruct (ascii_dec _ _); [|done]).
    apply prefix_nil.
  - rewrite <- str_app_assoc. apply endswith_app.
Qed.

Lemma analysis_name_is_analysis_file (index : Z) :
  ExcelService.is_analysis_file (ContentController.analysis_name index) = true.
Proof. apply endswith_app. Qed.

Section BatchActions.

Import ContentController.

Variable exception : Type.
Variable download_video : string → string → exception + bool.
Variable extract_audio : string → string → exception + bool.
Variable extract_frames : string → string → exception + bool.
Variable analyze_video : string → exception + option VideoAnalysis.t.

Lemma process_links_actions (links : list string) (output_dir : string) (i : Z) :
  let '(acts, res) :=
    process_links exception download_video extract_audio extract_frames
      analyze_video links output_dir i in
  Forall (λ a, is_batch_action a = false) acts
  ∧ ∀ results, res = inr results →
      url <$> results = links
      ∧ ∀ (j : nat) (link : string), links !! j = Some link →
          DownloadVideo link (video_path output_dir (i + Z.of_nat j + 1)) ∈ acts.
Proof.
  revert i. induction links as [|link links IH]; intros i; cbn [process_links].
  - unfold ret. split; [constructor|]. by intros results [= <-].
  - unfold bind at 1.
    pose proof (process_link_actions exception download_video extract_audio
                  extract_frames analyze_video link output_dir (i + 1)) as Hl.
    destruct (process_link _ _ _ _ _ link output_dir (i + 1)) as [acts1 [e|r]].
    + destruct Hl as (Hb & _). split; [done|]. by intros results.
    + destruct Hl as (Hb & (rest & Hfirst) & _ & Hr).
      destruct (Hr r eq_refl) as (Hurl & _).
      unfold bind, ret. specialize (IH (i + 1)).
      destruct (process_links _ _ _ _ _ links output_dir (i + 1)) as [acts2 [e|rs]].
      * destruct IH as (Hb2 & _). split; [by apply Forall_app|]. by intros results.
      * destruct IH as (Hb2 & Hrs). destruct (Hrs rs eq_refl) as (Hurls & Hdl).
        rewrite app_nil_r. split; [by apply Forall_app|].
        intros results [= <-]. split; [cbn; by rewrite Hurl, Hurls|].
        intros [|j] l Hj.
        -- injection Hj as <-. rewrite Hfirst, Z.add_0_r. apply list_elem_of_here.
        -- apply elem_of_app. right.
           replace (i + Z.of_nat (S j) + 1) with (i + 1 + Z.of_nat j + 1) by lia.
           by apply Hdl.
Qed.

Lemma process_links_file_actions (lines : list string)
    (output_dir date_str : string) (dated_dir_exists : bool) :
  let '(acts, res) :=
    process_links_file exception download_video extract_audio extract_frames
      analyze_video (Some lines) output_dir date_str dated_dir_exists in
  match res with
  | inl _ => Forall (λ a, is_batch_action a = false) acts
  | inr results =>
      url <$> results = read_links lines
      ∧ (∃ before,
           acts = before
                  ++ (if dated_dir_exists || bool_decide (read_links lines ≠ [])
                      then [ WriteResults
                               (OsPath.join (OsPath.join output_dir date_str)
                                  (results_name date_str))
                               (JList (serializable_result <$> results)) ]
                      else [])
                  ++ [GenerateExcel output_dir]
           ∧ Forall (λ a, is_batch_action a = false) before)
      ∧ ∀ (j : nat) (link : string), read_links lines !! j = Some link →
          DownloadVideo link
            (video_path (OsPath.join output_dir date_str) (Z.of_nat j + 1)) ∈ acts
  end.
Proof.
  unfold process_links_file. cbv zeta. unfold bind at 1.
  pose proof (process_links_actions (read_links lines)
                (OsPath.join output_dir date_str) 0) as H.
  destruct (process_links _ _ _ _ _ (read_links lines) _ 0) as [acts [e|results]].
  - by destruct H.
  - destruct H as (Hb & Hr). destruct (Hr results eq_refl) as (Hurls & Hdl).
    unfold bind, tell, ret.
    destruct (dated_dir_exists || bool_decide (read_links lines ≠ []));
      cbn [app]; (split; [done|]); (split; [by exists acts|]);
      intros j link Hj; apply elem_of_app; left;
      (replace (Z.of_nat j + 1) with (0 + Z.of_nat j + 1) by lia); by apply Hdl.
Qed.

(** A links file without links: nothing is processed and, unless the dated
    directory happens to exist, nothing is written. *)
Lemma process_links_file_without_links (lines : list string)
    (output_dir date_str : string) :
  read_links lines = [] →
  process_links_file exception download_video extract_audio extract_frames
    analyze_video (Some lines) output_dir date_str false
  = ([GenerateExcel output_dir], inr []).
Proof.
  intros H. unfold process_links_file. cbv zeta. rewrite H.
  cbn [process_links]. reflexivity.
Qed.

End BatchActions.

(** The URL column of a link's row, from what the controller wrote. *)
Lemma row_url_of_results (json_dumps : json → string)
    (results : list ContentController.result) (j : nat) (link : string)
    (fields : gmap string json) :
  (ContentController.url <$> results) !! j = Some link →
  fields !! "url_video_original" = None →
  ∃ row,
    ExcelService.row_data json_dumps
      (ExcelService.load_results_data
         (JList (ContentController.serializable_result <$> results)))
      (ContentController.file_name (Z.of_nat j + 1)) (JDict fields) = Some row
    ∧ row !! "url_video_original" = Some (JStr link)
    ∧ ∀ k v, fields !! k = Some v → row !! k = Some (ExcelService.cell json_dumps v).
Proof.
  intros Hj Hf. unfold ExcelService.row_data.
  rewrite parse_index_file_name, load_results_data_lookup.
  rewrite decide_True by lia.
  replace (Z.to_nat (Z.of_nat j + 1 - 1)) with j by lia.
  rewrite list_lookup_fmap in Hj. rewrite list_lookup_fmap.
  destruct (results !! j) as [r|]; [|done]. injection Hj as <-.
  cbn [fmap option_fmap option_map mbind option_bind].
  rewrite url_of_serializable_result.
  eexists. split; [reflexivity|]. split.
  - by rewrite row_cells_lookup, Hf, lookup_singleton_eq.
  - intros k v Hk. by rewrite row_cells_lookup, Hk.
Qed.

(** ** Lemmas: repairing twice *)

Lemma fill_missing_fields_required (d : gmap string json) (f : string) :
  f ∈ required_fields → is_Some (fill_missing_fields d !! f).
Proof.
  intros Hf. rewrite fill_missing_fields_lookup.
  destruct (d !! f); [eauto|]. rewrite decide_True by done. eauto.
Qed.

Lemma field_mapping_targets_required (old new : string) :
  (old, new) ∈ field_mapping → new ∈ required_fields.
Proof.
  unfold field_mapping, required_fields. rewrite !elem_of_cons, elem_of_nil.
  intros [E|[E|[E|[]]]]; injection E as _ ->; auto 12.
Qed.

Lemma record_fields_required (k : string) :
  k ∈ record_fields →
  k ∈ required_fields ∧ k ≠ "hashtags"
  ∧ k ∉ field_mapping.*1 ++ field_mapping.*2.
Proof.
  unfold record_fields, required_fields, field_mapping.
  cbn [fmap list_fmap app fst snd]. intros Hk.
  rewrite !elem_of_cons, elem_of_nil in Hk. rewrite !not_elem_of_cons.
  destruct Hk as [->|[->|[->|[]]]];
    (split; [repeat first [apply list_elem_of_here | apply list_elem_of_further]|]);
    (split; [done|]); repeat split; done || apply not_elem_of_nil.
Qed.

Lemma repair_fills_record_field (d d' : gmap string json) (k : string) :
  k ∈ record_fields → d !! k = None → repair d = inr d' →
  d' !! k = Some placeholder.
Proof.
  intros Hk Hd H. destruct (record_fields_required k Hk) as (Hreq & Hne & Hmap).
  unfold repair in H. destruct (ensure_hashtags_inr _ _ H) as (Hkeep & _).
  rewrite Hkeep by done. rewrite fill_missing_fields_lookup.
  rewrite apply_field_mapping_other, Hd by done. by rewrite decide_True.
Qed.

Section Rejects.

Import Pydantic.

Lemma validate_rejects_placeholder (d : gmap string json) (k : string) :
  k ∈ record_fields → d !! k = Some placeholder →
  ∃ fields, VideoAnalysis.validate d = inl (ValidationError fields d) ∧ k ∈ fields.
Proof.
  unfold record_fields. rewrite !elem_of_cons, elem_of_nil.
  intros [->|[->|[->|[]]]] Hk.
  - assert (H : required (validate_list validate_str) d "acciones" = None)
      by (unfold required; by rewrite Hk).
    unfold VideoAnalysis.validate. rewrite H.
    match goal with
    | |- ∃ fields, match ?model with _ => _ end = _ ∧ _ =>
        assert (model = None) as ->
    end.
    { destruct (required validate_str d "descripcion_original"),
        (required validate_str d "titulo_portada"),
        (required validate_str d "idea_video"),
        (required validate_str d "gancho_video"); reflexivity. }
    eexists. split; [reflexivity|].
    do 4 (apply elem_of_app; right). apply elem_of_app. left. apply list_elem_of_here.
  - apply validate_rejects_dialogo. unfold required. by rewrite Hk.
  - assert (H : required MusicInfo.validate d "musica" = None)
      by (unfold required; by rewrite Hk).
    unfold VideoAnalysis.validate. rewrite H.
    match goal with
    | |- ∃ fields, match ?model with _ => _ end = _ ∧ _ =>
        assert (model = None) as ->
    end.
    { destruct (required validate_str d "descripcion_original"),
        (required validate_str d "titulo_portada"),
        (required validate_str d "idea_video"),
        (required validate_str d "gancho_video"),
        (required (validate_list validate_str) d "acciones"),
        (required DialogInfo.validate d "dialogo"); reflexivity. }
    eexists. split; [reflexivity|].
    do 6 (apply elem_of_app; right). apply elem_of_app. left. apply list_elem_of_here.
Qed.

End Rejects.

(** ** The controller and the spreadsheet *)

(** X1. The links of a links file are its lines with the surrounding
    whitespace removed, in order, without the blank lines and the lines
    whose first visible character is [#]: every link is non-empty, has no
    whitespace at either end and does not start with [#]; a text is a link
    exactly when it is the stripped form of such a line; and reading the
    links again as a file gives the same links. *)
Theorem links_are_the_clean_lines (lines : list string) :
  Forall clean_link (ContentController.read_links lines)
  ∧ (∀ l, l ∈ ContentController.read_links lines ↔
          ∃ line, line ∈ lines ∧ l = PyText.strip line ∧ l ≠ EmptyString
                  ∧ PyStr.startswith "#" l = false)
  ∧ ContentController.read_links (ContentController.read_links lines)
    = ContentController.read_links lines.
Proof.
  split; [apply read_links_clean|]. split; [apply read_links_elem|].
  apply read_links_fixed, read_links_clean.
Qed.

Section Batch.

Import ContentController.

Variable exception : Type.
Variable download_video : string → string → exception + bool.
Variable extract_audio : string → string → exception + bool.
Variable extract_frames : string → string → exception + bool.
Variable analyze_video : string → exception + option VideoAnalysis.t.

(** X2. Whatever the services answer, [process_link] starts with the video
    download into [archivo_N/archivo_N_video.mp4], never writes the results
    file or starts the spreadsheet, and writes [archivo_N_analysis.json]
    exactly when it returns a result that holds an analysis. A result it
    returns carries the link; when the video download failed, only the two
    downloads were run and the result has no frames and no analysis; the
    analysis service is called exactly when the video download succeeded. *)
Theorem process_link_control_flow (link output_dir : string) (index : Z) :
  let '(acts, res) :=
    process_link exception download_video extract_audio extract_frames
      analyze_video link output_dir index in
  Forall (λ a, is_batch_action a = false) acts
  ∧ (∃ rest, acts = DownloadVideo link (video_path output_dir index) :: rest)
  ∧ (∀ v, WriteAnalysis (analysis_path output_dir index) v ∈ acts ↔
          ∃ r, res = inr r ∧ analysis r = Some v)
  ∧ ∀ r, res = inr r →
      url r = link
      ∧ (video_success r = false →
         frames_success r = false ∧ analysis r = None ∧ length acts = 2%nat)
      ∧ (AnalyzeVideo (video_path output_dir index) ∈ acts ↔ video_success r = true).
Proof. apply process_link_actions. Qed.

(** X3. [process_links_file] returns the empty list without doing anything
    when the links file does not exist. Otherwise, if a service call raises,
    the batch stops there: neither the results file nor the spreadsheet is
    produced. If none raises, there is one result per link, in the order of
    the file, the j-th link (from 0) was downloaded into the directory
    numbered j+1, and the batch ends by generating the spreadsheets of the
    base output directory, the only action of its kind. Just before that,
    [processing_results_<date>.json] is written in the dated directory, but
    only if that directory exists: it does after a batch of at least one
    link, or if it was there before. For a links file without links (the
    one [main.py] creates) and no dated directory, no results file is
    written and the spreadsheet step is all that happens. *)
Theorem batch_reports_only_at_the_end (lines : list string)
    (output_dir date_str : string) (dated_dir_exists : bool) :
  process_links_file exception download_video extract_audio extract_frames
    analyze_video None output_dir date_str dated_dir_exists = ([], inr [])
  ∧ (read_links lines = [] →
     process_links_file exception download_video extract_audio extract_frames
       analyze_video (Some lines) output_dir date_str false
     = ([GenerateExcel output_dir], inr []))
  ∧ let '(acts, res) :=
      process_links_file exception download_video extract_audio extract_frames
        analyze_video (Some lines) output_dir date_str dated_dir_exists in
    match res with
    | inl _ => Forall (λ a, is_batch_action a = false) acts
    | inr results =>
        url <$> results = read_links lines
        ∧ (∃ before,
             acts = before
                    ++ (if dated_dir_exists || bool_decide (read_links lines ≠ [])
                        then [ WriteResults
                                 (OsPath.join (OsPath.join output_dir date_str)
                                    (results_name date_str))
                                 (JList (serializable_result <$> results)) ]
                        else [])
                    ++ [GenerateExcel output_dir]
             ∧ Forall (λ a, is_batch_action a = false) before)
        ∧ ∀ (j : nat) (link : string), read_links lines !! j = Some link →
            DownloadVideo link
              (video_path (OsPath.join output_dir date_str) (Z.of_nat j + 1)) ∈ acts
    end.
Proof.
  split; [done|]. split; [apply process_links_file_without_links|].
  apply process_links_file_actions.
Qed.

(** X4. The controller and the spreadsheet service agree on the numbering:
    when a batch returns, the results file it wrote has a name the
    spreadsheet service looks for, and from its content the row built for
    the directory [archivo_<j+1>] gets the j-th link of the links file as
    its [url_video_original], for an analysis that has no key of that
    name. *)
Theorem spreadsheet_row_carries_the_link (json_dumps : json → string)
    (lines : list string) (output_dir date_str : string) (dated_dir_exists : bool)
    (results : list result) (j : nat) (link : string) (fields : gmap string json) :
  (process_links_file exception download_video extract_audio extract_frames
     analyze_video (Some lines) output_dir date_str dated_dir_exists).2
  = inr results →
  read_links lines !! j = Some link →
  fields !! "url_video_original" = None →
  ∃ written row,
    WriteResults (OsPath.join (OsPath.join output_dir date_str) (results_name date_str))
      written
    ∈ (process_links_file exception download_video extract_audio extract_frames
         analyze_video (Some lines) output_dir date_str dated_dir_exists).1
    ∧ ExcelService.is_results_file (results_name date_str) = true
    ∧ ExcelService.row_data json_dumps (ExcelService.load_results_data written)
        (file_name (Z.of_nat j + 1)) (JDict fields) = Some row
    ∧ row !! "url_video_original" = Some (JStr link).
Proof.
  intros Hres Hj Hf.
  pose proof (process_links_file_actions exception download_video extract_audio
                extract_frames analyze_video lines output_dir date_str
                dated_dir_exists) as H.
  destruct (process_links_file _ _ _ _ _ (Some lines) output_dir date_str _)
    as [acts res].
  cbn [fst snd] in *. subst res. destruct H as (Hurls & (before & -> & _) & _).
  destruct (row_url_of_results json_dumps results j link fields)
    as (row & Hrow & Hurl & _); [by rewrite Hurls | done |].
  exists (JList (serializable_result <$> results)), row.
  split; [|split; [apply results_name_is_results_file | done]].
  assert (bool_decide (read_links lines ≠ []) = true) as ->.
  { apply bool_decide_eq_true_2. intros E. by rewrite E in Hj. }
  rewrite orb_true_r. apply elem_of_app. right. apply list_elem_of_here.
Qed.

End Batch.

Lemma batch_reports_only_at_the_end_witness :
  ContentController.process_links_file unit no_download no_download no_frames
    no_analysis (Some comment_lines) "data/output" "2025-01-01_10-00-00" false
  = ([ContentController.GenerateExcel "data/output"], inr []).
Proof.
  destruct (batch_reports_only_at_the_end unit no_download no_download no_frames
              no_analysis comment_lines "data/output" "2025-01-01_10-00-00" false)
    as (_ & H & _).
  apply H. reflexivity.
Defined.

Lemma spreadsheet_row_carries_the_link_witness :
  ∃ written row,
    ContentController.WriteResults
      (OsPath.join (OsPath.join "output" "2025-01-01_10-00-00")
         (ContentController.results_name "2025-01-01_10-00-00"))
      written
    ∈ (ContentController.process_links_file unit no_download no_download
         no_frames no_analysis (Some sample_lines) "output" "2025-01-01_10-00-00"
         false).1
    ∧ ExcelService.is_results_file
        (ContentController.results_name "2025-01-01_10-00-00") = true
    ∧ ExcelService.row_data (λ _, EmptyString) (ExcelService.load_results_data written)
        (ContentController.file_name (Z.of_nat 1 + 1)) (JDict ∅) = Some row
    ∧ row !! "url_video_original" = Some (JStr "https://example.com/v/2").
Proof.
  apply (spreadsheet_row_carries_the_link unit no_download no_download no_frames
           no_analysis (λ _, EmptyString) sample_lines "output"
           "2025-01-01_10-00-00" false sample_results 1 "https://example.com/v/2" ∅);
    reflexivity.
Defined.


(** X6. The URLs of the results file are indexed by position, from 1:
    [results_data] holds at [k] the [url] member of the entry at position
    [k - 1] when that entry is an object with such a member, and nothing
    otherwise; an entry that is skipped does not shift the numbers of the
    entries after it, and a results file that is not a list gives no URL. *)
Theorem results_data_is_indexed_by_position (processing_results : json) (k : Z) :
  ExcelService.load_results_data processing_results !! k
  = match processing_results with
    | JList items =>
        if decide (1 <= k) then items !! Z.to_nat (k - 1) ≫= url_of else None
    | _ => None
    end.
Proof.
  destruct processing_results; try done. apply load_results_data_lookup.
Qed.


(** X8. After the spreadsheet of a dated directory is written, the cleanup
    hands every entry of the directory except the spreadsheet to the
    removal, the link directories and the results file included, never the
    spreadsheet itself, and reports success whether or not the removals
    succeed; it reports failure only when the directory cannot be listed. *)
Theorem cleanup_spares_only_the_spreadsheet (items : list string)
    (date_path date_dir : string) :
  absent "/" date_dir →
  Forall (λ item, PyStr.startswith "/" item = false) items →
  let excel_file := ExcelService.excel_path date_path date_dir in
  ExcelService._cleanup_directory None date_path excel_file = ([], false)
  ∧ let '(targets, ok) :=
      ExcelService._cleanup_directory (Some items) date_path excel_file in
    ok = true
    ∧ (excel_file ∉ targets)
    ∧ (∀ item, item ∈ items → item ≠ "analisis_" +:+ date_dir +:+ ".xlsx" →
               OsPath.join date_path item ∈ targets).
Proof.
  intros Hd Hitems. cbn zeta. split; [done|].
  by apply (cleanup_targets items date_path date_dir).
Qed.

Lemma cleanup_spares_only_the_spreadsheet_witness :
  let excel_file :=
    ExcelService.excel_path "output/2025-01-01_10-00-00" "2025-01-01_10-00-00" in
  ExcelService._cleanup_directory None "output/2025-01-01_10-00-00" excel_file
  = ([], false)
  ∧ let '(targets, ok) :=
      ExcelService._cleanup_directory (Some sample_listing)
        "output/2025-01-01_10-00-00" excel_file in
    ok = true
    ∧ (excel_file ∉ targets)
    ∧ (∀ item, item ∈ sample_listing →
               item ≠ "analisis_" +:+ "2025-01-01_10-00-00" +:+ ".xlsx" →
               OsPath.join "output/2025-01-01_10-00-00" item ∈ targets).
Proof.
  apply (cleanup_spares_only_the_spreadsheet sample_listing
           "output/2025-01-01_10-00-00" "2025-01-01_10-00-00").
  - apply absent_by_contains. reflexivity.
  - repeat constructor.
Defined.

(** X9. The names the controller gives to what it writes are the names the
    spreadsheet service looks for: the results file of a run passes the
    results filter, the analysis file of a link passes the analysis filter
    and is not taken for a results file, and the directory of the link
    numbered [index] is read back as [index]. *)
Theorem written_names_match_the_filters (date_str : string) (index : Z) :
  ExcelService.is_results_file (ContentController.results_name date_str) = true
  ∧ ExcelService.is_analysis_file (ContentController.analysis_name index) = true
  ∧ ExcelService.is_results_file (ContentController.analysis_name index) = false
  ∧ ExcelService.parse_index (ContentController.file_name index) = index.
Proof.
  split; [apply results_name_is_results_file|].
  split; [apply analysis_name_is_analysis_file|].
  split; [reflexivity | apply parse_index_file_name].
Qed.

(** ** Downloads *)

Section DownloadRuns.

Variables USER_AGENT INSTAGRAM_USERNAME INSTAGRAM_PASSWORD : string.
Variables INSTAGRAM_BROWSER INSTAGRAM_PROFILE INSTAGRAM_COOKIES_FILE : string.
Variable cookies_file_exists : bool.
Variable run : nat → list string → Z * string.
Variable makedirs : string → bool.

(** X10. A video download and an audio extraction first make sure that
    the directory of the output path exists; if [os.makedirs] raises there,
    as it always does for an output path without a directory part, no
    command is run. Otherwise each runs yt-dlp once or twice: first the
    command with the authentication options, and a second command only if
    the first one failed; the value returned tells whether the last command
    run exited with status 0. For a URL that is not an Instagram URL the
    only command is the base command, without any authentication option. *)
Theorem downloads_run_at_most_twice (url output_path : string) :
  let auth :=
    DownloadService.add_auth INSTAGRAM_USERNAME INSTAGRAM_PASSWORD INSTAGRAM_BROWSER
      INSTAGRAM_PROFILE INSTAGRAM_COOKIES_FILE cookies_file_exists url in
  let video := DownloadService.video_cmd USER_AGENT url output_path in
  let audio := DownloadService.audio_cmd USER_AGENT url output_path in
  let directory := OsPath.dirname output_path in
  let prepared := negb (String.eqb directory EmptyString) && makedirs directory in
  match
    DownloadService.download_video USER_AGENT INSTAGRAM_USERNAME INSTAGRAM_PASSWORD
      INSTAGRAM_BROWSER INSTAGRAM_PROFILE INSTAGRAM_COOKIES_FILE
      cookies_file_exists run makedirs url output_path
  with
  | DownloadService.MakedirsRaised d => prepared = false ∧ d = directory
  | DownloadService.Completed runs success =>
      prepared = true
      ∧ (∃ second, runs = auth video :: second ∧ (length second <= 1)%nat)
      ∧ success = ((run (length runs - 1)%nat (List.last runs (auth video))).1 =? 0)
      ∧ ((run 0%nat (auth video)).1 = 0 → runs = [auth video])
      ∧ (PyStr.contains "instagram.com" url = false → runs = [video])
  end
  ∧ match
      DownloadService.extract_audio USER_AGENT INSTAGRAM_USERNAME INSTAGRAM_PASSWORD
        INSTAGRAM_BROWSER INSTAGRAM_PROFILE INSTAGRAM_COOKIES_FILE
        cookies_file_exists run makedirs url output_path
    with
    | DownloadService.MakedirsRaised d => prepared = false ∧ d = directory
    | DownloadService.Completed runs success =>
        prepared = true
        ∧ (∃ second, runs = auth audio :: second ∧ (length second <= 1)%nat)
        ∧ success = ((run (length runs - 1)%nat (List.last runs (auth audio))).1 =? 0)
        ∧ ((run 0%nat (auth audio)).1 = 0 → runs = [auth audio])
        ∧ (PyStr.contains "instagram.com" url = false → runs = [audio])
    end
  ∧ (absent "/" output_path → directory = EmptyString ∧ prepared = false).
Proof.
  cbn zeta. unfold DownloadService.download_video, DownloadService.extract_audio,
    DownloadService.ensure_directory.
  split; [|split].
  - destruct (_ && _); [|done].
    pose proof (run_with_fallback_runs INSTAGRAM_USERNAME INSTAGRAM_PASSWORD
                  INSTAGRAM_BROWSER INSTAGRAM_PROFILE run url
                  (DownloadService.video_cmd USER_AGENT url output_path)
                  (DownloadService.add_auth INSTAGRAM_USERNAME INSTAGRAM_PASSWORD
                     INSTAGRAM_BROWSER INSTAGRAM_PROFILE INSTAGRAM_COOKIES_FILE
                     cookies_file_exists url
                     (DownloadService.video_cmd USER_AGENT url output_path))) as H.
    destruct (DownloadService.run_with_fallback _ _ _ _ _ _ _ _) as [runs success].
    destruct H as (H1 & H2 & H3 & H4). repeat split; try done.
    intros Hu. rewrite (H4 Hu). unfold DownloadService.add_auth. by rewrite Hu.
  - destruct (_ && _); [|done].
    pose proof (run_with_fallback_runs INSTAGRAM_USERNAME INSTAGRAM_PASSWORD
                  INSTAGRAM_BROWSER INSTAGRAM_PROFILE run url
                  (DownloadService.audio_cmd USER_AGENT url output_path)
                  (DownloadService.add_auth INSTAGRAM_USERNAME INSTAGRAM_PASSWORD
                     INSTAGRAM_BROWSER INSTAGRAM_PROFILE INSTAGRAM_COOKIES_FILE
                     cookies_file_exists url
                     (DownloadService.audio_cmd USER_AGENT url output_path))) as H.
    destruct (DownloadService.run_with_fallback _ _ _ _ _ _ _ _) as [runs success].
    destruct H as (H1 & H2 & H3 & H4). repeat split; try done.
    intros Hu. rewrite (H4 Hu). unfold DownloadService.add_auth. by rewrite Hu.
  - intros Hp. by rewrite (dirname_plain output_path Hp).
Qed.

(** X11. The retry with user name and password is never taken. It asks for
    the text [--cookies-from-browser] in the command line and for both
    credentials; when that text occurs in no item of the two base commands
    and in none of the cookies file name, the user name and the password,
    only the third authentication method puts it there, and that method is
    reached only when a credential is missing. So whenever a video download
    or an audio extraction runs commands, the second command, if there is
    one, is the base command without authentication. *)
Theorem credentials_retry_is_never_taken (url output_path : string) :
  let auth :=
    DownloadService.add_auth INSTAGRAM_USERNAME INSTAGRAM_PASSWORD INSTAGRAM_BROWSER
      INSTAGRAM_PROFILE INSTAGRAM_COOKIES_FILE cookies_file_exists url in
  let video := DownloadService.video_cmd USER_AGENT url output_path in
  let audio := DownloadService.audio_cmd USER_AGENT url output_path in
  PyStr.contains cookies_flag INSTAGRAM_COOKIES_FILE = false →
  PyStr.contains cookies_flag INSTAGRAM_USERNAME = false →
  PyStr.contains cookies_flag INSTAGRAM_PASSWORD = false →
  existsb (PyStr.contains cookies_flag) video = false →
  existsb (PyStr.contains cookies_flag) audio = false →
  (∀ runs success,
     DownloadService.download_video USER_AGENT INSTAGRAM_USERNAME INSTAGRAM_PASSWORD
       INSTAGRAM_BROWSER INSTAGRAM_PROFILE INSTAGRAM_COOKIES_FILE
       cookies_file_exists run makedirs url output_path
     = DownloadService.Completed runs success →
     runs = [auth video] ∨ runs = [auth video; video])
  ∧ (∀ runs success,
       DownloadService.extract_audio USER_AGENT INSTAGRAM_USERNAME INSTAGRAM_PASSWORD
         INSTAGRAM_BROWSER INSTAGRAM_PROFILE INSTAGRAM_COOKIES_FILE
         cookies_file_exists run makedirs url output_path
       = DownloadService.Completed runs success →
       runs = [auth audio] ∨ runs = [auth audio; audio]).
Proof.
  cbn zeta. intros Hf Hu Hp Hv Ha.
  unfold DownloadService.download_video, DownloadService.extract_audio.
  split; intros runs success; destruct (DownloadService.ensure_directory _ _);
    try discriminate.
  - pose proof (retry_is_unauthenticated INSTAGRAM_USERNAME INSTAGRAM_PASSWORD
                  INSTAGRAM_BROWSER INSTAGRAM_PROFILE INSTAGRAM_COOKIES_FILE
                  cookies_file_exists run url _ Hv Hf Hu Hp) as H.
    cbn zeta in H. destruct (DownloadService.run_with_fallback _ _ _ _ _ _ _ _).
    by intros [= <- _].
  - pose proof (retry_is_unauthenticated INSTAGRAM_USERNAME INSTAGRAM_PASSWORD
                  INSTAGRAM_BROWSER INSTAGRAM_PROFILE INSTAGRAM_COOKIES_FILE
                  cookies_file_exists run url _ Ha Hf Hu Hp) as H.
    cbn zeta in H. destruct (DownloadService.run_with_fallback _ _ _ _ _ _ _ _).
    by intros [= <- _].
Qed.

End DownloadRuns.

Lemma credentials_retry_is_never_taken_witness :
  let url := "https://www.instagram.com/reel/abc/"%string in
  let output_path := "output/archivo_1/archivo_1_video.mp4"%string in
  let auth :=
    DownloadService.add_auth "user" "secret" "chrome" EmptyString "cookies.txt"
      false url in
  let video := DownloadService.video_cmd "Mozilla/5.0" url output_path in
  let audio := DownloadService.audio_cmd "Mozilla/5.0" url output_path in
  (∃ runs success,
     DownloadService.download_video "Mozilla/5.0" "user" "secret" "chrome"
       EmptyString "cookies.txt" false permission_denied (λ _, true) url output_path
     = DownloadService.Completed runs success
     ∧ (runs = [auth video] ∨ runs = [auth video; video]))
  ∧ (∃ runs success,
       DownloadService.extract_audio "Mozilla/5.0" "user" "secret" "chrome"
         EmptyString "cookies.txt" false permission_denied (λ _, true) url output_path
       = DownloadService.Completed runs success
       ∧ (runs = [auth audio] ∨ runs = [auth audio; audio])).
Proof.
  cbn zeta.
  destruct (credentials_retry_is_never_taken "Mozilla/5.0" "user" "secret" "chrome"
              EmptyString "cookies.txt" false permission_denied (λ _, true)
              "https://www.instagram.com/reel/abc/"
              "output/archivo_1/archivo_1_video.mp4") as [Hv Ha]; try reflexivity.
  split.
  - eexists _, _. split; [reflexivity|]. by eapply Hv.
  - eexists _, _. split; [reflexivity|]. by eapply Ha.
Defined.

(** ** Frame extraction *)

(** X12. With a frame interval of at least 1 the capture loop ends (fuel
    equal to the number of frames is enough) and reads the positions 0,
    interval, 2 * interval, ... in order: every position read is below the
    number of frames, the next multiple is not, and a position gives an
    image file exactly when reading it succeeded. *)
Theorem frames_are_read_at_every_interval (read : Z → bool) (output_dir : string)
    (total_frames frame_interval : Z) (fuel : nat) :
  1 <= frame_interval →
  (Z.to_nat total_frames <= fuel)%nat →
  ∃ cs n,
    ExtractionService.capture_loop read fuel output_dir total_frames
      frame_interval 0 0 = Some (cs, n)
    ∧ ExtractionService.position <$> cs = multiples 0 frame_interval (length cs)
    ∧ Forall (λ p, p < total_frames) (ExtractionService.position <$> cs)
    ∧ total_frames <= Z.of_nat (length cs) * frame_interval
    ∧ Forall (λ c, read (ExtractionService.position c)
                   = bool_decide (is_Some (ExtractionService.saved_path c))) cs.
Proof.
  intros Hk Hfuel.
  destruct (capture_loop_run read output_dir total_frames frame_interval Hk fuel 0 0)
    as (cs & E & Hp & Hb & Hc & _ & Hr); [lia|].
  exists cs, (0 + Z.of_nat (length (saved cs))). repeat split; try done. lia.
Qed.

Lemma frames_are_read_at_every_interval_witness :
  ∃ cs n,
    ExtractionService.capture_loop every_frame 250 "capturas" 250 90 0 0 = Some (cs, n)
    ∧ ExtractionService.position <$> cs = multiples 0 90 (length cs)
    ∧ Forall (λ p, p < 250) (ExtractionService.position <$> cs)
    ∧ 250 <= Z.of_nat (length cs) * 90
    ∧ Forall (λ c, every_frame (ExtractionService.position c)
                   = bool_decide (is_Some (ExtractionService.saved_path c))) cs.
Proof.
  apply (frames_are_read_at_every_interval every_frame "capturas" 250 90 250); lia.
Defined.

(** X13. With a frame interval of at least 1 the image files written are
    [frame_000.jpg], [frame_001.jpg], ... in the output directory, numbered
    consecutively in the order of the positions that could be read, with no
    number skipped for a position that could not; the files are pairwise
    distinct, and the count the loop ends with is their number. *)
Theorem saved_frames_are_numbered (read : Z → bool) (output_dir : string)
    (total_frames frame_interval : Z) (fuel : nat) :
  1 <= frame_interval →
  (Z.to_nat total_frames <= fuel)%nat →
  ∃ cs,
    ExtractionService.capture_loop read fuel output_dir total_frames
      frame_interval 0 0 = Some (cs, Z.of_nat (length (saved cs)))
    ∧ saved cs = frame_names output_dir 0 (length (saved cs))
    ∧ NoDup (saved cs).
Proof.
  intros Hk Hfuel.
  destruct (capture_loop_run read output_dir total_frames frame_interval Hk fuel 0 0)
    as (cs & E & _ & _ & _ & Hs & _); [lia|].
  exists cs. split; [by rewrite E, Z.add_0_l|]. split; [done|].
  rewrite Hs. by apply frame_names_NoDup.
Qed.

Lemma saved_frames_are_numbered_witness :
  ∃ cs,
    ExtractionService.capture_loop every_frame 250 "capturas" 250 90 0 0
    = Some (cs, Z.of_nat (length (saved cs)))
    ∧ saved cs = frame_names "capturas" 0 (length (saved cs))
    ∧ NoDup (saved cs).
Proof.
  apply (saved_frames_are_numbered every_frame "capturas" 250 90 250); lia.
Defined.

(** X14. With a frame interval that is not positive (the value of
    [int(fps * CAPTURE_INTERVAL)] for a positive frame rate below one
    third) and at least one frame, the capture loop never ends: no amount
    of fuel lets it return. *)
Theorem capture_loop_never_ends (read : Z → bool) (output_dir : string)
    (total_frames frame_interval : Z) :
  frame_interval <= 0 → 0 < total_frames →
  ∀ fuel, ExtractionService.capture_loop read fuel output_dir total_frames
            frame_interval 0 0 = None.
Proof.
  intros Hk Ht fuel. by apply capture_loop_stuck.
Qed.

Lemma capture_loop_never_ends_witness :
  ExtractionService.capture_loop every_frame 1000 "capturas" 30 0 0 0 = None.
Proof.
  apply (capture_loop_never_ends every_frame "capturas" 30 0); lia.
Defined.

(** ** Diagnostics *)

(** X15. The response text that [log_api_error] writes is never longer than
    514 characters: a text of at most 500 characters is written whole, a
    longer one is cut to its first 500 characters followed by the marker
    [... [truncado]]. *)
Theorem logged_response_is_bounded (response_text : string) :
  (String.length (LoggingConfig.truncate_response response_text) <= 514)%nat
  ∧ ((String.length response_text <= 500)%nat →
     LoggingConfig.truncate_response response_text = response_text)
  ∧ ((500 < String.length response_text)%nat →
     ∃ rest, response_text = PyStr.take 500 response_text +:+ rest
       ∧ LoggingConfig.truncate_response response_text
         = PyStr.take 500 response_text +:+ "... [truncado]"
       ∧ String.length (PyStr.take 500 response_text) = 500%nat).
Proof.
  unfold LoggingConfig.truncate_response.
  destruct (take_bounded 500 response_text) as [Hlen [rest Hrest]].
  destruct (Nat.ltb_spec 500 (String.length response_text)) as [Hlong|Hshort].
  - split; [|split; [lia|]].
    + rewrite str_length_app. cbn [String.length]. lia.
    + intros _. exists rest. split; [done|]. split; [done|].
      unfold PyStr.take. clear -Hlong. revert Hlong.
      generalize 500%nat as n. intros n. revert response_text.
      induction n as [|n IH]; intros [|c s] H; cbn [String.length] in *;
        try lia; cbn [String.substring String.length]; [done|].
      rewrite IH; [done | lia].
  - split; [lia|]. split; [done | lia].
Qed.

(** X16. The hint [log_api_error] logs and the decision of the retry
    handler read the same lower-cased message but test it in opposite
    orders. When the handler stops for a payload that is too large, the hint
    is the file size hint; when the message is a quota message that does
    not mention size, the hint is the rate limit hint; but for a message
    that matches both, the log blames the file size while the handler
    treats it as a quota error (it retries or gives up on quota, never
    stops for size). *)
Theorem hint_and_handler_disagree_on_precedence
    (str_validation_error : list string → gmap string json → string)
    (max_retries retry_count : Z) (e : exn) :
  let error_str := PyStr.lower (str_exn str_validation_error e) in
  (handle str_validation_error max_retries retry_count e = Exit PayloadTooLarge →
   LoggingConfig.error_hint error_str = Some LoggingConfig.FileSizeExceeded)
  ∧ (is_quota_error error_str = true → is_too_large_error error_str = false →
     LoggingConfig.error_hint error_str = Some LoggingConfig.RateLimitOrQuota)
  ∧ (is_quota_error error_str = true → is_too_large_error error_str = true →
     LoggingConfig.error_hint error_str = Some LoggingConfig.FileSizeExceeded
     ∧ handle str_validation_error max_retries retry_count e ≠ Exit PayloadTooLarge).
Proof.
  cbn zeta. unfold handle, is_quota_error, is_too_large_error, LoggingConfig.error_hint.
  set (s := PyStr.lower _).
  destruct (PyStr.contains "too large" s), (PyStr.contains "size limit" s),
    (PyStr.contains "quota" s), (PyStr.contains "rate limit" s);
    cbn [orb]; repeat split; try done; try (intros; discriminate);
    intros; destruct (retry_count <? max_retries); done.
Qed.

Lemma hint_and_handler_disagree_on_precedence_witness :
  LoggingConfig.error_hint (PyStr.lower "Quota exceeded: request payload too large")
  = Some LoggingConfig.FileSizeExceeded
  ∧ handle (λ _ _, EmptyString) 3 0 (ApiError "Quota exceeded: request payload too large")
    ≠ Exit PayloadTooLarge.
Proof.
  apply (hint_and_handler_disagree_on_precedence (λ _ _, EmptyString) 3 0
           (ApiError "Quota exceeded: request payload too large")); reflexivity.
Defined.

(** ** Before the loop *)

(** X17. The file that receives the reduced video is never the input file:
    its path is the input path with [_reduced] inserted before the
    extension, where the extension (possibly empty) contains no [/], so
    that the file lies in the directory of the input. *)
Theorem reduced_video_is_a_new_file (video_path : string) :
  GeminiService.reduced_path video_path ≠ video_path
  ∧ ∃ base_name ext,
      video_path = base_name +:+ ext
      ∧ absent "/" ext
      ∧ GeminiService.reduced_path video_path = base_name +:+ "_reduced" +:+ ext.
Proof.
  split; [apply reduced_path_fresh|].
  exists (OsPath.splitext video_path).1, (OsPath.splitext video_path).2.
  split; [by rewrite splitext_concat|].
  split; [apply splitext_ext_in_name | apply reduced_path_shape].
Qed.

(** X18. For an existing video file, [analyze_video] runs ffmpeg exactly
    when the file is larger than 15 MiB, and then exactly once, from the
    input to the reduced path; the file that is read and sent is the
    reduced one exactly when ffmpeg exits with status 0 and the reduced
    file exists, and the input otherwise. A file of at most 15 MiB is sent
    as it is, also when it is larger than the 10 MiB that
    [_reduce_video_size] would accept. *)
Theorem only_videos_over_15_MiB_are_reduced (path_exists : string → bool)
    (getsize : string → Z) (ffmpeg : list string → GeminiService.ffmpeg_result)
    (video_path : string) :
  path_exists video_path = true →
  let cmd :=
    GeminiService.ffmpeg_cmd video_path (GeminiService.reduced_path video_path) in
  (getsize video_path <= 15 * GeminiService.MiB →
   GeminiService.prepare_video path_exists getsize ffmpeg video_path
   = GeminiService.Ready [] video_path)
  ∧ (15 * GeminiService.MiB < getsize video_path →
     ∃ sent,
       GeminiService.prepare_video path_exists getsize ffmpeg video_path
       = GeminiService.Ready [cmd] sent
       ∧ (sent = GeminiService.reduced_path video_path ↔
          ffmpeg cmd = GeminiService.Exited 0 true)
       ∧ (sent = GeminiService.reduced_path video_path ∨ sent = video_path))
  ∧ (10 * GeminiService.MiB < getsize video_path →
     (GeminiService._reduce_video_size getsize ffmpeg video_path 10).1 = [cmd]).
Proof.
  intros He. cbn zeta. unfold GeminiService.prepare_video. rewrite He. cbn [negb].
  pose proof (reduced_path_fresh video_path) as Hfresh.
  split; [|split].
  - intros Hs. destruct (Z.ltb_spec (15 * GeminiService.MiB) (getsize video_path));
      [lia | done].
  - intros Hs. destruct (Z.ltb_spec (15 * GeminiService.MiB) (getsize video_path));
      [|lia].
    unfold GeminiService._reduce_video_size.
    destruct (Z.leb_spec (getsize video_path) (10 * GeminiService.MiB)) as [Hle|_].
    { unfold GeminiService.MiB in *. lia. }
    destruct (ffmpeg _) as [|returncode output_exists] eqn:Hf.
    + eexists. split; [reflexivity|]. split; [|by right].
      split; [by intros ?%symmetry | done].
    + destruct (Z.eqb_spec returncode 0) as [->|Hrc]; cbn [negb].
      * destruct output_exists; cbn [negb].
        -- eexists. split; [reflexivity|]. split; [done | by left].
        -- eexists. split; [reflexivity|]. split; [|by right].
           split; [by intros ?%symmetry | done].
      * eexists. split; [reflexivity|]. split; [|by right].
        split; [by intros ?%symmetry | intros [=]; done].
  - intros Hs. unfold GeminiService._reduce_video_size.
    destruct (Z.leb_spec (getsize video_path) (10 * GeminiService.MiB)); [lia|].
    destruct (ffmpeg _) as [|returncode output_exists]; [done|].
    destruct (returncode =? 0), output_exists; done.
Qed.

Lemma only_videos_over_15_MiB_are_reduced_witness :
  ∃ sent,
    GeminiService.prepare_video (λ _, true) oversized transcoded "video.mp4"
    = GeminiService.Ready
        [GeminiService.ffmpeg_cmd "video.mp4" (GeminiService.reduced_path "video.mp4")]
        sent
    ∧ sent = GeminiService.reduced_path "video.mp4".
Proof.
  destruct (only_videos_over_15_MiB_are_reduced (λ _, true) oversized transcoded
              "video.mp4" eq_refl) as (_ & H & _).
  destruct H as (sent & E & Hiff & _); [reflexivity|].
  exists sent. split; [exact E | by apply Hiff].
Defined.

(** ** The second analysis service *)

Section SecondService.

Variable provider : string.
Variable format_prompt : exn + string.
Variable str_validation_error : list string → gmap string json → string.

(** X19. [VideoAnalysisService.analyze_video] always ends and never returns
    an analysis: it builds the model from the single keyword [result], so
    the constructor fails for want of the required fields whatever the
    remote model answers, and every way out of the loop returns [None]. *)
Theorem second_service_never_returns_an_analysis (invoke : Z → reply)
    (max_retries : Z) :
  (∀ content, ∃ fields,
      VideoAnalysisService.construct content
      = inl (ValidationError fields {[ "result" := content ]})
      ∧ "descripcion_original" ∈ fields)
  ∧ ∃ evs o,
      VideoAnalysisService.analyze_video provider format_prompt
        str_validation_error invoke max_retries = Some (evs, o)
      ∧ returned o = None.
Proof.
  split; [apply construct_fails|].
  apply retry_loop_no_analysis. lia.
Qed.

End SecondService.

(** ** Repair once more *)

(** X21. Repair is idempotent: an object that repair returns is left
    unchanged by a second repair, which does not raise. *)
Theorem repair_is_idempotent (d d' : gmap string json) :
  repair d = inr d' → repair d' = inr d'.
Proof.
  unfold repair at 1. intros H.
  destruct (ensure_hashtags_inr _ _ H) as (Hkeep & Hh & _).
  assert (Hreq : ∀ f, f ∈ required_fields → is_Some (d' !! f)).
  { intros f Hf. rewrite Hkeep.
    - by apply fill_missing_fields_required.
    - intros ->. by apply hashtags_not_required. }
  unfold repair. rewrite apply_field_mapping_id.
  - rewrite fill_missing_fields_id by done.
    unfold ensure_hashtags, has_key. by destruct Hh as [h ->].
  - intros old new Hin. by eapply Hreq, field_mapping_targets_required.
Qed.

Lemma repair_is_idempotent_witness :
  ∃ d', repair ∅ = inr d' ∧ repair d' = inr d'.
Proof.
  eexists. split; [reflexivity|].
  apply (repair_is_idempotent ∅). reflexivity.
Defined.

(** X22. The placeholder does not rescue a response that lacks [acciones],
    [dialogo] or [musica]: when repair returns, the missing field holds the
    placeholder string, which is neither a list nor an object, so the
    constructor rejects the repaired object with a validation error that
    names the field. *)
Theorem placeholder_fails_validation (d d' : gmap string json) (k : string) :
  k ∈ record_fields → d !! k = None → repair d = inr d' →
  d' !! k = Some placeholder
  ∧ ∃ fields, VideoAnalysis.validate d' = inl (ValidationError fields d') ∧ k ∈ fields.
Proof.
  intros Hk Hd H.
  pose proof (repair_fills_record_field d d' k Hk Hd H) as Hp.
  split; [done | by apply validate_rejects_placeholder].
Qed.

Lemma placeholder_fails_validation_witness :
  ∃ d', repair ∅ = inr d'
    ∧ d' !! "acciones" = Some placeholder
    ∧ ∃ fields, VideoAnalysis.validate d' = inl (ValidationError fields d')
                ∧ "acciones" ∈ fields.
Proof.
  eexists. split; [reflexivity|].
  apply (placeholder_fails_validation ∅ _ "acciones").
  - apply list_elem_of_here.
  - reflexivity.
  - reflexivity.
Defined.
